(** * CourseAvtoSellingBot: the dialogue engine of [app/bot.py]

    A shallow embedding of the [Bot] class (intent classification, slot
    driven state machine, vehicle filter, retrieval fallback, session
    context and statistics) together with the properties of its
    specification.

    Conventions of the embedding.
    - A Python [str] is a [string] (its UTF-8 bytes); a value that is
      either [None] or a [str] is an [option string].
    - [context.user_data] is a record with one optional field per key the
      bot uses: [None] means that the key is absent from the dictionary.
    - [CONFIG], the helpers of [utils], the pickled models, [rapidfuzz] and
      the hash order of [set] are not part of [bot.py]; they are the
      fields of the records [Config] and [Externals].
    - Scores and similarities (Python floats) are rationals: only their
      order is used.
    - A method of [Bot] is a computation in the monad [M]: it threads the
      session dictionary and the random source, and may raise. *)

From Stdlib Require Import ZArith QArith Lqa String List Lia.
From stdpp Require Import base option strings list gmap pretty.

Local Open Scope string_scope.
Local Open Scope Z_scope.

(** ** Python primitives on strings and lists *)

(** Truth value of a [str]: the empty string is false. *)
Definition str_truthy (s : string) : bool :=
  match s with
  | EmptyString => false
  | String _ _ => true
  end.

(** Truth value of a value that is [None] or a [str]. *)
Definition truthy (v : option string) : bool :=
  match v with
  | Some s => str_truthy s
  | None => false
  end.

(** Truth value of a value that is [None] or an [int]. *)
Definition int_truthy (v : option Z) : bool :=
  match v with
  | Some n => negb (n =? 0)
  | None => false
  end.

(** [a or b] on values that are [None] or a [str]. *)
Definition py_or (a b : option string) : option string :=
  if truthy a then a else b.

(** [str(v)] as an f-string prints it. *)
Definition py_str (v : option string) : string :=
  match v with
  | Some s => s
  | None => "None"
  end.

(** [needle in hay] for two [str]. *)
Fixpoint str_in (needle hay : string) : bool :=
  String.prefix needle hay
  || match hay with
     | EmptyString => false
     | String _ hay' => str_in needle hay'
     end.

(** [s.replace(old, new)] for a non-empty [old]: occurrences are replaced
    from the left and do not overlap; [skip] counts the characters of the
    occurrence being skipped. *)
Fixpoint replace_go (old new : string) (skip : nat) (s : string) : string :=
  match s with
  | EmptyString => EmptyString
  | String c s' =>
      match skip with
      | S k => replace_go old new k s'
      | O =>
          if String.prefix old s
          then new ++ replace_go old new (Nat.pred (String.length old)) s'
          else String c (replace_go old new O s')
      end
  end.

Definition str_replace (old new s : string) : string :=
  replace_go old new O s.

(** [sep.join(l)]. *)
Fixpoint join (sep : string) (l : list string) : string :=
  match l with
  | [] => EmptyString
  | [x] => x
  | x :: l' => x ++ sep ++ join sep l'
  end.

(** [l[start:]] with Python's reading of a negative start. *)
Definition slice_from {A} (start : Z) (l : list A) : list A :=
  if start <? 0
  then drop (Z.to_nat (Z.max 0 (Z.of_nat (length l) + start))) l
  else drop (Z.to_nat start) l.

(** [d.get(k)] and [k in d] on a dictionary kept in insertion order. *)
Fixpoint dict_get {V} (k : string) (d : list (string * V)) : option V :=
  match d with
  | [] => None
  | (k', v) :: d' => if String.eqb k k' then Some v else dict_get k d'
  end.

Definition dict_keys {V} (d : list (string * V)) : list string := map fst d.
Definition dict_values {V} (d : list (string * V)) : list V := map snd d.

(** [x in l] for a list of [str]. *)
Definition list_in (x : string) (l : list string) : bool :=
  existsb (String.eqb x) l.

(** [x in l] for a list whose items are [None] or a [str]. *)
Definition list_in_opt (x : option string) (l : list (option string)) : bool :=
  existsb (fun y => bool_decide (x = y)) l.

(** ** Enumerations of the module *)

Inductive BotState := NONE | WAITING_FOR_CAR | WAITING_FOR_INTENT.

Definition BotState_value (s : BotState) : string :=
  match s with
  | NONE => "NONE"
  | WAITING_FOR_CAR => "WAITING_FOR_CAR"
  | WAITING_FOR_INTENT => "WAITING_FOR_INTENT"
  end.

Inductive Intent :=
  | HELLO | BYE | YES | NO | CAR_TYPES | CAR_PRICE | CAR_AVAILABILITY
  | CAR_RECOMMENDATION | FILTER_CARS | CAR_INFO | BOOK_TEST_DRIVE
  | COMPARE_CARS.

Definition Intent_value (i : Intent) : string :=
  match i with
  | HELLO => "hello"
  | BYE => "bye"
  | YES => "yes"
  | NO => "no"
  | CAR_TYPES => "car_types"
  | CAR_PRICE => "car_price"
  | CAR_AVAILABILITY => "car_availability"
  | CAR_RECOMMENDATION => "car_recommendation"
  | FILTER_CARS => "filter_cars"
  | CAR_INFO => "car_info"
  | BOOK_TEST_DRIVE => "book_test_drive"
  | COMPARE_CARS => "compare_cars"
  end.

Inductive ResponseType := INTENT | GENERATE | FAILURE.

#[global] Instance ResponseType_eq_dec : EqDecision ResponseType.
Proof. solve_decision. Defined.

Definition ResponseType_value (r : ResponseType) : string :=
  match r with
  | INTENT => "intent"
  | GENERATE => "generate"
  | FAILURE => "failure"
  end.

(** [v == i.value]. *)
Definition is_intent (v : option string) (i : Intent) : bool :=
  bool_decide (v = Some (Intent_value i)).

(** [v in [i.value for i in l]]. *)
Definition intent_among (v : option string) (l : list Intent) : bool :=
  existsb (is_intent v) l.

(** The four intents that talk about one vehicle. *)
Definition car_intents : list Intent :=
  [CAR_PRICE; CAR_AVAILABILITY; CAR_INFO; BOOK_TEST_DRIVE].

(** ** Configuration and external collaborators *)

(** An entry of [CONFIG['cars']]: key ['price'] is read with [data['price']],
    the two others with [data.get]. *)
Record CarData := {
  cd_price : Z;
  cd_description : option string;
  cd_categories : option (list string)
}.

(** [data.get('categories', [])]. *)
Definition categories_of (d : CarData) : list string :=
  default [] (cd_categories d).

(** An entry of [CONFIG['intents']]. *)
Record IntentData := {
  id_examples : option (list string);
  id_responses : list string
}.

Record Config := {
  cars : list (string * CarData);
  intents : list (string * IntentData);
  failure_phrases : list string;
  intent_score : Q;
  dialogues_similarity : Q;
  history_limit : Z
}.

(** What [bot.py] imports or loads: the helpers of [utils], the classifier
    behind [vectorizer.transform] and [clf.predict], the similarities of a
    lemmatized text to the rows of the corpus matrix with the stored
    answers, [fuzz.ratio] (between 0 and 100), and the order in which a
    [set] built from a list is iterated. *)
Record Externals := {
  is_meaningful_text : string -> bool;
  extract_car_name : string -> option string;
  extract_car_category : string -> option string;
  extract_price : string -> option Z;
  lemmatize_phrase : string -> string;
  analyze_sentiment : string -> string;
  clf_predict : string -> string;
  cosine_similarity : string -> list Q;
  answers : list string;
  fuzz_ratio : string -> string -> Q;
  set_iter : list string -> list string
}.

(** ** Session context *)

(** [context.user_data]: a field is [None] when its key is absent. The
    values under ['current_car'], ['last_bot_response'] and ['last_intent']
    are themselves [None] or a [str]; ['stats'] maps the value of a
    [ResponseType] to its count. *)
Record UserData := {
  state : option string;
  current_car : option (option string);
  last_bot_response : option (option string);
  last_intent : option (option string);
  history : option (list string);
  stats : option (gmap string nat)
}.

(** The dictionary of a session that has not spoken yet. *)
Definition empty_user_data : UserData :=
  {| state := None; current_car := None; last_bot_response := None;
     last_intent := None; history := None; stats := None |}.

Definition set_state (v : string) (u : UserData) : UserData :=
  {| state := Some v; current_car := current_car u;
     last_bot_response := last_bot_response u; last_intent := last_intent u;
     history := history u; stats := stats u |}.

Definition set_current_car (v : option string) (u : UserData) : UserData :=
  {| state := state u; current_car := Some v;
     last_bot_response := last_bot_response u; last_intent := last_intent u;
     history := history u; stats := stats u |}.

Definition set_last_bot_response (v : option string) (u : UserData) : UserData :=
  {| state := state u; current_car := current_car u;
     last_bot_response := Some v; last_intent := last_intent u;
     history := history u; stats := stats u |}.

Definition set_last_intent (v : option string) (u : UserData) : UserData :=
  {| state := state u; current_car := current_car u;
     last_bot_response := last_bot_response u; last_intent := Some v;
     history := history u; stats := stats u |}.

Definition set_history (v : list string) (u : UserData) : UserData :=
  {| state := state u; current_car := current_car u;
     last_bot_response := last_bot_response u; last_intent := last_intent u;
     history := Some v; stats := stats u |}.

Definition set_stats (v : gmap string nat) (u : UserData) : UserData :=
  {| state := state u; current_car := current_car u;
     last_bot_response := last_bot_response u; last_intent := last_intent u;
     history := history u; stats := Some v |}.

(** [user_data.get(key)] and [user_data.get(key, default)]. *)
Definition get_or_none (f : option (option string)) : option string :=
  default None f.

Definition get_or (d : string) (f : option (option string)) : option string :=
  default (Some d) f.

(** ** The monad of a turn: session, random source, exceptions *)

Inductive exn :=
  | NameError (name : string)
  | KeyError (key : string)
  | IndexError
  | ValueError
  | TypeError
  | OSError (name : string).

Inductive Res (A : Type) :=
  | Ok (a : A)
  | Raise (e : exn).
Arguments Ok {A} a.
Arguments Raise {A} e.

(** The session dictionary and the numbers the random source will give.
    A raised exception keeps the state reached so far: the dictionary is
    mutated in place and survives the call. *)
Record St := { ud : UserData; tape : list N }.

Definition M (A : Type) : Type := St -> Res A * St.

Definition ret {A} (a : A) : M A := fun s => (Ok a, s).

Definition bind {A B} (m : M A) (k : A -> M B) : M B :=
  fun s =>
    match m s with
    | (Ok a, s') => k a s'
    | (Raise e, s') => (Raise e, s')
    end.

Definition raise {A} (e : exn) : M A := fun s => (Raise e, s).

Notation "x <- m ;; k" := (bind m (fun x => k))
  (at level 100, m at next level, right associativity).

Definition get_ud : M UserData := fun s => (Ok (ud s), s).

Definition modify_ud (f : UserData -> UserData) : M unit :=
  fun s => (Ok tt, {| ud := f (ud s); tape := tape s |}).

(** The next number of the random source (0 once the tape is used up). *)
Definition draw : M N :=
  fun s =>
    match tape s with
    | [] => (Ok 0%N, s)
    | n :: t => (Ok n, {| ud := ud s; tape := t |})
    end.

(** A name that is neither local nor global where it is read. *)
Definition unbound {A} (name : string) : M A := raise (NameError name).

(** ** The [random] module *)

(** [random.choice(seq)]: [IndexError] on an empty sequence. *)
Definition random_choice {A} (seq : list A) : M A :=
  match seq with
  | [] => raise IndexError
  | x0 :: _ =>
      n <- draw ;;
      ret (nth (N.to_nat (n mod N.of_nat (length seq))) seq x0)
  end.

(** [random.random()]: a multiple of 2^-53 in [0, 1). Such a number is
    below the float 0.2 (or 0.3) exactly when it is below 1/5 (or 3/10). *)
Definition random_random : M Q :=
  n <- draw ;;
  ret (Qmake (Z.of_N (n mod 9007199254740992)) 9007199254740992).

(** The draws of [random.sample]: [k] items at distinct positions. *)
Fixpoint sample_go {A} (k : nat) (pool : list A) : M (list A) :=
  match k, pool with
  | O, _ => ret []
  | S _, [] => ret []
  | S k', x0 :: _ =>
      n <- draw ;;
      let j := N.to_nat (n mod N.of_nat (length pool)) in
      rest <- sample_go k' (delete j pool) ;;
      ret (nth j pool x0 :: rest)
  end.

(** [random.sample(population, k)]: [ValueError] when the sample is larger
    than the population. *)
Definition random_sample {A} (population : list A) (k : nat) : M (list A) :=
  if (length population <? k)%nat then raise ValueError
  else sample_go k population.

(** ** Scores, lookups and searches *)

(** Comparisons of scores. *)
Definition Q_le (a b : Q) : bool := Qle_bool a b.
Definition Q_lt (a b : Q) : bool := negb (Qle_bool b a).

(** The [str] held by a truthy value. *)
Definition the_str (v : option string) : string := default EmptyString v.

(** [str(price)] inside an f-string. *)
Definition py_int_str (v : option Z) : string :=
  match v with
  | Some n => pretty n
  | None => "None"
  end.

(** [needle in v]: [TypeError] when [v] is [None]. *)
Definition py_in (needle : string) (v : option string) : M bool :=
  match v with
  | Some s => ret (str_in needle s)
  | None => raise TypeError
  end.

(** [process.extractOne(query, choices, scorer=fuzz.ratio)]: the first
    choice of greatest score, [None] without choices. *)
Definition extractOne (ratio : string -> string -> Q) (query : string)
    (choices : list string) : option (string * Q) :=
  fold_left
    (fun best c =>
       let sc := ratio query c in
       match best with
       | None => Some (c, sc)
       | Some (_, b) => if Q_lt b sc then Some (c, sc) else best
       end)
    choices None.

(** [a.argmax()] on a flat array: the first index of the greatest item,
    [ValueError] on an empty array. *)
Fixpoint argmax_go (best_i : nat) (best : Q) (i : nat) (l : list Q) : nat :=
  match l with
  | [] => best_i
  | x :: l' =>
      if Q_lt best x then argmax_go i x (S i) l'
      else argmax_go best_i best (S i) l'
  end.

Definition argmax (l : list Q) : M nat :=
  match l with
  | [] => raise ValueError
  | x :: l' => ret (argmax_go O x 1%nat l')
  end.

(** [l[i]]: [IndexError] out of range. *)
Definition list_item {A} (l : list A) (i : nat) : M A :=
  match l !! i with
  | Some x => ret x
  | None => raise IndexError
  end.

(** ** Statistics *)

(** Modelled from the spec: class [Stats] of [utils] is not in [bot.py].
    The spec says that it "increments a per-session counter keyed by
    resolution outcome on every turn", "purely additive"; [stats_command]
    reads the counters from [user_data['stats']] and takes them to be 0
    when the key is absent. *)
Definition zero_stats : gmap string nat :=
  {[ "intent" := O; "generate" := O; "failure" := O ]}.

Definition Stats_new : M unit :=
  modify_ud (fun u =>
    match stats u with
    | Some _ => u
    | None => set_stats zero_stats u
    end).

Definition Stats_add (kind : string) : M unit :=
  modify_ud (fun u =>
    let m := default zero_stats (stats u) in
    set_stats (<[kind := S (default O (m !! kind))]> m) u).

(** The counter of one outcome, as [stats_command] reads it. *)
Definition counter (r : ResponseType) (u : UserData) : nat :=
  default O (default zero_stats (stats u) !! ResponseType_value r).

(** ** Class [Bot] *)

Section Bot.

Variable cfg : Config.
Variable ext : Externals.

(** The suffix chosen by [analyze_sentiment(replica)]: every method has its
    own pair of phrases. *)
Definition suffix (replica positive negative : string) : string :=
  let sentiment := analyze_sentiment ext replica in
  if String.eqb sentiment "positive" then positive
  else if String.eqb sentiment "negative" then negative
  else EmptyString.

(** [CONFIG['cars'][car_name]]. *)
Definition cars_item (car_name : option string) : M CarData :=
  match car_name with
  | Some k =>
      match dict_get k (cars cfg) with
      | Some d => ret d
      | None => raise (KeyError k)
      end
  | None => raise (KeyError "None")
  end.

(** [car_name in CONFIG['cars']]. *)
Definition in_cars (car_name : option string) : bool :=
  match car_name with
  | Some k => list_in k (dict_keys (cars cfg))
  | None => false
  end.

(** [CONFIG['intents'][intent]]. *)
Definition intents_item (intent : string) : M IntentData :=
  match dict_get intent (intents cfg) with
  | Some d => ret d
  | None => raise (KeyError intent)
  end.

(** [[car for car, data in CONFIG['cars'].items()
      if car_category in data.get('categories', [])]]. *)
Definition cars_of_category (car_category : string) : list string :=
  map fst
    (List.filter (fun cd => list_in car_category (categories_of (snd cd)))
       (cars cfg)).

(** [[cat for car in CONFIG['cars'].values()
      for cat in car.get('categories', [])]]. *)
Definition all_categories : list string :=
  concat (map categories_of (dict_values (cars cfg))).

Definition _update_context (replica : string) (answer intent : option string)
    : M unit :=
  modify_ud (fun u =>
    let u :=
      {| state := Some (default (BotState_value NONE) (state u));
         current_car := Some (default None (current_car u));
         last_bot_response := Some (default None (last_bot_response u));
         last_intent := Some (default None (last_intent u));
         history := Some (default [] (history u));
         stats := stats u |} in
    let appended := app (default [] (history u)) [replica] in
    let u := set_history (slice_from (- history_limit cfg) appended) u in
    let u := set_last_bot_response answer u in
    if truthy intent then set_last_intent intent u else u).

(** One round of the loop of [classify_intent] over [CONFIG['intents']]. *)
Definition classify_step (replica_lemmatized : string)
    (acc : Q * option string) (entry : string * IntentData)
    : Q * option string :=
  let '(best_score, best_intent) := acc in
  let '(intent_key, data) := entry in
  let examples :=
    List.filter str_truthy
      (map (lemmatize_phrase ext) (default [] (id_examples data))) in
  match examples with
  | [] => acc
  | _ :: _ =>
      match extractOne (fuzz_ratio ext) replica_lemmatized examples with
      | Some (_, score) =>
          if Q_lt best_score (score / 100)
             && Q_le (intent_score cfg) (score / 100)
          then ((score / 100)%Q, Some intent_key)
          else acc
      | None => acc
      end
  end.

Definition classify_intent (replica : string) : option string :=
  let replica_lemmatized := lemmatize_phrase ext replica in
  if negb (str_truthy replica_lemmatized) then None
  else
    let intent := clf_predict ext replica_lemmatized in
    let '(best_score, best_intent) :=
      fold_left (classify_step replica_lemmatized) (intents cfg)
        (0%Q, None) in
    if Q_le (intent_score cfg) best_score
    then py_or best_intent (Some intent)
    else None.

Definition _get_car_response (intent : string) (car_name : option string)
    (replica : string) : M string :=
  if negb (in_cars car_name)
  then ret "Извините, такой машины нет в наличии."
  else
    idata <- intents_item intent ;;
    answer <- random_choice (id_responses idata) ;;
    car_data <- cars_item car_name ;;
    let answer := str_replace "[car_name]" (the_str car_name) answer in
    let answer := str_replace "[price]" (pretty (cd_price car_data)) answer in
    let answer :=
      str_replace "[description]"
        (default "отличный автомобиль" (cd_description car_data)) answer in
    let answer :=
      answer ++ suffix replica " Рад, что вам нравится! 😊"
        " Кажется, вы сомневаетесь. Может, тест-драйв поможет? 😊" in
    ret (answer ++ " Что ещё интересует?").

(** The loop of [_find_car_by_context] over [history[::-1]]. *)
Fixpoint scan_history (hs : list string) : M (option string) :=
  match hs with
  | [] => ret None
  | hist :: hs' =>
      let hist_car := extract_car_name ext hist in
      if truthy hist_car then ret hist_car
      else
        let hist_category := extract_car_category ext hist in
        if truthy hist_category then
          match cars_of_category (the_str hist_category) with
          | [] => scan_history hs'
          | suitable_cars =>
              c <- random_choice suitable_cars ;; ret (Some c)
          end
        else scan_history hs'
  end.

Definition _find_car_by_context (replica : string) : M (option string) :=
  u <- get_ud ;;
  let last_response := get_or EmptyString (last_bot_response u) in
  let last_intent := get_or EmptyString (last_intent u) in
  let car_category := extract_car_category ext replica in
  if truthy last_response
     && str_in "Кстати, у нас есть" (the_str last_response)
  then ret (extract_car_name ext (the_str last_response))
  else if truthy car_category then
    match cars_of_category (the_str car_category) with
    | [] => ret None
    | suitable_cars => c <- random_choice suitable_cars ;; ret (Some c)
    end
  else if is_intent last_intent CAR_TYPES then
    scan_history (rev (default [] (history u)))
  else ret None.

(** The first comprehension of [_handle_filter_cars]: the condition on one
    entry of the catalog. *)
Definition fits (price : option Z) (car_category : option string)
    (data : CarData) : bool :=
  (negb (int_truthy price) || (cd_price data <=? default 0 price))
  && (negb (truthy car_category)
      || list_in (the_str car_category) (categories_of data)).

(** [suitable_cars] after both comprehensions. *)
Definition suitable_cars_of (price : option Z) (car_category : option string)
    (u : UserData) : list string :=
  let suitable_cars :=
    map fst (List.filter (fun cd => fits price car_category (snd cd))
               (cars cfg)) in
  let recent_cars := map (extract_car_name ext) (default [] (history u)) in
  List.filter (fun c => negb (list_in_opt (Some c) recent_cars))
    suitable_cars.

Definition _handle_filter_cars (price : option Z)
    (car_category : option string) : M string :=
  u <- get_ud ;;
  match suitable_cars_of price car_category u with
  | [] =>
      let conditions :=
        app
          (if int_truthy price
           then ["до " ++ py_int_str price ++ " рублей"] else [])
          (if truthy car_category
           then ["в категории " ++ the_str car_category] else []) in
      ret ("Извините, нет машин для " ++ join ", " conditions ++ ".")
  | suitable_cars =>
      let cars_list := join ", " suitable_cars in
      if negb (int_truthy price) && negb (truthy car_category) then
        car_name <- random_choice suitable_cars ;;
        _ <- modify_ud (set_current_car (Some car_name)) ;;
        _ <- modify_ud (set_state (BotState_value WAITING_FOR_INTENT)) ;;
        ret ("Советую " ++ car_name
             ++ "! Хотите узнать цену или характеристики?")
      else ret ("Вот что нашлось: " ++ cars_list ++ ".")
  end.

(** The upsell at the end of [get_answer_by_intent], the update of
    ['last_intent'] and the [return answer]. *)
Definition finish_answer (intent : string) (car_name : option string)
    (sentiment_suffix answer : string) : M (option string) :=
  answer <-
    (if intent_among (Some intent) [HELLO; CAR_TYPES] then
       r <- random_random ;;
       if Q_lt r (1 # 5) then
         ad_car <-
           random_choice
             (List.filter (fun c => negb (bool_decide (Some c = car_name)))
                (dict_keys (cars cfg))) ;;
         ret (answer ++ " Кстати, у нас есть " ++ ad_car
              ++ " — отличный выбор!" ++ sentiment_suffix)
       else ret answer
     else ret answer) ;;
  _ <- modify_ud (set_last_intent (Some intent)) ;;
  ret (Some answer).

Definition get_answer_by_intent (intent replica : string)
    : M (option string) :=
  u <- get_ud ;;
  let car_name := get_or_none (current_car u) in
  let last_intent := get_or EmptyString (last_intent u) in
  let car_category := extract_car_category ext replica in
  let price := extract_price ext replica in
  match dict_get intent (intents cfg) with
  | None => ret None
  | Some idata =>
  match id_responses idata with
  | [] => ret None
  | responses =>
  answer <- random_choice responses ;;
  let sentiment_suffix :=
    suffix replica " Рад, что вы в хорошем настроении! 😊"
      " Кажется, вы не в духе. Давайте подберем авто! 😊" in
  let finish := finish_answer intent car_name sentiment_suffix in
  if intent_among (Some intent) car_intents then
    if negb (truthy car_name) then
      car_name <- _find_car_by_context replica ;;
      if truthy car_name then
        _ <- modify_ud (set_current_car car_name) ;;
        _ <- modify_ud (set_state (BotState_value WAITING_FOR_INTENT)) ;;
        ret (Some ("Из " ++ py_str (py_or car_category (Some "авто"))
                   ++ " есть " ++ py_str car_name
                   ++ ". Хотите узнать цену, характеристики или записаться на тест?"
                   ++ sentiment_suffix))
      else
        _ <- modify_ud (set_state (BotState_value WAITING_FOR_CAR)) ;;
        ret (Some ("Какую машину или категорию вы имеете в виду?"
                   ++ sentiment_suffix))
    else
      r <- _get_car_response intent car_name replica ;;
      ret (Some r)
  else if is_intent (Some intent) CAR_RECOMMENDATION then
    answer <- _handle_filter_cars None car_category ;;
    finish answer
  else if is_intent (Some intent) FILTER_CARS then
    if int_truthy price || truthy car_category then
      answer <- _handle_filter_cars price car_category ;;
      finish answer
    else
      ret (Some ("Укажите цену или категорию для фильтрации."
                 ++ sentiment_suffix))
  else if is_intent (Some intent) CAR_TYPES then
    categories <-
      random_sample all_categories (Nat.min 3 (length (cars cfg))) ;;
    cars_ <-
      random_sample (dict_keys (cars cfg)) (Nat.min 2 (length (cars cfg))) ;;
    let answer :=
      "У нас есть " ++ join ", " (set_iter ext categories)
      ++ " и модели вроде " ++ join ", " cars_ ++ ". Что интересно?"
      ++ sentiment_suffix in
    _ <- modify_ud (set_current_car None) ;;
    finish answer
  else if is_intent (Some intent) COMPARE_CARS then
    car1 <- random_choice (dict_keys (cars cfg)) ;;
    car2 <-
      random_choice
        (List.filter (fun c => negb (String.eqb c car1))
           (dict_keys (cars cfg))) ;;
    let answer :=
      str_replace "[car2]" car2 (str_replace "[car1]" car1 answer) in
    _ <- modify_ud (set_current_car (Some car1)) ;;
    finish (answer ++ " Что интересует: " ++ car1 ++ " или " ++ car2 ++ "?"
            ++ sentiment_suffix)
  else if is_intent (Some intent) YES then
    if is_intent last_intent HELLO then
      categories <-
        random_sample all_categories (Nat.min 3 (length (cars cfg))) ;;
      finish ("Отлично! У нас есть " ++ join ", " (set_iter ext categories)
              ++ ". Что хотите узнать?" ++ sentiment_suffix)
    else if intent_among last_intent
              [CAR_PRICE; CAR_INFO; CAR_AVAILABILITY; BOOK_TEST_DRIVE] then
      if truthy car_name then
        car_data <- cars_item car_name ;;
        finish ("Цена на " ++ py_str car_name ++ " — "
                ++ pretty (cd_price car_data)
                ++ " рублей. Что ещё интересует?" ++ sentiment_suffix)
      else
        finish ("Назови машину, чтобы я рассказал подробнее!"
                ++ sentiment_suffix)
    else if is_intent last_intent CAR_TYPES then
      cars_ <-
        random_sample (dict_keys (cars cfg))
          (Nat.min 2 (length (cars cfg))) ;;
      finish ("У нас есть " ++ join ", " cars_
              ++ ". Назови одну, чтобы узнать больше!" ++ sentiment_suffix)
    else if bool_decide (last_intent = Some "offtopic") then
      finish ("Хорошо, давай продолжим! Хочешь узнать про авто?"
              ++ sentiment_suffix)
    else
      finish ("Хорошо, что интересует? Модели, цены или тест-драйв?"
              ++ sentiment_suffix)
  else if is_intent (Some intent) NO then
    _ <- modify_ud (set_current_car None) ;;
    _ <- modify_ud (set_state (BotState_value NONE)) ;;
    finish ("Хорошо, какую машину обсудим теперь?" ++ sentiment_suffix)
  else finish answer
  end
  end.

Definition generate_answer (replica : string) : M (option string) :=
  let replica_lemmatized := lemmatize_phrase ext replica in
  if negb (str_truthy replica_lemmatized)
     || match answers ext with [] => true | _ :: _ => false end
  then ret None
  else if negb (is_meaningful_text ext replica) then ret None
  else
    let similarities := cosine_similarity ext replica_lemmatized in
    best_idx <- argmax similarities ;;
    best <- list_item similarities best_idx ;;
    if Q_lt (dialogues_similarity cfg) best then
      answer <- list_item (answers ext) best_idx ;;
      let answer :=
        answer ++ suffix replica " Рад, что ты в хорошем настроении! 😊"
          " Кажется, ты не в духе. Может, новый авто поднимет настроение? 😊" in
      r <- random_random ;;
      answer <-
        (if Q_lt r (3 # 10) then
           ad_car <- random_choice (dict_keys (cars cfg)) ;;
           ret (answer ++ " Кстати, у нас есть " ++ ad_car
                ++ " — отличный выбор!")
         else ret answer) ;;
      _ <- modify_ud (set_last_intent (Some "offtopic")) ;;
      ret (Some answer)
    else ret None.

Definition get_failure_phrase (replica : string) : M string :=
  car_name <- random_choice (dict_keys (cars cfg)) ;;
  phrase <- random_choice (failure_phrases cfg) ;;
  let answer := str_replace "[car_name]" car_name phrase in
  ret (answer ++ suffix replica
         " Ты в отличном настроении, давай найдем машину! 😊"
         " Не переживай, подберем авто для тебя! 😊").

(** The part shared by [_process_none_state] and [_process_waiting_for_car]:
    a vehicle was named in the utterance. *)
Definition take_named_car (car_name : option string) (replica : string)
    (positive negative : string) : M string :=
  _ <- modify_ud (set_current_car car_name) ;;
  _ <- modify_ud (set_state (BotState_value WAITING_FOR_INTENT)) ;;
  ret ("Вы имеете в виду " ++ py_str car_name
       ++ "? Хотите узнать цену, характеристики или тест-драйв?"
       ++ suffix replica positive negative).

(** The part shared by the same two methods: a vehicle is drawn from the
    category of the utterance. *)
Definition offer_from_category (car_category : option string)
    (suitable_cars : list string) (replica : string)
    (positive negative : string) : M string :=
  car_name <- random_choice suitable_cars ;;
  _ <- modify_ud (set_current_car (Some car_name)) ;;
  _ <- modify_ud (set_state (BotState_value WAITING_FOR_INTENT)) ;;
  ret ("Из " ++ py_str car_category ++ " есть " ++ car_name
       ++ ". Хотите узнать цену, характеристики или тест-драйв?"
       ++ suffix replica positive negative).

Definition _process_none_state (replica : string) : M (option string) :=
  let car_name := extract_car_name ext replica in
  if truthy car_name then
    r <- take_named_car car_name replica
           " Рад, что ты в хорошем настроении! 😊"
           " Кажется, ты не в духе. Давай найдем авто? 😊" ;;
    ret (Some r)
  else
    let car_category := extract_car_category ext replica in
    if truthy car_category then
      match cars_of_category (the_str car_category) with
      | [] =>
          ret (Some ("У нас нет машин в категории " ++ py_str car_category
                     ++ ". Попробуйте другую категорию!"
                     ++ suffix replica
                          " В хорошем настроении? Давай попробуем другую категорию! 😊"
                          " Не переживай, попробуем другую категорию! 😊"))
      | suitable_cars =>
          r <- offer_from_category car_category suitable_cars replica
                 " Ты в отличном настроении, давай продолжим! 😊"
                 " Не грусти, найдем машину! 😊" ;;
          ret (Some r)
      end
    else
      let intent := classify_intent replica in
      if truthy intent then get_answer_by_intent (the_str intent) replica
      else
        generated <- generate_answer replica ;;
        if truthy generated then ret generated
        else r <- get_failure_phrase replica ;; ret (Some r).

Definition _process_waiting_for_car (replica : string) : M string :=
  let car_name := extract_car_name ext replica in
  if truthy car_name then
    take_named_car car_name replica " Отличное настроение, да? 😊"
      " Давай найдем что-то подходящее! 😊"
  else
    let car_category := extract_car_category ext replica in
    let reprompt :=
      ret ("Пожалуйста, уточните название машины или категорию."
           ++ suffix replica " Отлично, давай продолжим! 😊"
                " Не переживай, уточним! 😊") in
    if truthy car_category then
      match cars_of_category (the_str car_category) with
      | [] => reprompt
      | suitable_cars =>
          offer_from_category car_category suitable_cars replica
            " В хорошем расположении духа? 😊" " Не грусти, найдем авто! 😊"
      end
    else reprompt.

(** The branch [if intent == Intent.YES.value:] of
    [_process_waiting_for_intent]. It reads [last_intent] and
    [sentiment_suffix], which the method never binds and the module does
    not define. The result is the value of a [return] reached inside the
    branch, [None] when control falls out of it. *)
Definition waiting_for_intent_yes (car_name : option string)
    (replica : string) : M (option string) :=
  last_intent <- unbound (A := option string) "last_intent" ;;
  if is_intent last_intent HELLO then
    categories <-
      random_sample all_categories (Nat.min 3 (length (cars cfg))) ;;
    sentiment_suffix <- unbound (A := string) "sentiment_suffix" ;;
    let answer :=
      "Отлично! У нас есть " ++ join ", " (set_iter ext categories)
      ++ ". Что хотите узнать?" ++ sentiment_suffix in
    ret None
  else if intent_among last_intent
            [CAR_PRICE; CAR_INFO; CAR_AVAILABILITY; BOOK_TEST_DRIVE] then
    if truthy car_name then
      _ <- modify_ud (set_state (BotState_value NONE)) ;;
      car_data <- cars_item car_name ;;
      ret (Some ("Цена на " ++ py_str car_name ++ " — "
                 ++ pretty (cd_price car_data)
                 ++ " рублей. Что ещё интересует?"
                 ++ suffix replica " Рад твоему настроению! 😊"
                      " Давай поднимем настроение! 😊"))
    else ret None
  else ret None.

Definition _process_waiting_for_intent (replica : string) : M string :=
  let car_name := extract_car_name ext replica in
  car_name <-
    (if truthy car_name && in_cars car_name then
       _ <- modify_ud (set_current_car car_name) ;;
       ret car_name
     else
       u <- get_ud ;;
       ret (get_or "машину" (current_car u))) ;;
  let intent := classify_intent replica in
  if intent_among intent car_intents then
    _ <- modify_ud (set_state (BotState_value NONE)) ;;
    _get_car_response (the_str intent) car_name replica
  else
    returned <-
      (if is_intent intent YES then waiting_for_intent_yes car_name replica
       else ret None) ;;
    match returned with
    | Some answer => ret answer
    | None =>
        if is_intent intent NO then
          _ <- modify_ud (set_current_car None) ;;
          _ <- modify_ud (set_state (BotState_value NONE)) ;;
          ret ("Хорошо, какую машину обсудим теперь?"
               ++ suffix replica " Отлично, продолжаем! 😊"
                    " Не грусти, найдем другое! 😊")
        else
          ret ("Что хотите узнать про " ++ py_str car_name
               ++ ": цену, характеристики или тест-драйв?"
               ++ suffix replica " В хорошем настроении? 😊"
                    " Не переживай, найдем что-то подходящее! 😊")
    end.

(** The first argument of the last [stats.add] of [process]. *)
Definition outcome_of (replica : string) (answer : option string)
    : M ResponseType :=
  if truthy (classify_intent replica) then ret INTENT
  else
    found <- py_in "dialogues.txt" answer ;;
    ret (if found then GENERATE else FAILURE).

Definition process (replica : string) : M (option string) :=
  _ <- Stats_new ;;
  if negb (is_meaningful_text ext replica) then
    answer <- get_failure_phrase replica ;;
    _ <- _update_context replica (Some answer) None ;;
    _ <- Stats_add (ResponseType_value FAILURE) ;;
    ret (Some answer)
  else
    let price := extract_price ext replica in
    let car_category := extract_car_category ext replica in
    if int_truthy price then
      answer <- _handle_filter_cars price car_category ;;
      _ <- _update_context replica (Some answer)
             (Some (Intent_value FILTER_CARS)) ;;
      _ <- Stats_add (ResponseType_value INTENT) ;;
      ret (Some answer)
    else
      u <- get_ud ;;
      let state := default (BotState_value NONE) (state u) in
      answer <-
        (if String.eqb state (BotState_value WAITING_FOR_CAR) then
           r <- _process_waiting_for_car replica ;; ret (Some r)
         else if String.eqb state (BotState_value WAITING_FOR_INTENT) then
           r <- _process_waiting_for_intent replica ;; ret (Some r)
         else _process_none_state replica) ;;
      _ <- _update_context replica answer None ;;
      kind <- outcome_of replica answer ;;
      _ <- Stats_add (ResponseType_value kind) ;;
      ret answer.

(** The dispatch of [process] on ['state'], as a computation of its own. *)
Definition dispatch (replica : string) : M (option string) :=
  u <- get_ud ;;
  let state := default (BotState_value NONE) (state u) in
  if String.eqb state (BotState_value WAITING_FOR_CAR) then
    r <- _process_waiting_for_car replica ;; ret (Some r)
  else if String.eqb state (BotState_value WAITING_FOR_INTENT) then
    r <- _process_waiting_for_intent replica ;; ret (Some r)
  else _process_none_state replica.

(** The replies of [_handle_filter_cars] that list or report instead of
    recommending. *)
Definition listing (price : option Z) (car_category : option string)
    (suitable_cars : list string) : string :=
  match suitable_cars with
  | [] =>
      "Извините, нет машин для "
      ++ join ", "
           (app
              (if int_truthy price
               then ["до " ++ py_int_str price ++ " рублей"] else [])
              (if truthy car_category
               then ["в категории " ++ the_str car_category] else []))
      ++ "."
  | _ :: _ => "Вот что нашлось: " ++ join ", " suitable_cars ++ "."
  end.

End Bot.

(** ** A small catalog and deterministic collaborators

    The catalog of the scenarios of the specification: vehicle A (price
    1000000, category sedan) and vehicle B (price 2000000, category suv),
    with collaborators simple enough to be run. *)

Definition demo_cfg : Config :=
  {| cars :=
       [("A", {| cd_price := 1000000; cd_description := None;
                 cd_categories := Some ["sedan"] |});
        ("B", {| cd_price := 2000000; cd_description := None;
                 cd_categories := Some ["suv"] |})];
     intents :=
       [("hello", {| id_examples := Some ["привет"];
                     id_responses := ["Здравствуйте!"] |});
        ("yes", {| id_examples := Some ["да"];
                   id_responses := ["Хорошо."] |});
        ("car_price", {| id_examples := Some ["сколько стоит"];
                         id_responses := ["[car_name] стоит [price] рублей."] |})];
     failure_phrases := ["Не понял. Может, посмотрите [car_name]?"];
     intent_score := (7 # 10)%Q;
     dialogues_similarity := (1 # 5)%Q;
     history_limit := 3 |}.

Definition demo_ext : Externals :=
  {| is_meaningful_text := fun s => str_truthy s && negb (String.eqb s "...");
     extract_car_name := fun s =>
       if str_in "A" s then Some "A"
       else if str_in "B" s then Some "B" else None;
     extract_car_category := fun s =>
       if str_in "седан" s then Some "sedan"
       else if str_in "кроссовер" s then Some "suv" else None;
     extract_price := fun s =>
       if str_in "1500000" s then Some 1500000 else None;
     lemmatize_phrase := fun s => s;
     analyze_sentiment := fun _ => "neutral";
     clf_predict := fun _ => "hello";
     cosine_similarity := fun s =>
       if String.eqb s "как дела" then [(1 # 10)%Q; (9 # 10)%Q]
       else [0%Q; 0%Q];
     answers := ["Добрый день!"; "Отлично, спасибо!"];
     fuzz_ratio := fun a b => if String.eqb a b then 100%Q else 0%Q;
     set_iter := fun l => l |}.

(** A session that has not spoken yet, with a given random source. *)
Definition fresh (t : list N) : St := {| ud := empty_user_data; tape := t |}.

(** A session whose five fields are set, in a given state. *)
Definition session (st : BotState) (car intent : option string)
    (h : list string) (t : list N) : St :=
  {| ud := {| state := Some (BotState_value st); current_car := Some car;
              last_bot_response := Some None; last_intent := Some intent;
              history := Some h; stats := None |};
     tape := t |}.

(** ** Predicates of the specification *)

(** What the filter promises about a vehicle it names: it is an entry of
    the catalog within the price ceiling and of the category asked for,
    and no utterance of the history yields its name. *)
Definition admissible (cfg : Config) (ext : Externals) (price : option Z)
    (car_category : option string) (u : UserData) (c : string) : Prop :=
  exists data,
    In (c, data) (cars cfg)
    /\ (forall p, price = Some p -> p <> 0 -> cd_price data <= p)
    /\ (forall k, car_category = Some k -> k <> EmptyString ->
        In k (categories_of data))
    /\ (forall h, In h (default [] (history u)) ->
        extract_car_name ext h <> Some c).

(** [i] is the first index of a greatest item [x] of [l]. *)
Definition is_argmax (l : list Q) (i : nat) (x : Q) : Prop :=
  l !! i = Some x
  /\ (forall y, In y l -> (y <= x)%Q)
  /\ (forall j y, (j < i)%nat -> l !! j = Some y -> (y < x)%Q).

(** The retrieval fallback accepts an utterance: its lemmatization is not
    empty, it is meaningful, there are stored answers, and the greatest
    similarity to the corpus is above the threshold. *)
Definition retrievable (cfg : Config) (ext : Externals) (replica : string)
    : Prop :=
  str_truthy (lemmatize_phrase ext replica) = true
  /\ is_meaningful_text ext replica = true
  /\ answers ext <> []
  /\ exists i x,
       is_argmax (cosine_similarity ext (lemmatize_phrase ext replica)) i x
       /\ (dialogues_similarity cfg < x)%Q.

(** The examples of an intent after lemmatization, without the empty
    ones. *)
Definition lemmatized_examples (ext : Externals) (data : IntentData)
    : list string :=
  List.filter str_truthy
    (map (lemmatize_phrase ext) (default [] (id_examples data))).

(** The best approximate match of a lemmatized utterance over the intents
    that have examples: the first intent of greatest score, with its score
    as a fraction of 1. No threshold is involved. *)
Definition best_match (cfg : Config) (ext : Externals)
    (replica_lemmatized : string) : option (string * Q) :=
  fold_left
    (fun best entry =>
       match extractOne (fuzz_ratio ext) replica_lemmatized
               (lemmatized_examples ext (snd entry)) with
       | None => best
       | Some (_, score) =>
           match best with
           | None => Some (fst entry, (score / 100)%Q)
           | Some (_, b) =>
               if Q_lt b (score / 100) then Some (fst entry, (score / 100)%Q)
               else best
           end
       end)
    (intents cfg) None.

(** The classifier in the words of the specification, step (d): the best
    match when its score is at or above the threshold, otherwise the
    prediction of the model when the confidence of the model clears the
    same threshold, otherwise none. [confidence] is the confidence of the
    model in its prediction for a lemmatized utterance. *)
Definition classify_intent_spec (cfg : Config) (ext : Externals)
    (confidence : string -> Q) (replica : string) : option string :=
  let replica_lemmatized := lemmatize_phrase ext replica in
  if negb (str_truthy replica_lemmatized) then None
  else
    let by_model :=
      if Q_le (intent_score cfg) (confidence replica_lemmatized)
      then Some (clf_predict ext replica_lemmatized) else None in
    match best_match cfg ext replica_lemmatized with
    | Some (k, score) =>
        if Q_le (intent_score cfg) score then Some k else by_model
    | None => by_model
    end.

(** What the loop of [classify_intent] holds in [best_score] and
    [best_intent] when the best match so far, threshold apart, is [best]. *)
Definition loop_state (cfg : Config) (best : option (string * Q))
    : Q * option string :=
  match best with
  | Some (k, score) =>
      if Q_le (intent_score cfg) score then (score, Some k) else (0%Q, None)
  | None => (0%Q, None)
  end.

(** A computation keeps an invariant [I] of the session dictionary, also
    when it raises, and a value it returns satisfies [R]. *)
Definition keeps (I : UserData -> Prop) {A} (m : M A) (R : A -> Prop) : Prop :=
  forall s,
    I (ud s) ->
    I (ud (snd (m s)))
    /\ match fst (m s) with
       | Ok a => R a
       | Raise _ => True
       end.

(** Any value. *)
Definition any {A} : A -> Prop := fun _ => True.

(** A value of ['current_car'] is [None] or a key of the catalog. *)
Definition in_catalog (cfg : Config) (v : option string) : Prop :=
  forall c, v = Some c -> In c (dict_keys (cars cfg)).

(** The invariant of ['current_car']: when the key is present, its value is
    [None] or a key of the catalog. *)
Definition current_car_ok (cfg : Config) (u : UserData) : Prop :=
  forall v, current_car u = Some v -> in_catalog cfg v.

(** The session after a sequence of turns; a turn that raises leaves the
    dictionary as it was when the exception left [process]. *)
Definition turns (cfg : Config) (ext : Externals) (texts : list string)
    (s : St) : St :=
  fold_left (fun s replica => snd (process cfg ext replica s)) texts s.

(** A triple on the session dictionary: from [P], a return with value [a]
    leads to [Q a] and a raise leads to [E]. *)
Definition hoare (P : UserData -> Prop) {A} (m : M A)
    (Q : A -> UserData -> Prop) (E : UserData -> Prop) : Prop :=
  forall s,
    P (ud s) ->
    match m s with
    | (Ok a, s') => Q a (ud s')
    | (Raise _, s') => E (ud s')
    end.

(** The invariant of ['state']: when the key is present, its value is the
    value of a [BotState]. *)
Definition state_ok (u : UserData) : Prop :=
  forall v, state u = Some v -> exists st, v = BotState_value st.

(** ** Counting over a conversation *)

(** The number of turns of a conversation that return. *)
Fixpoint returned (cfg : Config) (ext : Externals) (texts : list string)
    (s : St) : nat :=
  match texts with
  | [] => O
  | replica :: texts' =>
      (match fst (process cfg ext replica s) with
       | Ok _ => 1
       | Raise _ => 0
       end
       + returned cfg ext texts' (snd (process cfg ext replica s)))%nat
  end.

(** The sum of the three counters. *)
Definition total_count (u : UserData) : nat :=
  (counter INTENT u + counter GENERATE u + counter FAILURE u)%nat.

(** ** Telegram handlers *)

(** What a handler sends to the chat: [reply_text] with a text (or [None])
    or [reply_voice] with the file of a synthesized answer. *)
Inductive Sent :=
  | Text (text : option string)
  | Voice (file : string).

(** [start_command]: the session is written before the message is sent. *)
Definition start_command (start_message : string) : M Sent :=
  let answer := start_message in
  _ <- modify_ud (set_last_bot_response (Some answer)) ;;
  _ <- modify_ud (set_last_intent (Some (Intent_value HELLO))) ;;
  ret (Text (Some answer)).









(** ** Catalogs and transports to run the handlers on *)

(** Vehicle A alone, an intent without templates and the intent that
    compares two vehicles. *)
Definition demo_single_cfg : Config :=
  {| cars :=
       [("A", {| cd_price := 1000000; cd_description := None;
                 cd_categories := Some ["sedan"] |})];
     intents :=
       [("bye", {| id_examples := Some ["пока"]; id_responses := [] |});
        ("compare_cars", {| id_examples := Some ["сравни"];
                            id_responses := ["[car1] или [car2]?"] |})];
     failure_phrases := failure_phrases demo_cfg;
     intent_score := intent_score demo_cfg;
     dialogues_similarity := dialogues_similarity demo_cfg;
     history_limit := history_limit demo_cfg |}.

(** The small catalog with a history limit of 0. *)
Definition demo_unbounded_cfg : Config :=
  {| cars := cars demo_cfg;
     intents := intents demo_cfg;
     failure_phrases := failure_phrases demo_cfg;
     intent_score := intent_score demo_cfg;
     dialogues_similarity := dialogues_similarity demo_cfg;
     history_limit := 0 |}.



(** * Properties *)

(** ** Running a computation *)

Lemma bind_ok {A B} (m : M A) (k : A -> M B) s a s' :
  m s = (Ok a, s') -> bind m k s = k a s'.
Proof. intros H. unfold bind. now rewrite H. Qed.

Lemma bind_raise {A B} (m : M A) (k : A -> M B) s e s' :
  m s = (Raise e, s') -> bind m k s = (Raise e, s').
Proof. intros H. unfold bind. now rewrite H. Qed.

(** A draw changes the tape only. *)
Lemma draw_ud s : exists n s', draw s = (Ok n, s') /\ ud s' = ud s.
Proof.
  unfold draw. destruct (tape s) as [|n t]; eauto.
Qed.

Lemma nth_In_mod {A} (l : list A) (x0 : A) (n : N) :
  l <> [] -> In (nth (N.to_nat (n mod N.of_nat (length l))) l x0) l.
Proof.
  intros Hl. apply nth_In.
  assert (0 < length l)%nat by (destruct l; simpl; [congruence | lia]).
  assert (n mod N.of_nat (length l) < N.of_nat (length l))%N
    by (apply N.mod_lt; lia).
  lia.
Qed.

(** [random.choice] raises on the empty list and otherwise yields one of
    the items, leaving the session as it was. *)
Lemma random_choice_cases {A} (l : list A) s :
  (l = [] /\ random_choice l s = (Raise IndexError, s))
  \/ (exists x s', random_choice l s = (Ok x, s') /\ In x l /\ ud s' = ud s).
Proof.
  destruct l as [|x0 l]; [left; auto | right].
  unfold random_choice.
  destruct (draw_ud s) as (n & s' & Hd & Hu).
  exists (nth (N.to_nat (n mod N.of_nat (length (x0 :: l)))) (x0 :: l) x0), s'.
  split; [| split; [apply nth_In_mod; congruence | exact Hu]].
  now rewrite (bind_ok _ _ _ _ _ Hd).
Qed.

(** ** Counters *)

Lemma ResponseType_value_inj r1 r2 :
  ResponseType_value r1 = ResponseType_value r2 -> r1 = r2.
Proof. destruct r1, r2; simpl; congruence. Qed.

(** [stats.add] adds one to the counter it names and to no other. *)
Lemma counter_Stats_add (k r : ResponseType) s :
  counter r (ud (snd (Stats_add (ResponseType_value k) s)))
  = if bool_decide (r = k) then S (counter r (ud s)) else counter r (ud s).
Proof.
  unfold Stats_add, modify_ud, counter. simpl.
  case_bool_decide as Hrk.
  - subst r. now rewrite lookup_insert_eq.
  - rewrite lookup_insert_ne; [reflexivity |].
    intros Heq. apply Hrk. symmetry. now apply ResponseType_value_inj.
Qed.

Lemma counter_Stats_new r s :
  counter r (ud (snd (Stats_new s))) = counter r (ud s).
Proof.
  unfold Stats_new, modify_ud, counter. simpl.
  destruct (stats (ud s)) eqn:E; simpl; [now rewrite E | reflexivity].
Qed.

Lemma counter_update_context cfg replica answer intent r s :
  counter r (ud (snd (_update_context cfg replica answer intent s)))
  = counter r (ud s).
Proof.
  unfold _update_context, modify_ud, counter. simpl.
  destruct (truthy intent); reflexivity.
Qed.

(** ** The three ways through [process] *)

Section Paths.

Variable cfg : Config.
Variable ext : Externals.

Lemma process_not_meaningful replica s :
  is_meaningful_text ext replica = false ->
  process cfg ext replica s
  = (answer <- get_failure_phrase cfg ext replica ;;
     _ <- _update_context cfg replica (Some answer) None ;;
     _ <- Stats_add (ResponseType_value FAILURE) ;;
     ret (Some answer)) (snd (Stats_new s)).
Proof.
  intros Hm. unfold process.
  rewrite (bind_ok _ _ s tt (snd (Stats_new s))) by reflexivity.
  now rewrite Hm.
Qed.

Lemma process_price replica s :
  is_meaningful_text ext replica = true ->
  int_truthy (extract_price ext replica) = true ->
  process cfg ext replica s
  = (answer <- _handle_filter_cars cfg ext (extract_price ext replica)
                 (extract_car_category ext replica) ;;
     _ <- _update_context cfg replica (Some answer)
            (Some (Intent_value FILTER_CARS)) ;;
     _ <- Stats_add (ResponseType_value INTENT) ;;
     ret (Some answer)) (snd (Stats_new s)).
Proof.
  intros Hm Hp. unfold process.
  rewrite (bind_ok _ _ s tt (snd (Stats_new s))) by reflexivity.
  now rewrite Hm, Hp.
Qed.

Lemma process_dispatch replica s :
  is_meaningful_text ext replica = true ->
  int_truthy (extract_price ext replica) = false ->
  process cfg ext replica s
  = (answer <- dispatch cfg ext replica ;;
     _ <- _update_context cfg replica answer None ;;
     kind <- outcome_of cfg ext replica answer ;;
     _ <- Stats_add (ResponseType_value kind) ;;
     ret answer) (snd (Stats_new s)).
Proof.
  intros Hm Hp. unfold process.
  rewrite (bind_ok _ _ s tt (snd (Stats_new s))) by reflexivity.
  rewrite Hm, Hp. reflexivity.
Qed.

(** The failure phrase is drawn without touching the session. *)
Lemma get_failure_phrase_ud replica s :
  ud (snd (get_failure_phrase cfg ext replica s)) = ud s.
Proof.
  unfold get_failure_phrase.
  destruct (random_choice_cases (dict_keys (cars cfg)) s)
    as [[_ Hr] | (c & s1 & Hr & _ & Hu1)].
  { now rewrite (bind_raise _ _ _ _ _ Hr). }
  rewrite (bind_ok _ _ _ _ _ Hr).
  destruct (random_choice_cases (failure_phrases cfg) s1)
    as [[_ Hp] | (ph & s2 & Hp & _ & Hu2)].
  { now rewrite (bind_raise _ _ _ _ _ Hp). }
  rewrite (bind_ok _ _ _ _ _ Hp). simpl. congruence.
Qed.

End Paths.

(** ** The failure path *)

(** C10. When the five fields of the session are set and the utterance is
    not meaningful, [process] leaves ['state'], ['current_car'] and
    ['last_intent'] as they were. If it returns, the reply is the failure
    phrase, ['history'] is the old one with the utterance appended and
    trimmed, ['last_bot_response'] is the reply, the failure counter has
    grown by one and the two other counters are unchanged; if the failure
    phrase cannot be drawn, nothing but the creation of the counters has
    happened. *)
Theorem process_not_meaningful_frame cfg ext replica s :
  is_meaningful_text ext replica = false ->
  is_Some (state (ud s)) ->
  is_Some (current_car (ud s)) ->
  is_Some (last_bot_response (ud s)) ->
  is_Some (last_intent (ud s)) ->
  is_Some (history (ud s)) ->
  let r := process cfg ext replica s in
  let u' := ud (snd r) in
  state u' = state (ud s)
  /\ current_car u' = current_car (ud s)
  /\ last_intent u' = last_intent (ud s)
  /\ match fst r with
     | Ok reply =>
         fst (get_failure_phrase cfg ext replica (snd (Stats_new s)))
           = Ok (the_str reply)
         /\ reply = Some (the_str reply)
         /\ history u'
            = Some (slice_from (- history_limit cfg)
                      (app (default [] (history (ud s))) [replica]))
         /\ last_bot_response u' = Some reply
         /\ counter FAILURE u' = S (counter FAILURE (ud s))
         /\ counter INTENT u' = counter INTENT (ud s)
         /\ counter GENERATE u' = counter GENERATE (ud s)
     | Raise _ => u' = ud (snd (Stats_new s))
     end.
Proof.
  intros Hm [st Hst] [car Hcar] [lbr Hlbr] [li Hli] [h Hh] r u'.
  subst r u'. rewrite (process_not_meaningful cfg ext replica s Hm).
  set (s0 := snd (Stats_new s)).
  assert (Hu0 : state (ud s0) = Some st /\ current_car (ud s0) = Some car
                /\ last_bot_response (ud s0) = Some lbr
                /\ last_intent (ud s0) = Some li /\ history (ud s0) = Some h).
  { subst s0. unfold Stats_new, modify_ud. simpl.
    destruct (stats (ud s)); simpl; auto. }
  assert (Hc0 : forall k, counter k (ud s0) = counter k (ud s))
    by (intros k; apply counter_Stats_new).
  destruct Hu0 as (H1 & H2 & H3 & H4 & H5).
  pose proof (get_failure_phrase_ud cfg ext replica s0) as Hud.
  destruct (get_failure_phrase cfg ext replica s0) as [[answer | e] s1] eqn:Hg;
    cbn [snd] in Hud.
  - rewrite (bind_ok _ _ _ _ _ Hg).
    unfold bind, _update_context, Stats_add, modify_ud, ret. simpl.
    rewrite Hud, H1, H2, H4, H5, Hst, Hcar, Hli, Hh. simpl.
    repeat split; try reflexivity.
    + unfold counter. simpl. rewrite lookup_insert_eq. simpl.
      f_equal. apply (Hc0 FAILURE).
    + unfold counter. simpl. rewrite lookup_insert_ne by discriminate.
      apply (Hc0 INTENT).
    + unfold counter. simpl. rewrite lookup_insert_ne by discriminate.
      apply (Hc0 GENERATE).
  - rewrite (bind_raise _ _ _ _ _ Hg). simpl.
    rewrite Hud, H1, H2, H4, Hst, Hcar, Hli. auto.
Qed.

(** The failure path on the small catalog: the utterance "..." in a session
    that waits for an intent about vehicle A. *)
Lemma process_not_meaningful_frame_witness :
  is_meaningful_text demo_ext "..." = false
  /\ state (ud (snd (process demo_cfg demo_ext "..."
                       (session WAITING_FOR_INTENT (Some "A") (Some "hello")
                          ["привет"] [1%N; 0%N]))))
     = Some "WAITING_FOR_INTENT"
  /\ current_car (ud (snd (process demo_cfg demo_ext "..."
                             (session WAITING_FOR_INTENT (Some "A")
                                (Some "hello") ["привет"] [1%N; 0%N]))))
     = Some (Some "A")
  /\ last_intent (ud (snd (process demo_cfg demo_ext "..."
                             (session WAITING_FOR_INTENT (Some "A")
                                (Some "hello") ["привет"] [1%N; 0%N]))))
     = Some (Some "hello")
  /\ fst (process demo_cfg demo_ext "..."
            (session WAITING_FOR_INTENT (Some "A") (Some "hello")
               ["привет"] [1%N; 0%N]))
     = Ok (Some "Не понял. Может, посмотрите B?").
Proof.
  split; [reflexivity |].
  pose proof (process_not_meaningful_frame demo_cfg demo_ext "..."
                (session WAITING_FOR_INTENT (Some "A") (Some "hello")
                   ["привет"] [1%N; 0%N])
                eq_refl (ex_intro _ _ eq_refl) (ex_intro _ _ eq_refl)
                (ex_intro _ _ eq_refl) (ex_intro _ _ eq_refl)
                (ex_intro _ _ eq_refl)) as H.
  cbv zeta in H. destruct H as (H1 & H2 & H3 & _).
  split; [exact H1 |]. split; [exact H2 |]. split; [exact H3 |].
  vm_compute. reflexivity.
Defined.

(** ** The vehicle filter *)

Section Filter.

Variable cfg : Config.
Variable ext : Externals.

Lemma list_in_In x l : list_in x l = true <-> In x l.
Proof.
  unfold list_in. rewrite existsb_exists. split.
  - intros (y & Hy & E). apply String.eqb_eq in E. now subst.
  - intros H. exists x. split; [exact H | apply String.eqb_refl].
Qed.

Lemma list_in_opt_false x l : list_in_opt x l = false -> ~ In x l.
Proof.
  unfold list_in_opt. intros H Hin.
  assert (existsb (fun y => bool_decide (x = y)) l = true) as E.
  { apply existsb_exists. exists x. split; [exact Hin |].
    now apply bool_decide_eq_true. }
  congruence.
Qed.

Lemma str_truthy_nonempty k : k <> EmptyString -> str_truthy k = true.
Proof. destruct k; [congruence | reflexivity]. Qed.

Lemma fits_sound price car_category data :
  fits price car_category data = true ->
  (forall p, price = Some p -> p <> 0 -> cd_price data <= p)
  /\ (forall k, car_category = Some k -> k <> EmptyString -> In k (categories_of data)).
Proof.
  unfold fits. intros H. apply andb_true_iff in H as [Hp Hc]. split.
  - intros p -> Hp0. simpl in Hp.
    destruct (Z.eqb_spec p 0) as [|_]; [contradiction |].
    simpl in Hp. lia.
  - intros k -> Hk. simpl in Hc.
    rewrite (str_truthy_nonempty k Hk) in Hc. simpl in Hc.
    now apply list_in_In.
Qed.

Lemma suitable_cars_admissible price car_category u c :
  In c (suitable_cars_of cfg ext price car_category u) ->
  admissible cfg ext price car_category u c.
Proof.
  unfold suitable_cars_of. intros H.
  apply List.filter_In in H as [H Hrecent].
  apply in_map_iff in H as ([c' data] & Hc & H). simpl in Hc. subst c'.
  apply List.filter_In in H as [Hin Hfits]. simpl in Hfits.
  destruct (fits_sound _ _ _ Hfits) as [Hp Hk].
  exists data. repeat split; auto.
  intros h Hh E.
  apply negb_true_iff, list_in_opt_false in Hrecent.
  apply Hrecent. rewrite <- E. now apply in_map.
Qed.

(** With a price or a category the filter lists or reports, and touches
    neither the session nor the random source. *)
Lemma handle_filter_cars_listing price car_category s :
  int_truthy price || truthy car_category = true ->
  _handle_filter_cars cfg ext price car_category s
  = (Ok (listing price car_category
           (suitable_cars_of cfg ext price car_category (ud s))), s).
Proof.
  intros H. unfold _handle_filter_cars, listing.
  rewrite (bind_ok _ _ s (ud s) s) by reflexivity.
  destruct (suitable_cars_of cfg ext price car_category (ud s)) as [|c l];
    [reflexivity |].
  apply orb_true_iff in H.
  destruct (int_truthy price), (truthy car_category);
    try reflexivity.
  destruct H; discriminate.
Qed.

(** C7. [_handle_filter_cars] never raises, and its reply is of one of
    three forms: the report that nothing matches, which names no vehicle;
    the list of all vehicles found; the recommendation of one vehicle.
    Every vehicle named is in the catalog, costs no more than the price
    ceiling (when one is given), has the category (when one is given), and
    is not the vehicle name extracted from any utterance of the session's
    ['history']. *)
Theorem handle_filter_cars_sound price car_category s :
  exists reply s',
    _handle_filter_cars cfg ext price car_category s = (Ok reply, s')
    /\ ((suitable_cars_of cfg ext price car_category (ud s) = []
         /\ reply = listing price car_category [])
        \/ (exists l, l <> []
            /\ reply = "Вот что нашлось: " ++ join ", " l ++ "."
            /\ Forall (admissible cfg ext price car_category (ud s)) l)
        \/ (exists c,
            reply = "Советую " ++ c
                    ++ "! Хотите узнать цену или характеристики?"
            /\ admissible cfg ext price car_category (ud s) c)).
Proof.
  destruct (int_truthy price || truthy car_category) eqn:Hexplicit.
  - exists (listing price car_category
              (suitable_cars_of cfg ext price car_category (ud s))), s.
    split; [now apply handle_filter_cars_listing |].
    pose proof (suitable_cars_admissible price car_category (ud s)) as Hadm.
    destruct (suitable_cars_of cfg ext price car_category (ud s)) as [|c l];
      [left; auto | right; left].
    exists (c :: l). split; [congruence |]. split; [reflexivity |].
    apply List.Forall_forall. exact Hadm.
  - apply orb_false_iff in Hexplicit as [Hp Hc].
    unfold _handle_filter_cars.
    rewrite (bind_ok _ _ s (ud s) s) by reflexivity.
    pose proof (suitable_cars_admissible price car_category (ud s)) as Hadm.
    destruct (suitable_cars_of cfg ext price car_category (ud s)) as [|c l]
      eqn:Hs.
    { exists (listing price car_category []), s. split; [| left; auto].
      unfold listing. now rewrite Hp, Hc. }
    rewrite Hp, Hc. cbn [negb andb].
    destruct (random_choice_cases (c :: l) s)
      as [[Hnil _] | (x & s1 & Hr & Hin & Hu)]; [discriminate |].
    rewrite (bind_ok _ _ _ _ _ Hr).
    eexists _, _. split; [reflexivity |].
    right; right. exists x. split; [reflexivity |]. now apply Hadm.
Qed.

End Filter.

(** ** A price in the utterance *)

Lemma suitable_cars_of_history cfg ext price car_category u1 u2 :
  history u1 = history u2 ->
  suitable_cars_of cfg ext price car_category u1
  = suitable_cars_of cfg ext price car_category u2.
Proof. intros H. unfold suitable_cars_of. now rewrite H. Qed.

Lemma Stats_new_fields s :
  let u0 := ud (snd (Stats_new s)) in
  state u0 = state (ud s) /\ current_car u0 = current_car (ud s)
  /\ last_bot_response u0 = last_bot_response (ud s)
  /\ last_intent u0 = last_intent (ud s) /\ history u0 = history (ud s)
  /\ tape (snd (Stats_new s)) = tape s.
Proof.
  unfold Stats_new, modify_ud. simpl.
  destruct (stats (ud s)); simpl; auto 10.
Qed.

(** C5. When the utterance is meaningful and a positive price is extracted
    from it, [process] returns the reply of [_handle_filter_cars] for that
    price and the category of the utterance, and counts the turn as INTENT
    and as nothing else. The dispatch on ['state'] is not run: the state and
    the vehicle of the session stay as they were, ['last_intent'] becomes
    "filter_cars", no random number is drawn, and the reply is the same
    whatever the state of the session. *)
Theorem price_preempts_dispatch cfg ext replica p s :
  is_meaningful_text ext replica = true ->
  extract_price ext replica = Some p ->
  0 < p ->
  let car_category := extract_car_category ext replica in
  let s0 := snd (Stats_new s) in
  let r := process cfg ext replica s in
  let u' := ud (snd r) in
  exists answer,
    _handle_filter_cars cfg ext (Some p) car_category s0 = (Ok answer, s0)
    /\ fst r = Ok (Some answer)
    /\ counter INTENT u' = S (counter INTENT (ud s))
    /\ counter GENERATE u' = counter GENERATE (ud s)
    /\ counter FAILURE u' = counter FAILURE (ud s)
    /\ state u' = Some (default (BotState_value NONE) (state (ud s)))
    /\ current_car u' = Some (default None (current_car (ud s)))
    /\ last_intent u' = Some (Some (Intent_value FILTER_CARS))
    /\ tape (snd r) = tape s
    /\ forall st,
         fst (process cfg ext replica
                {| ud := set_state st (ud s); tape := tape s |})
         = Ok (Some answer).
Proof.
  intros Hm Hp Hpos car_category s0 r u'.
  assert (Hpt : int_truthy (extract_price ext replica) = true).
  { rewrite Hp. simpl. destruct (Z.eqb_spec p 0); [lia | reflexivity]. }
  assert (Hex : int_truthy (Some p) || truthy car_category = true)
    by (rewrite Hp in Hpt; now rewrite Hpt).
  exists (listing (Some p) car_category
            (suitable_cars_of cfg ext (Some p) car_category (ud s0))).
  split; [now apply handle_filter_cars_listing |].
  assert (Hrun : forall s1, process cfg ext replica s1
    = (Ok (Some (listing (Some p) car_category
                   (suitable_cars_of cfg ext (Some p) car_category
                      (ud (snd (Stats_new s1)))))),
       snd (Stats_add (ResponseType_value INTENT)
              (snd (_update_context cfg replica
                      (Some (listing (Some p) car_category
                               (suitable_cars_of cfg ext (Some p)
                                  car_category (ud (snd (Stats_new s1))))))
                      (Some (Intent_value FILTER_CARS))
                      (snd (Stats_new s1))))))).
  { intros s1. rewrite (process_price cfg ext replica s1 Hm Hpt), Hp.
    fold car_category.
    rewrite (bind_ok _ _ _ _ _
               (handle_filter_cars_listing cfg ext (Some p) car_category
                  (snd (Stats_new s1)) Hex)).
    reflexivity. }
  destruct (Stats_new_fields s) as (F1 & F2 & F3 & F4 & F5 & F6).
  assert (Hc0 : forall k, counter k (ud s0) = counter k (ud s))
    by (intros k; apply counter_Stats_new).
  subst r u'. rewrite (Hrun s). fold s0 in F1, F2, F3, F4, F5, F6 |- *.
  clearbody s0. cbn [fst snd].
  split; [reflexivity |].
  rewrite !counter_Stats_add, !counter_update_context, !Hc0.
  repeat (split; [reflexivity |]).
  unfold Stats_add, _update_context, modify_ud. simpl.
  rewrite F1, F2, F6.
  repeat (split; [reflexivity |]).
  intros st. rewrite (Hrun {| ud := set_state st (ud s); tape := tape s |}).
  cbn [fst]. do 3 f_equal.
  apply suitable_cars_of_history.
  destruct (Stats_new_fields {| ud := set_state st (ud s); tape := tape s |})
    as (_ & _ & _ & _ & G5 & _).
  rewrite G5. simpl. now rewrite F5.
Qed.

(** The price of "машины до 1500000" preempts the dispatch of a session
    that waits for a vehicle. *)
Lemma price_preempts_dispatch_witness :
  is_meaningful_text demo_ext "машины до 1500000" = true
  /\ extract_price demo_ext "машины до 1500000" = Some 1500000
  /\ 0 < 1500000
  /\ exists answer,
       fst (process demo_cfg demo_ext "машины до 1500000"
              (session WAITING_FOR_CAR None None [] []))
       = Ok (Some answer)
       /\ forall st,
            fst (process demo_cfg demo_ext "машины до 1500000"
                   {| ud := set_state st
                              (ud (session WAITING_FOR_CAR None None [] []));
                      tape := [] |})
            = Ok (Some answer).
Proof.
  split; [reflexivity |]. split; [reflexivity |]. split; [reflexivity |].
  destruct (price_preempts_dispatch demo_cfg demo_ext "машины до 1500000"
              1500000 (session WAITING_FOR_CAR None None [] [])
              eq_refl eq_refl eq_refl)
    as (answer & _ & H & _ & _ & _ & _ & _ & _ & _ & Hst).
  exists answer. split; [exact H | exact Hst].
Defined.

(** ** The scenario of the price ceiling *)

(** C3, as the code behaves. In a fresh session, with the catalog of
    vehicle A (1000000, sedan) and vehicle B (2000000, suv), a meaningful
    utterance from which the price 1500000 and no category are extracted
    makes the filter select exactly A, and the reply lists A. The filter
    was given a price, so it does not recommend: afterwards ['state'] is
    NONE and ['current_car'] is [None], both set by [_update_context]. *)
Theorem scenario_price_ceiling cfg ext replica t :
  cars cfg = cars demo_cfg ->
  is_meaningful_text ext replica = true ->
  extract_price ext replica = Some 1500000 ->
  truthy (extract_car_category ext replica) = false ->
  let r := process cfg ext replica (fresh t) in
  suitable_cars_of cfg ext (Some 1500000) (extract_car_category ext replica)
    empty_user_data = ["A"]
  /\ fst r = Ok (Some "Вот что нашлось: A.")
  /\ state (ud (snd r)) = Some (BotState_value NONE)
  /\ current_car (ud (snd r)) = Some None
  /\ last_intent (ud (snd r)) = Some (Some (Intent_value FILTER_CARS))
  /\ counter INTENT (ud (snd r)) = 1%nat.
Proof.
  intros Hcars Hm Hp Hc r.
  assert (Hsel : forall u, history u = None ->
            suitable_cars_of cfg ext (Some 1500000)
              (extract_car_category ext replica) u = ["A"]).
  { intros u Hu. unfold suitable_cars_of, fits. rewrite Hcars, Hc, Hu.
    reflexivity. }
  split; [now apply Hsel |].
  assert (Hpt : int_truthy (extract_price ext replica) = true)
    by now rewrite Hp.
  subst r. rewrite (process_price cfg ext replica (fresh t) Hm Hpt), Hp.
  rewrite (bind_ok _ _ _ _ _
             (handle_filter_cars_listing cfg ext (Some 1500000)
                (extract_car_category ext replica)
                (snd (Stats_new (fresh t))) eq_refl)).
  rewrite (Hsel (ud (snd (Stats_new (fresh t)))) eq_refl).
  repeat (split; [reflexivity |]). reflexivity.
Qed.

(** The scenario itself, on the small catalog. *)
Lemma scenario_price_ceiling_witness :
  cars demo_cfg = cars demo_cfg
  /\ is_meaningful_text demo_ext "машины до 1500000" = true
  /\ extract_price demo_ext "машины до 1500000" = Some 1500000
  /\ truthy (extract_car_category demo_ext "машины до 1500000") = false
  /\ fst (process demo_cfg demo_ext "машины до 1500000" (fresh []))
     = Ok (Some "Вот что нашлось: A.")
  /\ state (ud (snd (process demo_cfg demo_ext "машины до 1500000"
                       (fresh []))))
     = Some "NONE".
Proof.
  do 4 (split; [reflexivity |]).
  destruct (scenario_price_ceiling demo_cfg demo_ext "машины до 1500000" []
              eq_refl eq_refl eq_refl eq_refl)
    as (_ & H1 & H2 & _).
  split; [exact H1 | exact H2].
Defined.

(** C3, as the specification states it, fails: after the turn the session
    does not wait for an intent and has no current vehicle. *)
Lemma scenario_price_ceiling_counterexample :
  fst (process demo_cfg demo_ext "машины до 1500000" (fresh []))
  = Ok (Some "Вот что нашлось: A.")
  /\ ~ (state (ud (snd (process demo_cfg demo_ext "машины до 1500000"
                          (fresh []))))
        = Some (BotState_value WAITING_FOR_INTENT)
        /\ current_car (ud (snd (process demo_cfg demo_ext
                                   "машины до 1500000" (fresh []))))
           = Some (Some "A")).
Proof.
  split; [vm_compute; reflexivity |].
  intros [H _]. vm_compute in H. discriminate H.
Qed.

(** ** The retrieval fallback *)

Lemma Q_lt_true a b : Q_lt a b = true <-> (a < b)%Q.
Proof.
  unfold Q_lt. rewrite negb_true_iff. split.
  - intros H. apply Qnot_le_lt. intros Hle.
    apply Qle_bool_iff in Hle. congruence.
  - intros H. destruct (Qle_bool b a) eqn:E; [| reflexivity].
    apply Qle_bool_iff in E. exfalso. exact (Qlt_not_le _ _ H E).
Qed.

Lemma Q_lt_false a b : Q_lt a b = false <-> (b <= a)%Q.
Proof.
  unfold Q_lt. rewrite negb_false_iff. apply Qle_bool_iff.
Qed.

Lemma Q_le_true a b : Q_le a b = true <-> (a <= b)%Q.
Proof. apply Qle_bool_iff. Qed.

Lemma Q_le_false a b : Q_le a b = false <-> (b < a)%Q.
Proof.
  unfold Q_le. split.
  - intros H. apply Qnot_le_lt. intros Hle.
    apply Qle_bool_iff in Hle. congruence.
  - intros H. destruct (Qle_bool a b) eqn:E; [| reflexivity].
    apply Qle_bool_iff in E. exfalso. exact (Qlt_not_le _ _ H E).
Qed.

(** The scan of [argmax]: [pre] is the part of the array already seen. *)
Lemma argmax_go_spec (l pre : list Q) best_i best :
  (pre ++ l)%list !! best_i = Some best ->
  (best_i < length pre)%nat ->
  (forall y, In y pre -> (y <= best)%Q) ->
  (forall j y, (j < best_i)%nat -> pre !! j = Some y -> (y < best)%Q) ->
  exists x,
    is_argmax (pre ++ l)%list (argmax_go best_i best (length pre) l) x.
Proof.
  revert pre best_i best.
  induction l as [|x l IH]; intros pre best_i best Hb Hlt Hmax Hfirst.
  - simpl. exists best. rewrite app_nil_r in *. repeat split; auto.
  - simpl. replace (pre ++ x :: l)%list with ((pre ++ [x]) ++ l)%list in *
      by now rewrite <- app_assoc.
    replace (S (length pre)) with (length (pre ++ [x])%list)
      by (rewrite length_app; simpl; lia).
    destruct (Q_lt best x) eqn:E.
    + apply Q_lt_true in E. apply IH.
      * rewrite lookup_app_l by (rewrite length_app; simpl; lia).
        rewrite lookup_app_r by lia.
        now replace (length pre - length pre)%nat with O by lia.
      * rewrite length_app. simpl. lia.
      * intros y Hy. apply in_app_or in Hy as [Hy | [<- | []]].
        -- apply Qlt_le_weak. eapply Qle_lt_trans; [apply Hmax, Hy | exact E].
        -- apply Qle_refl.
      * intros j y Hj Hy. rewrite lookup_app_l in Hy by exact Hj.
        eapply Qle_lt_trans; [| exact E]. apply Hmax.
        apply list_elem_of_In. eapply list_elem_of_lookup_2. exact Hy.
    + apply Q_lt_false in E. apply IH.
      * exact Hb.
      * rewrite length_app. simpl. lia.
      * intros y Hy. apply in_app_or in Hy as [Hy | [<- | []]]; auto.
      * intros j y Hj Hy. rewrite lookup_app_l in Hy by lia.
        now apply (Hfirst j).
Qed.

Lemma argmax_spec x l s :
  exists i y, argmax (x :: l) s = (Ok i, s) /\ is_argmax (x :: l) i y.
Proof.
  destruct (argmax_go_spec l [x] O x) as (y & Hy); simpl.
  - reflexivity.
  - lia.
  - intros y [<- | []]. apply Qle_refl.
  - intros j y Hj. lia.
  - exists (argmax_go O x 1 l), y. split; [reflexivity | exact Hy].
Qed.

Lemma random_random_ud s :
  exists r s', random_random s = (Ok r, s') /\ ud s' = ud s.
Proof.
  unfold random_random. destruct (draw_ud s) as (n & s' & Hd & Hu).
  rewrite (bind_ok _ _ _ _ _ Hd). eauto.
Qed.

(** C8. With a non-empty catalog and one similarity per stored answer,
    [generate_answer] never raises and returns a reply exactly when the
    utterance is retrievable: its lemmatization is not empty, it is
    meaningful, the corpus is not empty and the greatest similarity is
    strictly above the threshold. The reply is then the answer stored at
    the first index of greatest similarity, followed by the suffix of the
    sentiment and possibly by the mention of a vehicle of the catalog, and
    ['last_intent'] is "offtopic". Otherwise the result is [None] and the
    session and the random source are as before. *)
Theorem generate_answer_spec cfg ext replica s :
  cars cfg <> [] ->
  length (cosine_similarity ext (lemmatize_phrase ext replica))
  = length (answers ext) ->
  match generate_answer cfg ext replica s with
  | (Ok (Some answer), s') =>
      retrievable cfg ext replica
      /\ last_intent (ud s') = Some (Some "offtopic")
      /\ exists i x stored,
           is_argmax (cosine_similarity ext (lemmatize_phrase ext replica))
             i x
           /\ (dialogues_similarity cfg < x)%Q
           /\ answers ext !! i = Some stored
           /\ let plain :=
                stored ++ suffix ext replica
                            " Рад, что ты в хорошем настроении! 😊"
                            " Кажется, ты не в духе. Может, новый авто поднимет настроение? 😊" in
              answer = plain
              \/ exists c,
                   In c (dict_keys (cars cfg))
                   /\ answer = plain ++ " Кстати, у нас есть " ++ c
                                ++ " — отличный выбор!"
  | (Ok None, s') => ~ retrievable cfg ext replica /\ s' = s
  | (Raise _, _) => False
  end.
Proof.
  intros Hcars Hlen. unfold generate_answer, retrievable.
  destruct (str_truthy (lemmatize_phrase ext replica)) eqn:Hl; simpl;
    [| split; [intros (H & _); discriminate | reflexivity]].
  destruct (answers ext) as [|a0 al] eqn:Ha; simpl;
    [split; [intros (_ & _ & H & _); congruence | reflexivity] |].
  destruct (is_meaningful_text ext replica) eqn:Hm; simpl;
    [| split; [intros (_ & H & _); discriminate | reflexivity]].
  set (sims := cosine_similarity ext (lemmatize_phrase ext replica)) in *.
  destruct sims as [|x0 xl] eqn:Hs; [discriminate Hlen |].
  destruct (argmax_spec x0 xl s) as (i & x & Hi & Harg).
  rewrite (bind_ok _ _ _ _ _ Hi).
  pose proof Harg as (Hix & Hmax & Hfirst).
  unfold list_item at 1. rewrite Hix.
  rewrite (bind_ok _ _ s x s) by reflexivity.
  destruct (Q_lt (dialogues_similarity cfg) x) eqn:Hth.
  2:{ simpl. split; [| reflexivity].
      intros (_ & _ & _ & j & y & (Hjy & _ & _) & Hy).
      apply Q_lt_false in Hth.
      apply (Qlt_not_le _ _ Hy). eapply Qle_trans; [| exact Hth].
      apply Hmax. apply list_elem_of_In.
      eapply list_elem_of_lookup_2. exact Hjy. }
  apply Q_lt_true in Hth.
  assert (Hst : exists stored, (a0 :: al) !! i = Some stored).
  { apply lookup_lt_is_Some. rewrite <- Hlen.
    eapply lookup_lt_Some. exact Hix. }
  destruct Hst as (stored & Hst).
  unfold list_item. rewrite Hst.
  rewrite (bind_ok _ _ s stored s) by reflexivity.
  destruct (random_random_ud s) as (r & s1 & Hr & Hu1).
  rewrite (bind_ok _ _ _ _ _ Hr).
  assert (Hacc : true = true /\ true = true /\ a0 :: al <> []
                 /\ exists i x, is_argmax (x0 :: xl) i x
                                /\ (dialogues_similarity cfg < x)%Q)
    by (repeat split; [congruence | eauto]).
  destruct (Q_lt r (3 # 10)).
  - destruct (random_choice_cases (dict_keys (cars cfg)) s1)
      as [[Hnil _] | (c & s2 & Hc & Hin & Hu2)].
    { destruct (cars cfg); [congruence | discriminate]. }
    rewrite (bind_ok _ _ s1 _ s2)
      by (rewrite (bind_ok _ _ _ _ _ Hc); reflexivity).
    simpl. split; [exact Hacc |]. split; [reflexivity |].
    exists i, x, stored. repeat split; auto.
    right. exists c. split; [exact Hin | reflexivity].
  - simpl. split; [exact Hacc |]. split; [reflexivity |].
    exists i, x, stored. repeat split; auto.
Qed.

(** On the small catalog "как дела" is retrieved: the second stored answer
    has the greatest similarity, 9/10, above the threshold 1/5. *)
Lemma generate_answer_spec_witness :
  cars demo_cfg <> []
  /\ length (cosine_similarity demo_ext (lemmatize_phrase demo_ext "как дела"))
     = length (answers demo_ext)
  /\ retrievable demo_cfg demo_ext "как дела"
  /\ fst (generate_answer demo_cfg demo_ext "как дела" (fresh []))
     = Ok (Some "Отлично, спасибо! Кстати, у нас есть A — отличный выбор!").
Proof.
  split; [discriminate |]. split; [reflexivity |].
  pose proof (generate_answer_spec demo_cfg demo_ext "как дела" (fresh [])
                ltac:(discriminate) eq_refl) as H.
  destruct (generate_answer demo_cfg demo_ext "как дела" (fresh []))
    as [[[answer |] | e] s'] eqn:E.
  - split; [exact (proj1 H) |]. vm_compute in E.
    injection E as <- _. reflexivity.
  - vm_compute in E. discriminate E.
  - destruct H.
Defined.

(** ** The intent classifier *)

Section Classifier.

Variable cfg : Config.
Variable ext : Externals.
Hypothesis threshold_positive : (0 < intent_score cfg)%Q.

Lemma extractOne_nil ratio query : extractOne ratio query [] = None.
Proof. reflexivity. Qed.

Lemma classify_step_loop_state rl best entry :
  classify_step cfg ext rl (loop_state cfg best) entry
  = loop_state cfg
      match extractOne (fuzz_ratio ext) rl
              (lemmatized_examples ext (snd entry)) with
      | None => best
      | Some (_, score) =>
          match best with
          | None => Some (fst entry, (score / 100)%Q)
          | Some (_, b) =>
              if Q_lt b (score / 100) then Some (fst entry, (score / 100)%Q)
              else best
          end
      end.
Proof.
  destruct entry as [key data]. unfold classify_step, lemmatized_examples.
  simpl fst. simpl snd.
  destruct (loop_state cfg best) as [best_score best_intent] eqn:Hloop.
  destruct (List.filter str_truthy
              (map (lemmatize_phrase ext) (default [] (id_examples data))))
    as [|e0 el]; [now rewrite extractOne_nil |].
  destruct (extractOne (fuzz_ratio ext) rl (e0 :: el)) as [[c score]|];
    [| exact (eq_sym Hloop)].
  set (x := (score / 100)%Q) in *.
  destruct best as [[k0 s0]|]; simpl in Hloop.
  - destruct (Q_le (intent_score cfg) s0) eqn:E0;
      injection Hloop as <- <-.
    + apply Q_le_true in E0.
      destruct (Q_lt s0 x) eqn:E1; simpl.
      * apply Q_lt_true in E1.
        assert (Q_le (intent_score cfg) x = true) as ->
          by (apply Q_le_true; lra).
        reflexivity.
      * assert (Q_le (intent_score cfg) s0 = true) as ->
          by now apply Q_le_true.
        reflexivity.
    + apply Q_le_false in E0.
      destruct (Q_lt s0 x) eqn:E1; simpl.
      * destruct (Q_le (intent_score cfg) x) eqn:E2.
        -- apply Q_le_true in E2.
           assert (Q_lt 0 x = true) as -> by (apply Q_lt_true; lra).
           reflexivity.
        -- now rewrite andb_false_r.
      * apply Q_lt_false in E1.
        assert (Q_le (intent_score cfg) x = false) as ->
          by (apply Q_le_false; lra).
        assert (Q_le (intent_score cfg) s0 = false) as ->
          by (apply Q_le_false; lra).
        now rewrite andb_false_r.
  - injection Hloop as <- <-. simpl.
    destruct (Q_le (intent_score cfg) x) eqn:E2.
    + apply Q_le_true in E2.
      assert (Q_lt 0 x = true) as -> by (apply Q_lt_true; lra).
      reflexivity.
    + now rewrite andb_false_r.
Qed.

Lemma classify_loop rl l best :
  fold_left (classify_step cfg ext rl) l (loop_state cfg best)
  = loop_state cfg
      (fold_left
         (fun best entry =>
            match extractOne (fuzz_ratio ext) rl
                    (lemmatized_examples ext (snd entry)) with
            | None => best
            | Some (_, score) =>
                match best with
                | None => Some (fst entry, (score / 100)%Q)
                | Some (_, b) =>
                    if Q_lt b (score / 100)
                    then Some (fst entry, (score / 100)%Q)
                    else best
                end
            end)
         l best).
Proof.
  revert best. induction l as [|entry l IH]; intros best; [reflexivity |].
  simpl. rewrite classify_step_loop_state. apply IH.
Qed.

Hypothesis keys_nonempty :
  forall k d, In (k, d) (intents cfg) -> k <> EmptyString.

Lemma best_match_key rl k score :
  best_match cfg ext rl = Some (k, score) ->
  exists d, In (k, d) (intents cfg).
Proof.
  unfold best_match.
  assert (G : forall l best,
    fold_left
      (fun best entry =>
         match extractOne (fuzz_ratio ext) rl
                 (lemmatized_examples ext (snd entry)) with
         | None => best
         | Some (_, score) =>
             match best with
             | None => Some (fst entry, (score / 100)%Q)
             | Some (_, b) =>
                 if Q_lt b (score / 100)
                 then Some (fst entry, (score / 100)%Q)
                 else best
             end
         end) l best = Some (k, score) ->
    (exists sc, best = Some (k, sc)) \/ exists d, In (k, d) l).
  { induction l as [|[key data] l IH]; intros best H; simpl in H.
    - left. eauto.
    - apply IH in H as [(sc & H) | (d & H)]; [| right; exists d; now right].
      destruct (extractOne (fuzz_ratio ext) rl
                  (lemmatized_examples ext data)) as [[c x]|];
        [| left; eauto].
      destruct best as [[k0 s0]|].
      + destruct (Q_lt s0 (x / 100)).
        * injection H as <- _. right. exists data. now left.
        * left. eauto.
      + injection H as <- _. right. exists data. now left. }
  intros H. apply G in H as [(sc & H) | H]; [discriminate | exact H].
Qed.

(** C2, as the code behaves. With a positive threshold and non-empty
    intent names, [classify_intent] returns the intent of the best
    approximate match when the score of that match is at or above the
    threshold, and none otherwise: the prediction of the model is computed
    but has no confidence of its own and is never the result. *)
Theorem classify_intent_best_match replica :
  classify_intent cfg ext replica
  = if negb (str_truthy (lemmatize_phrase ext replica)) then None
    else
      match best_match cfg ext (lemmatize_phrase ext replica) with
      | Some (k, score) =>
          if Q_le (intent_score cfg) score then Some k else None
      | None => None
      end.
Proof.
  unfold classify_intent.
  destruct (negb (str_truthy (lemmatize_phrase ext replica)));
    [reflexivity |].
  change (0%Q, @None string) with (loop_state cfg None).
  rewrite classify_loop. fold (best_match cfg ext (lemmatize_phrase ext replica)).
  assert (Hzero : Q_le (intent_score cfg) 0 = false)
    by (apply Q_le_false; exact threshold_positive).
  destruct (best_match cfg ext (lemmatize_phrase ext replica))
    as [[k score]|] eqn:Hbest; simpl.
  - destruct (Q_le (intent_score cfg) score) eqn:E.
    + rewrite E. destruct (best_match_key _ _ _ Hbest) as (d & Hd).
      unfold py_or. simpl.
      now rewrite (str_truthy_nonempty k (keys_nonempty k d Hd)).
    + now rewrite Hzero.
  - now rewrite Hzero.
Qed.

End Classifier.

(** On the small catalog the threshold is 7/10 and "да" is an example of
    the intent "yes". *)
Lemma classify_intent_best_match_witness :
  (0 < intent_score demo_cfg)%Q
  /\ (forall k d, In (k, d) (intents demo_cfg) -> k <> EmptyString)
  /\ classify_intent demo_cfg demo_ext "да" = Some "yes"
  /\ classify_intent demo_cfg demo_ext "добрый вечер" = None.
Proof.
  assert (H0 : (0 < intent_score demo_cfg)%Q) by reflexivity.
  assert (Hk : forall k d, In (k, d) (intents demo_cfg) -> k <> EmptyString).
  { intros k d [E | [E | [E | []]]]; injection E as <- _; discriminate. }
  split; [exact H0 |]. split; [exact Hk |].
  split.
  - rewrite (classify_intent_best_match demo_cfg demo_ext H0 Hk "да").
    reflexivity.
  - rewrite (classify_intent_best_match demo_cfg demo_ext H0 Hk
               "добрый вечер").
    reflexivity.
Defined.

(** C2, as the specification states it, fails: for an utterance that
    matches no example, a model that predicts "hello" with confidence 9/10
    would decide, but the code returns none. *)
Lemma classify_intent_counterexample :
  classify_intent_spec demo_cfg demo_ext (fun _ => (9 # 10)%Q) "добрый вечер"
  = Some "hello"
  /\ classify_intent demo_cfg demo_ext "добрый вечер" = None
  /\ classify_intent demo_cfg demo_ext "добрый вечер"
     <> classify_intent_spec demo_cfg demo_ext (fun _ => (9 # 10)%Q)
          "добрый вечер".
Proof.
  split; [vm_compute; reflexivity |].
  split; [vm_compute; reflexivity |].
  vm_compute. discriminate.
Qed.

(** ** Invariants of the session across a turn *)

Section Keeps.

Variable I : UserData -> Prop.

Lemma keeps_ret {A} (a : A) (R : A -> Prop) : R a -> keeps I (ret a) R.
Proof. intros Ha s Hs. simpl. auto. Qed.

Lemma keeps_raise {A} e (R : A -> Prop) : keeps I (raise e) R.
Proof. intros s Hs. simpl. auto. Qed.

Lemma keeps_bind {A B} (m : M A) (k : A -> M B) R1 R2 :
  keeps I m R1 ->
  (forall a, R1 a -> keeps I (k a) R2) ->
  keeps I (bind m k) R2.
Proof.
  intros Hm Hk s Hs. unfold bind.
  destruct (Hm s Hs) as [H1 H2].
  destruct (m s) as [[a | e] s1]; simpl in *.
  - exact (Hk a H2 s1 H1).
  - auto.
Qed.

Lemma keeps_weaken {A} (m : M A) (R R' : A -> Prop) :
  keeps I m R -> (forall a, R a -> R' a) -> keeps I m R'.
Proof.
  intros Hm HR s Hs. destruct (Hm s Hs) as [H1 H2]. split; [exact H1 |].
  destruct (fst (m s)); auto.
Qed.

Lemma keeps_any {A} (m : M A) R : keeps I m R -> keeps I m any.
Proof. intros H. apply (keeps_weaken m R); [exact H | unfold any; auto]. Qed.

Lemma keeps_get_ud : keeps I get_ud I.
Proof. intros s Hs. simpl. auto. Qed.

Lemma keeps_modify_ud f :
  (forall u, I u -> I (f u)) -> keeps I (modify_ud f) any.
Proof. intros Hf s Hs. simpl. split; [auto | exact Logic.I]. Qed.

Lemma keeps_draw : keeps I draw any.
Proof.
  intros s Hs. unfold draw.
  destruct (tape s); simpl; split; auto; exact Logic.I.
Qed.

Lemma keeps_random_choice {A} (l : list A) :
  keeps I (random_choice l) (fun x => In x l).
Proof.
  intros s Hs.
  destruct (random_choice_cases l s) as [[_ H] | (x & s' & H & Hin & Hu)];
    rewrite H; simpl; [auto |].
  rewrite Hu. auto.
Qed.

Lemma keeps_random_random : keeps I random_random any.
Proof.
  unfold random_random. eapply keeps_bind; [apply keeps_draw |].
  intros n _. now apply keeps_ret.
Qed.

Lemma keeps_sample_go {A} k (pool : list A) : keeps I (sample_go k pool) any.
Proof.
  revert pool. induction k as [|k IH]; intros pool; simpl.
  - now apply keeps_ret.
  - destruct pool as [|x0 pool]; [now apply keeps_ret |].
    eapply keeps_bind; [apply keeps_draw |]. intros n _.
    eapply keeps_bind; [apply IH |]. intros rest _. now apply keeps_ret.
Qed.

Lemma keeps_random_sample {A} (l : list A) k :
  keeps I (random_sample l k) any.
Proof.
  unfold random_sample. destruct (length l <? k)%nat.
  - apply keeps_raise.
  - apply keeps_sample_go.
Qed.

Lemma keeps_argmax l : keeps I (argmax l) any.
Proof.
  destruct l; simpl; [apply keeps_raise | now apply keeps_ret].
Qed.

Lemma keeps_list_item {A} (l : list A) i : keeps I (list_item l i) any.
Proof.
  unfold list_item. destruct (l !! i); [now apply keeps_ret | apply keeps_raise].
Qed.

Lemma keeps_py_in needle v : keeps I (py_in needle v) any.
Proof.
  destruct v; simpl; [now apply keeps_ret | apply keeps_raise].
Qed.

Lemma keeps_unbound {A} name (R : A -> Prop) : keeps I (unbound name) R.
Proof. apply keeps_raise. Qed.

Lemma keeps_cars_item cfg car_name : keeps I (cars_item cfg car_name) any.
Proof.
  unfold cars_item. destruct car_name as [k|]; [| apply keeps_raise].
  destruct (dict_get k (cars cfg)); [now apply keeps_ret | apply keeps_raise].
Qed.

Lemma keeps_intents_item cfg intent : keeps I (intents_item cfg intent) any.
Proof.
  unfold intents_item.
  destruct (dict_get intent (intents cfg));
    [now apply keeps_ret | apply keeps_raise].
Qed.

End Keeps.

Create HintDb keeps.

#[export] Hint Resolve keeps_get_ud keeps_modify_ud keeps_draw
  keeps_random_choice keeps_random_random keeps_random_sample keeps_argmax
  keeps_list_item keeps_py_in keeps_cars_item keeps_intents_item : keeps.

(** One step through a computation: a return, a raise, a sequence whose
    first part is known to keep the invariant, or a branch. *)
Ltac keeps_step :=
  match goal with
  | |- keeps _ (ret _) any => apply keeps_ret; exact Logic.I
  | |- keeps _ (raise _) _ => apply keeps_raise
  | |- keeps _ (unbound _) _ => apply keeps_unbound
  | |- keeps _ (let _ := _ in _) _ => cbv zeta
  | |- keeps _ (bind (unbound _) _) _ =>
      eapply keeps_bind; [apply keeps_unbound with (R := any) | intros ? ?]
  | |- keeps _ (bind _ _) _ =>
      eapply keeps_bind; [solve [eauto with keeps] | intros ? ?]
  | |- keeps _ (if ?b then _ else _) _ => destruct b eqn:?
  | |- keeps _ (match ?x with _ => _ end) _ => destruct x eqn:?
  | |- keeps _ _ _ => solve [eauto with keeps]
  end.

Ltac keeps_auto := solve [repeat keeps_step].

Lemma cars_of_category_keys cfg k c :
  In c (cars_of_category cfg k) -> In c (dict_keys (cars cfg)).
Proof.
  unfold cars_of_category, dict_keys. intros H.
  apply in_map_iff in H as (cd & <- & H).
  apply List.filter_In in H as [H _]. now apply in_map.
Qed.

Lemma suitable_cars_of_keys cfg ext price k u c :
  In c (suitable_cars_of cfg ext price k u) -> In c (dict_keys (cars cfg)).
Proof.
  unfold suitable_cars_of, dict_keys. intros H.
  apply List.filter_In in H as [H _].
  apply in_map_iff in H as (cd & <- & H).
  apply List.filter_In in H as [H _]. now apply in_map.
Qed.

Section Turn.

Variable cfg : Config.
Variable ext : Externals.

(** [I] is an invariant of the session dictionary that the assignments to
    ['state'] and ['last_intent'] keep, and that an assignment to
    ['current_car'] keeps when the value satisfies [V]; [V] holds of
    [None], of the keys of the catalog and of the vehicle names that are
    extracted. *)
Variable I : UserData -> Prop.
Variable V : option string -> Prop.

Hypothesis I_state :
  forall (st : BotState) u, I u -> I (set_state (BotState_value st) u).
Hypothesis I_last_intent : forall v u, I u -> I (set_last_intent v u).
Hypothesis I_current_car : forall v u, V v -> I u -> I (set_current_car v u).
Hypothesis V_None : V None.
Hypothesis V_key : forall c, In c (dict_keys (cars cfg)) -> V (Some c).
Hypothesis V_extract : forall t, V (extract_car_name ext t).

Lemma keeps_set_state (st : BotState) :
  keeps I (modify_ud (set_state (BotState_value st))) any.
Proof. apply keeps_modify_ud. auto. Qed.

Lemma keeps_set_last_intent v : keeps I (modify_ud (set_last_intent v)) any.
Proof. apply keeps_modify_ud. auto. Qed.

Lemma keeps_set_current_car v :
  V v -> keeps I (modify_ud (set_current_car v)) any.
Proof. intros Hv. apply keeps_modify_ud. auto. Qed.

Hint Resolve keeps_set_state keeps_set_last_intent keeps_set_current_car
  : keeps.

Lemma keeps_get_car_response intent car_name replica :
  keeps I (_get_car_response cfg ext intent car_name replica) any.
Proof. unfold _get_car_response. keeps_auto. Qed.

Lemma keeps_choice_of_keys l :
  (forall c, In c l -> In c (dict_keys (cars cfg))) ->
  keeps I (c <- random_choice l ;; ret (Some c)) V.
Proof.
  intros Hl. eapply keeps_bind; [apply keeps_random_choice |].
  intros c Hc. apply keeps_ret. auto.
Qed.

Lemma keeps_scan_history hs : keeps I (scan_history cfg ext hs) V.
Proof.
  induction hs as [|hist hs IH]; cbn [scan_history].
  - now apply keeps_ret.
  - destruct (truthy (extract_car_name ext hist)); [now apply keeps_ret |].
    destruct (truthy (extract_car_category ext hist)); [| exact IH].
    destruct (cars_of_category cfg (the_str (extract_car_category ext hist)))
      as [|c0 l] eqn:E; [exact IH |].
    apply keeps_choice_of_keys. intros c Hc. rewrite <- E in Hc.
    now apply cars_of_category_keys in Hc.
Qed.

Lemma keeps_find_car_by_context replica :
  keeps I (_find_car_by_context cfg ext replica) V.
Proof.
  unfold _find_car_by_context.
  eapply keeps_bind; [apply keeps_get_ud |]. intros u _.
  destruct (truthy (get_or EmptyString (last_bot_response u)) && _);
    [now apply keeps_ret |].
  destruct (truthy (extract_car_category ext replica)).
  - destruct (cars_of_category cfg
                (the_str (extract_car_category ext replica)))
      as [|c0 l] eqn:E; [now apply keeps_ret |].
    apply keeps_choice_of_keys. intros c Hc. rewrite <- E in Hc.
    now apply cars_of_category_keys in Hc.
  - destruct (is_intent (get_or EmptyString (last_intent u)) CAR_TYPES).
    + apply keeps_scan_history.
    + now apply keeps_ret.
Qed.

Lemma keeps_handle_filter_cars price car_category :
  keeps I (_handle_filter_cars cfg ext price car_category) any.
Proof.
  unfold _handle_filter_cars.
  eapply keeps_bind; [apply keeps_get_ud |]. intros u _.
  destruct (suitable_cars_of cfg ext price car_category u) as [|c0 l] eqn:E;
    [keeps_auto |].
  destruct (negb (int_truthy price) && negb (truthy car_category));
    [| keeps_auto].
  eapply keeps_bind; [apply keeps_random_choice |]. intros c Hc.
  rewrite <- E in Hc. apply suitable_cars_of_keys in Hc.
  keeps_auto.
Qed.

Hint Resolve keeps_get_car_response keeps_handle_filter_cars : keeps.

Lemma keeps_finish_answer intent car_name sentiment_suffix answer :
  keeps I (finish_answer cfg intent car_name sentiment_suffix answer) any.
Proof.
  unfold finish_answer.
  eapply keeps_bind with (R1 := any); [keeps_auto | intros ? _; keeps_auto].
Qed.

Hint Resolve keeps_finish_answer : keeps.

Lemma keeps_get_answer_by_intent intent replica :
  keeps I (get_answer_by_intent cfg ext intent replica) any.
Proof.
  unfold get_answer_by_intent.
  eapply keeps_bind; [apply keeps_get_ud |]. intros u _.
  destruct (dict_get intent (intents cfg)) as [idata|]; [| keeps_auto].
  destruct (id_responses idata) as [|r0 rl] eqn:Hresp; [keeps_auto |].
  eapply keeps_bind; [apply keeps_random_choice |]. intros answer _.
  cbv zeta.
  destruct (intent_among (Some intent) car_intents).
  { destruct (negb (truthy (get_or_none (current_car u)))); [| keeps_auto].
    eapply keeps_bind; [apply keeps_find_car_by_context |].
    intros car_name Hcar. keeps_auto. }
  destruct (is_intent (Some intent) CAR_RECOMMENDATION); [keeps_auto |].
  destruct (is_intent (Some intent) FILTER_CARS); [keeps_auto |].
  destruct (is_intent (Some intent) CAR_TYPES); [keeps_auto |].
  destruct (is_intent (Some intent) COMPARE_CARS).
  { eapply keeps_bind; [apply keeps_random_choice |]. intros car1 Hcar1.
    keeps_auto. }
  keeps_auto.
Qed.

Lemma keeps_generate_answer replica :
  keeps I (generate_answer cfg ext replica) any.
Proof.
  unfold generate_answer.
  destruct (negb (str_truthy (lemmatize_phrase ext replica)) || _);
    [keeps_auto |].
  destruct (negb (is_meaningful_text ext replica)); [keeps_auto |].
  cbv zeta. do 2 keeps_step.
  destruct (Q_lt (dialogues_similarity cfg) a0); [| keeps_auto].
  do 2 keeps_step.
  eapply keeps_bind with (R1 := any); [keeps_auto | intros ? _; keeps_auto].
Qed.

Lemma keeps_get_failure_phrase replica :
  keeps I (get_failure_phrase cfg ext replica) any.
Proof. unfold get_failure_phrase. keeps_auto. Qed.

Lemma keeps_take_named_car car_name replica positive negative :
  V car_name ->
  keeps I (take_named_car ext car_name replica positive negative) any.
Proof. intros Hv. unfold take_named_car. keeps_auto. Qed.

Lemma keeps_offer_from_category car_category suitable_cars replica
    positive negative :
  (forall c, In c suitable_cars -> In c (dict_keys (cars cfg))) ->
  keeps I (offer_from_category ext car_category suitable_cars replica
             positive negative) any.
Proof.
  intros Hs. unfold offer_from_category.
  eapply keeps_bind; [apply keeps_random_choice |]. intros c Hc.
  apply Hs in Hc. keeps_auto.
Qed.

Hint Resolve keeps_get_answer_by_intent keeps_generate_answer
  keeps_get_failure_phrase keeps_take_named_car : keeps.

Lemma keeps_process_none_state replica :
  keeps I (_process_none_state cfg ext replica) any.
Proof.
  unfold _process_none_state.
  destruct (truthy (extract_car_name ext replica)); [keeps_auto |].
  destruct (truthy (extract_car_category ext replica)).
  - destruct (cars_of_category cfg
                (the_str (extract_car_category ext replica)))
      as [|c0 l] eqn:E; [keeps_auto |].
    eapply keeps_bind; [| intros ? _; keeps_auto].
    apply keeps_offer_from_category. intros c Hc. rewrite <- E in Hc.
    now apply cars_of_category_keys in Hc.
  - cbv zeta. destruct (truthy (classify_intent cfg ext replica));
      keeps_auto.
Qed.

Lemma keeps_process_waiting_for_car replica :
  keeps I (_process_waiting_for_car cfg ext replica) any.
Proof.
  unfold _process_waiting_for_car.
  destruct (truthy (extract_car_name ext replica)); [keeps_auto |].
  cbv zeta.
  destruct (truthy (extract_car_category ext replica)); [| keeps_auto].
  destruct (cars_of_category cfg (the_str (extract_car_category ext replica)))
    as [|c0 l] eqn:E; [keeps_auto |].
  apply keeps_offer_from_category. intros c Hc. rewrite <- E in Hc.
  now apply cars_of_category_keys in Hc.
Qed.

Lemma keeps_waiting_for_intent_yes car_name replica :
  keeps I (waiting_for_intent_yes cfg ext car_name replica) any.
Proof.
  unfold waiting_for_intent_yes.
  eapply keeps_bind; [apply keeps_unbound with (R := any) |].
  intros last_intent _. keeps_auto.
Qed.

Lemma keeps_process_waiting_for_intent replica :
  keeps I (_process_waiting_for_intent cfg ext replica) any.
Proof.
  unfold _process_waiting_for_intent.
  eapply keeps_bind with (R1 := any).
  { destruct (truthy (extract_car_name ext replica) && _); keeps_auto. }
  intros car_name _. cbv zeta.
  destruct (intent_among (classify_intent cfg ext replica) car_intents);
    [keeps_auto |].
  eapply keeps_bind with (R1 := any).
  { destruct (is_intent (classify_intent cfg ext replica) YES);
      [apply keeps_waiting_for_intent_yes | keeps_auto]. }
  intros returned _. keeps_auto.
Qed.

Hint Resolve keeps_process_none_state keeps_process_waiting_for_car
  keeps_process_waiting_for_intent : keeps.

(** The dispatch of a turn keeps the invariant, whether it returns or
    raises. *)
Lemma keeps_dispatch replica : keeps I (dispatch cfg ext replica) any.
Proof.
  unfold dispatch.
  eapply keeps_bind; [apply keeps_get_ud |]. intros u _. cbv zeta.
  keeps_auto.
Qed.

Lemma keeps_Stats_new :
  (forall v u, I u -> I (set_stats v u)) -> keeps I Stats_new any.
Proof.
  intros I_stats. apply keeps_modify_ud. intros u Hu.
  destruct (stats u); auto.
Qed.

Lemma keeps_Stats_add kind :
  (forall v u, I u -> I (set_stats v u)) -> keeps I (Stats_add kind) any.
Proof. intros I_stats. apply keeps_modify_ud. auto. Qed.

Lemma keeps_outcome_of replica answer :
  keeps I (outcome_of cfg ext replica answer) any.
Proof. unfold outcome_of. keeps_auto. Qed.

(** A whole turn keeps an invariant that the counters and the update of
    the context keep. *)
Lemma keeps_process replica :
  (forall v u, I u -> I (set_stats v u)) ->
  (forall answer intent,
     keeps I (_update_context cfg replica answer intent) any) ->
  keeps I (process cfg ext replica) any.
Proof.
  intros I_stats I_update. unfold process.
  pose proof keeps_Stats_new as Hnew.
  pose proof keeps_Stats_add as Hadd.
  pose proof keeps_outcome_of as Hout.
  eapply keeps_bind; [now apply Hnew |]. intros _ _.
  destruct (negb (is_meaningful_text ext replica)); [keeps_auto |].
  cbv zeta.
  destruct (int_truthy (extract_price ext replica)); [keeps_auto |].
  eapply keeps_bind; [apply keeps_get_ud |]. intros u _.
  eapply keeps_bind with (R1 := any); [keeps_auto |].
  intros answer _. keeps_auto.
Qed.

End Turn.

(** ** The current vehicle *)

(** C9. If vehicle-name extraction only yields keys of the catalog, then
    after a turn, whether [process] returns or raises, ['current_car'] is
    either what it was before the turn or a value that is [None] or a key
    of the catalog; so a session whose current vehicle, if set, is in the
    catalog stays so after any sequence of turns. This covers the three
    state handlers, the filter and the resolution of a vehicle from the
    context. *)
Theorem current_car_in_catalog cfg ext :
  (forall t c, extract_car_name ext t = Some c ->
               In c (dict_keys (cars cfg))) ->
  forall s,
    (forall replica,
       current_car (ud (snd (process cfg ext replica s))) = current_car (ud s)
       \/ current_car_ok cfg (ud (snd (process cfg ext replica s))))
    /\ (current_car_ok cfg (ud s) ->
        forall texts, current_car_ok cfg (ud (turns cfg ext texts s))).
Proof.
  intros Hextract.
  assert (Hkeeps : forall (J : UserData -> Prop),
    (forall v u, J u -> J (set_state v u)) ->
    (forall v u, J u -> J (set_last_intent v u)) ->
    (forall v u, J u -> J (set_last_bot_response v u)) ->
    (forall v u, J u -> J (set_history v u)) ->
    (forall v u, J u -> J (set_stats v u)) ->
    (forall v u, in_catalog cfg v -> J u -> J (set_current_car v u)) ->
    (forall u, J u ->
       J {| state := Some (default (BotState_value NONE) (state u));
            current_car := Some (default None (current_car u));
            last_bot_response := Some (default None (last_bot_response u));
            last_intent := Some (default None (last_intent u));
            history := Some (default [] (history u));
            stats := stats u |}) ->
    forall replica, keeps J (process cfg ext replica) any).
  { intros J J1 J2 J3 J4 J5 J6 J7 replica.
    assert (V_None : in_catalog cfg None)
      by (intros c Hc; discriminate Hc).
    assert (V_key : forall c, In c (dict_keys (cars cfg)) ->
                              in_catalog cfg (Some c))
      by (intros c Hc k E; injection E as <-; exact Hc).
    assert (V_extract : forall t, in_catalog cfg (extract_car_name ext t))
      by (intros t c Hc; now apply (Hextract t)).
    apply (keeps_process cfg ext J (in_catalog cfg)
             (fun st => J1 (BotState_value st)) J2 J6 V_None V_key
             V_extract replica J5).
    intros answer intent. apply keeps_modify_ud. intros u Hu.
    destruct (truthy intent); auto. }
  assert (Hok : forall replica,
            keeps (current_car_ok cfg) (process cfg ext replica) any).
  { apply Hkeeps; try (intros v u Hu; exact Hu).
    - intros v u Hv _ w Hw. simpl in Hw. injection Hw as <-. exact Hv.
    - intros u Hu w Hw. simpl in Hw. injection Hw as <-.
      destruct (current_car u) as [v|] eqn:E; simpl; [exact (Hu v E) |].
      intros c Hc. discriminate Hc. }
  intros s. split.
  - intros replica.
    pose (J := fun u => current_car u = current_car (ud s)
                        \/ current_car_ok cfg u).
    assert (HJ : keeps J (process cfg ext replica) any).
    { apply Hkeeps; unfold J; try (intros v u Hu; exact Hu).
      - intros v u Hv _. right. intros w Hw. simpl in Hw.
        injection Hw as <-. exact Hv.
      - intros u [Hu | Hu]; simpl.
        + destruct (current_car u) as [v|] eqn:E; simpl; [now left |].
          right. intros w Hw. simpl in Hw. injection Hw as <-.
          intros c Hc. discriminate Hc.
        + right. intros w Hw. simpl in Hw. injection Hw as <-.
          destruct (current_car u) as [v|] eqn:E; simpl; [exact (Hu v E) |].
          intros c Hc. discriminate Hc. }
    apply (HJ s). now left.
  - intros Hs texts. revert s Hs.
    induction texts as [|replica texts IH]; intros s Hs; [exact Hs |].
    simpl. apply IH. now apply (Hok replica s).
Qed.

(** On the small catalog the extraction yields "A", "B" or nothing; three
    turns from a fresh session. *)
Lemma current_car_in_catalog_witness :
  (forall t c, extract_car_name demo_ext t = Some c ->
               In c (dict_keys (cars demo_cfg)))
  /\ current_car_ok demo_cfg
       (ud (turns demo_cfg demo_ext ["седан"; "да"; "B"]
              (fresh [1%N; 2%N; 3%N]))).
Proof.
  assert (H : forall t c, extract_car_name demo_ext t = Some c ->
                          In c (dict_keys (cars demo_cfg))).
  { intros t c. simpl.
    destruct (str_in "A" t); [intros E; injection E as <-; simpl; auto |].
    destruct (str_in "B" t); [intros E; injection E as <-; simpl; auto |].
    discriminate. }
  split; [exact H |].
  apply (proj2 (current_car_in_catalog demo_cfg demo_ext H
                  (fresh [1%N; 2%N; 3%N]))).
  intros v Hv. discriminate Hv.
Defined.

(** ** The history *)

Lemma slice_from_last {A} (n : Z) (l : list A) :
  0 < n ->
  slice_from (- n) l = drop (length l - Z.to_nat n) l.
Proof.
  intros Hn. unfold slice_from.
  destruct (Z.ltb_spec (- n) 0) as [_ | Hge]; [| lia].
  f_equal. lia.
Qed.

Lemma slice_from_length {A} (n : Z) (l : list A) :
  0 < n -> (length (slice_from (- n) l) <= Z.to_nat n)%nat.
Proof.
  intros Hn. rewrite slice_from_last by exact Hn.
  rewrite length_drop. lia.
Qed.

(** A computation in two phases around an update: the first keeps [I0],
    the update turns [I0] into [I1], the rest keeps [I1]. *)
Lemma two_phase {A B} (first : M A) (update : A -> M unit) (rest : A -> M B)
    (I0 I1 : UserData -> Prop) s :
  keeps I0 first any ->
  (forall a s1, I0 (ud s1) ->
     exists s2, update a s1 = (Ok tt, s2) /\ I1 (ud s2)) ->
  (forall a, keeps I1 (rest a) any) ->
  I0 (ud s) ->
  let r := (a <- first ;; _ <- update a ;; rest a) s in
  match fst r with
  | Ok _ => I1 (ud (snd r))
  | Raise _ => I0 (ud (snd r)) \/ I1 (ud (snd r))
  end.
Proof.
  intros Hfirst Hupdate Hrest Hs r. subst r. unfold bind.
  destruct (Hfirst s Hs) as [H1 _].
  destruct (first s) as [[a | e] s1]; simpl in *; [| now left].
  destruct (Hupdate a s1 H1) as (s2 & -> & H2).
  destruct (Hrest a s2 H2) as [H3 _].
  destruct (rest a s2) as [[b | e] s3]; simpl in *; auto.
Qed.

(** What a turn does to ['history']: when [process] returns, the history is
    the old one with the utterance appended, cut by [_update_context]; when
    it raises, the history is that or the old one. *)
Lemma process_history cfg ext replica s :
  let r := process cfg ext replica s in
  let h1 :=
    Some (slice_from (- history_limit cfg)
            (app (default [] (history (ud s))) [replica])) in
  match fst r with
  | Ok _ => history (ud (snd r)) = h1
  | Raise _ =>
      history (ud (snd r)) = history (ud s) \/ history (ud (snd r)) = h1
  end.
Proof.
  intros r h1. subst r.
  set (I0 := fun u => history u = history (ud s)).
  set (I1 := fun u => history u = h1).
  assert (H0 : I0 (ud (snd (Stats_new s))))
    by (destruct (Stats_new_fields s) as (_ & _ & _ & _ & H & _); exact H).
  assert (Hupdate : forall answer intent s1, I0 (ud s1) ->
            exists s2,
              _update_context cfg replica answer intent s1 = (Ok tt, s2)
              /\ I1 (ud s2)).
  { intros answer intent s1 Hs1. eexists. split; [reflexivity |].
    unfold I0 in Hs1. unfold I1, h1. simpl.
    destruct (truthy intent); simpl; now rewrite Hs1. }
  assert (Hadd : forall kind, keeps I1 (Stats_add kind) any)
    by (intros kind; apply keeps_modify_ud; auto).
  assert (K0 : forall (st : BotState) u,
            I0 u -> I0 (set_state (BotState_value st) u)) by auto.
  assert (K1 : forall (v : option string) u, I0 u -> I0 (set_last_intent v u))
    by auto.
  assert (K2 : forall (v : option string) u,
            any v -> I0 u -> I0 (set_current_car v u)) by auto.
  assert (Kn : @any (option string) None) by exact Logic.I.
  assert (Kk : forall c, In c (dict_keys (cars cfg)) -> any (Some c))
    by (intros; exact Logic.I).
  assert (Ke : forall t, any (extract_car_name ext t))
    by (intros; exact Logic.I).
  destruct (is_meaningful_text ext replica) eqn:Hm.
  2:{ rewrite (process_not_meaningful cfg ext replica s Hm).
      apply (two_phase _ _ _ I0 I1);
        [apply keeps_get_failure_phrase | auto | | exact H0].
      intros a. keeps_auto. }
  destruct (int_truthy (extract_price ext replica)) eqn:Hp.
  - rewrite (process_price cfg ext replica s Hm Hp).
    apply (two_phase _ _ _ I0 I1);
      [now apply keeps_handle_filter_cars with (V := any) | auto |
      | exact H0].
    intros a. keeps_auto.
  - rewrite (process_dispatch cfg ext replica s Hm Hp).
    apply (two_phase _ _ _ I0 I1);
      [now apply keeps_dispatch with (V := any) | auto | | exact H0].
    intros a. pose proof (keeps_outcome_of cfg ext I1 replica a).
    keeps_auto.
Qed.

(** With a positive ['history_limit'], a turn that returns leaves in
    ['history'] the old history with the raw utterance appended, without
    its oldest entries when that is longer than the limit; and if the
    history of a session is within the limit, it is within the limit after
    any sequence of turns, whether they return or raise. *)
Theorem history_bounded cfg ext :
  0 < history_limit cfg ->
  forall s,
    (forall replica reply s',
       process cfg ext replica s = (Ok reply, s') ->
       let appended := app (default [] (history (ud s))) [replica] in
       history (ud s')
       = Some (drop (length appended - Z.to_nat (history_limit cfg))
                 appended))
    /\ ((length (default [] (history (ud s)))
         <= Z.to_nat (history_limit cfg))%nat ->
        forall texts,
          (length (default [] (history (ud (turns cfg ext texts s))))
           <= Z.to_nat (history_limit cfg))%nat).
Proof.
  intros Hlimit s. split.
  - intros replica reply s' Hrun appended.
    pose proof (process_history cfg ext replica s) as H.
    cbv zeta in H. rewrite Hrun in H. simpl in H.
    rewrite H. f_equal. now apply slice_from_last.
  - intros Hs texts. revert s Hs.
    induction texts as [|replica texts IH]; intros s Hs; [exact Hs |].
    simpl. apply IH.
    pose proof (process_history cfg ext replica s) as H. cbv zeta in H.
    assert (Hcut : (length (default [] (Some (slice_from (- history_limit cfg)
                      (app (default [] (history (ud s))) [replica]))))
                    <= Z.to_nat (history_limit cfg))%nat)
      by (simpl; now apply slice_from_length).
    destruct (fst (process cfg ext replica s)).
    + now rewrite H.
    + destruct H as [H | H]; now rewrite H.
Qed.

(** Five turns on the small catalog, whose limit is 3: the last three
    utterances remain, the oldest first. *)
Lemma history_bounded_witness :
  0 < history_limit demo_cfg
  /\ (length (default [] (history (ud (fresh [])))) <= 3)%nat
  /\ (length (default [] (history (ud (turns demo_cfg demo_ext
        ["привет"; "седан"; "сколько стоит"; "..."; "как дела"]
        (fresh []))))) <= 3)%nat
  /\ history (ud (turns demo_cfg demo_ext
        ["привет"; "седан"; "сколько стоит"; "..."; "как дела"] (fresh [])))
     = Some ["сколько стоит"; "..."; "как дела"].
Proof.
  split; [reflexivity |]. split; [simpl; lia |].
  split.
  - apply (proj2 (history_bounded demo_cfg demo_ext eq_refl (fresh []))).
    simpl. lia.
  - vm_compute. reflexivity.
Defined.

(** With a limit of 0 the slice [history[-0:]] is the whole list: nothing
    is discarded. *)
Remark slice_from_zero {A} (l : list A) : slice_from (- 0) l = l.
Proof. reflexivity. Qed.

(** C6 fails on the code. [_update_context] cuts the history with the
    slice [history[-limit:]]; with a ['history_limit'] of 0 that slice is
    the whole list. So a turn that returns appends the raw utterance and
    discards nothing, and after any sequence of turns the history is longer
    by at least the number of turns that returned: it exceeds the
    configured bound as soon as one turn returns. *)
Theorem history_limit_zero_unbounded cfg ext :
  history_limit cfg = 0 ->
  forall s,
    (forall replica reply s',
       process cfg ext replica s = (Ok reply, s') ->
       history (ud s')
       = Some (app (default [] (history (ud s))) [replica]))
    /\ forall texts,
         (length (default [] (history (ud s))) + returned cfg ext texts s
          <= length (default [] (history (ud (turns cfg ext texts s)))))%nat.
Proof.
  intros Hlimit s. split.
  - intros replica reply s' Hrun.
    pose proof (process_history cfg ext replica s) as H.
    cbv zeta in H. rewrite Hrun, Hlimit in H. exact H.
  - intros texts. revert s.
    induction texts as [|replica texts IH]; intros s; [simpl; lia |].
    cbn [returned]. change (turns cfg ext (replica :: texts) s)
      with (turns cfg ext texts (snd (process cfg ext replica s))).
    specialize (IH (snd (process cfg ext replica s))).
    pose proof (process_history cfg ext replica s) as H. cbv zeta in H.
    rewrite Hlimit in H. change (slice_from (- 0)) with (@id (list string)) in H.
    destruct (fst (process cfg ext replica s)).
    + rewrite H in IH. cbn [default id] in IH. rewrite length_app in IH.
      simpl in IH. lia.
    + destruct H as [H | H]; rewrite H in IH.
      * lia.
      * cbn [default id] in IH. rewrite length_app in IH. simpl in IH. lia.
Qed.

(** Four turns on the small catalog with a limit of 0: all four utterances
    are kept. *)
Lemma history_limit_zero_unbounded_witness :
  history_limit demo_unbounded_cfg = 0
  /\ history (ud (turns demo_unbounded_cfg demo_ext
                    ["привет"; "седан"; "сколько стоит"; "..."] (fresh [])))
     = Some ["привет"; "седан"; "сколько стоит"; "..."]
  /\ (Z.to_nat (history_limit demo_unbounded_cfg)
      < length (default [] (history (ud (turns demo_unbounded_cfg demo_ext
                  ["привет"; "седан"; "сколько стоит"; "..."]
                  (fresh []))))))%nat.
Proof.
  split; [reflexivity |]. split; [vm_compute; reflexivity |].
  pose proof (proj2 (history_limit_zero_unbounded demo_unbounded_cfg demo_ext
                       eq_refl (fresh []))
                ["привет"; "седан"; "сколько стоит"; "..."]) as H.
  assert (Hret : returned demo_unbounded_cfg demo_ext
                   ["привет"; "седан"; "сколько стоит"; "..."] (fresh [])
                 = 4%nat) by (vm_compute; reflexivity).
  rewrite Hret in H.
  change (length (default [] (history (ud (fresh []))))) with 0%nat in H.
  change (Z.to_nat (history_limit demo_unbounded_cfg)) with 0%nat. lia.
Defined.

(** ** The affirmative answer while waiting for an intent *)

(** C1 fails on the code. In state WAITING_FOR_INTENT, a meaningful
    utterance without a price that is classified as "yes" makes [process]
    raise: [_process_waiting_for_intent] reads the name [last_intent],
    which it never binds. No reply is returned. *)
Theorem process_waiting_for_intent_yes_raises cfg ext replica s :
  is_meaningful_text ext replica = true ->
  int_truthy (extract_price ext replica) = false ->
  state (ud s) = Some (BotState_value WAITING_FOR_INTENT) ->
  classify_intent cfg ext replica = Some (Intent_value YES) ->
  fst (process cfg ext replica s) = Raise (NameError "last_intent").
Proof.
  intros Hm Hp Hst Hyes.
  rewrite (process_dispatch cfg ext replica s Hm Hp).
  destruct (Stats_new_fields s) as (F1 & _).
  set (s0 := snd (Stats_new s)) in *. clearbody s0.
  assert (Hw : forall s1,
            fst (_process_waiting_for_intent cfg ext replica s1)
            = Raise (NameError "last_intent")).
  { intros s1. unfold _process_waiting_for_intent. rewrite Hyes.
    unfold bind at 1.
    destruct (truthy (extract_car_name ext replica)
              && in_cars cfg (extract_car_name ext replica));
      reflexivity. }
  assert (Hd : dispatch cfg ext replica s0
               = (r <- _process_waiting_for_intent cfg ext replica ;;
                  ret (Some r)) s0).
  { unfold dispatch. rewrite (bind_ok _ _ s0 (ud s0) s0) by reflexivity.
    now rewrite F1, Hst. }
  unfold bind at 1. rewrite Hd. unfold bind at 1. specialize (Hw s0).
  destruct (_process_waiting_for_intent cfg ext replica s0) as [[r | e] s1];
    simpl in Hw; [discriminate Hw |].
  simpl. injection Hw as ->. reflexivity.
Qed.

(** On the small catalog: "да" in a session that waits for an intent about
    vehicle A. *)
Lemma process_waiting_for_intent_yes_raises_witness :
  is_meaningful_text demo_ext "да" = true
  /\ int_truthy (extract_price demo_ext "да") = false
  /\ state (ud (session WAITING_FOR_INTENT (Some "A") None [] []))
     = Some (BotState_value WAITING_FOR_INTENT)
  /\ classify_intent demo_cfg demo_ext "да" = Some (Intent_value YES)
  /\ fst (process demo_cfg demo_ext "да"
            (session WAITING_FOR_INTENT (Some "A") None [] []))
     = Raise (NameError "last_intent").
Proof.
  do 4 (split; [reflexivity |]).
  exact (process_waiting_for_intent_yes_raises demo_cfg demo_ext "да"
           (session WAITING_FOR_INTENT (Some "A") None [] [])
           eq_refl eq_refl eq_refl eq_refl).
Defined.

(** ** The outcome that is counted *)

(** C4 fails on the code. Take a turn that the retrieval fallback answers:
    the session is in state NONE, the utterance is meaningful and carries
    no price, no vehicle name, no category and no intent, and
    [generate_answer] returns a stored answer. [process] returns that
    answer, but looks for the text "dialogues.txt" in it to tell a
    retrieved answer from a failure; the answer does not contain it, so the
    failure counter grows by one and the counter of retrieved answers stays
    as it was. *)
Theorem retrieved_turn_counted_as_failure cfg ext replica s answer s1 :
  is_meaningful_text ext replica = true ->
  int_truthy (extract_price ext replica) = false ->
  default (BotState_value NONE) (state (ud s)) = BotState_value NONE ->
  truthy (extract_car_name ext replica) = false ->
  truthy (extract_car_category ext replica) = false ->
  truthy (classify_intent cfg ext replica) = false ->
  generate_answer cfg ext replica (snd (Stats_new s)) = (Ok (Some answer), s1) ->
  str_truthy answer = true ->
  str_in "dialogues.txt" answer = false ->
  let r := process cfg ext replica s in
  fst r = Ok (Some answer)
  /\ counter FAILURE (ud (snd r)) = S (counter FAILURE (ud s))
  /\ counter GENERATE (ud (snd r)) = counter GENERATE (ud s)
  /\ counter INTENT (ud (snd r)) = counter INTENT (ud s).
Proof.
  intros Hm Hp Hst Hname Hcat Hcls Hgen Hans Hmark r. subst r.
  rewrite (process_dispatch cfg ext replica s Hm Hp).
  destruct (Stats_new_fields s) as (F1 & _).
  assert (Hc0 : forall k, counter k (ud (snd (Stats_new s)))
                          = counter k (ud s))
    by (intros k; apply counter_Stats_new).
  set (s0 := snd (Stats_new s)) in *. clearbody s0.
  assert (Hc1 : forall k, counter k (ud s1) = counter k (ud s0)).
  { intros k.
    assert (K : keeps (fun u => stats u = stats (ud s0))
                  (generate_answer cfg ext replica) any)
      by (apply keeps_generate_answer; auto).
    destruct (K s0 eq_refl) as [K1 _]. rewrite Hgen in K1. simpl in K1.
    unfold counter. now rewrite K1. }
  assert (Hd : dispatch cfg ext replica s0 = (Ok (Some answer), s1)).
  { unfold dispatch. rewrite (bind_ok _ _ s0 (ud s0) s0) by reflexivity.
    rewrite F1, Hst.
    change (String.eqb (BotState_value NONE) (BotState_value WAITING_FOR_CAR))
      with false.
    change (String.eqb (BotState_value NONE)
              (BotState_value WAITING_FOR_INTENT)) with false.
    cbv iota. unfold _process_none_state.
    rewrite Hname, Hcat, Hcls.
    rewrite (bind_ok _ _ _ _ _ Hgen). simpl. now rewrite Hans. }
  rewrite (bind_ok _ _ _ _ _ Hd).
  rewrite (bind_ok _ _ s1 tt
             (snd (_update_context cfg replica (Some answer) None s1)))
    by reflexivity.
  assert (Ho : forall s2, outcome_of cfg ext replica (Some answer) s2
                          = (Ok FAILURE, s2)).
  { intros s2. unfold outcome_of. rewrite Hcls. simpl.
    unfold bind, ret. now rewrite Hmark. }
  rewrite (bind_ok _ _ _ _ _ (Ho _)).
  rewrite (bind_ok _ _ _ tt
             (snd (Stats_add (ResponseType_value FAILURE)
                     (snd (_update_context cfg replica (Some answer) None
                             s1)))))
    by reflexivity.
  cbn [ret fst snd].
  rewrite !counter_Stats_add, !counter_update_context, !Hc1, !Hc0.
  repeat split; reflexivity.
Qed.

(** On the small catalog: "как дела" is answered from the corpus and
    counted as a failure. *)
Lemma retrieved_turn_counted_as_failure_witness :
  retrievable demo_cfg demo_ext "как дела"
  /\ fst (process demo_cfg demo_ext "как дела"
            (fresh [9007199254740991%N]))
     = Ok (Some "Отлично, спасибо!")
  /\ counter FAILURE
       (ud (snd (process demo_cfg demo_ext "как дела"
                   (fresh [9007199254740991%N])))) = 1%nat
  /\ counter GENERATE
       (ud (snd (process demo_cfg demo_ext "как дела"
                   (fresh [9007199254740991%N])))) = 0%nat.
Proof.
  assert (Hret : retrievable demo_cfg demo_ext "как дела").
  { split; [reflexivity |]. split; [reflexivity |].
    split; [discriminate |].
    exists 1%nat, (9 # 10)%Q. split; [| reflexivity].
    split; [reflexivity |]. split.
    - intros y [<- | [<- | []]]; discriminate.
    - intros j y Hj Hy. assert (j = 0%nat) as -> by lia.
      injection Hy as <-. reflexivity. }
  split; [exact Hret |].
  destruct (retrieved_turn_counted_as_failure demo_cfg demo_ext "как дела"
              (fresh [9007199254740991%N]) "Отлично, спасибо!"
              {| ud := set_last_intent (Some "offtopic")
                         (set_stats zero_stats empty_user_data);
                 tape := [] |}
              eq_refl eq_refl eq_refl eq_refl eq_refl eq_refl eq_refl
              eq_refl eq_refl)
    as (H1 & H2 & H3 & _).
  split; [exact H1 |]. split; [exact H2 | exact H3].
Defined.

(** ** What holds of every turn *)

Lemma hoare_bind {A B} (m : M A) (k : A -> M B) P Q1 Q2 E :
  hoare P m Q1 E ->
  (forall a, hoare (Q1 a) (k a) Q2 E) ->
  hoare P (bind m k) Q2 E.
Proof.
  intros Hm Hk s Hs. unfold bind. specialize (Hm s Hs).
  destruct (m s) as [[a | e] s1]; [exact (Hk a s1 Hm) | exact Hm].
Qed.

Lemma hoare_ret {A} (a : A) (P : UserData -> Prop) Q E :
  (forall u, P u -> Q a u) -> hoare P (ret a) Q E.
Proof. intros H s Hs. simpl. auto. Qed.

Lemma hoare_keeps {A} (m : M A) I R :
  keeps I m R -> hoare I m (fun _ u => I u) I.
Proof.
  intros H s Hs. destruct (H s Hs) as [H1 _].
  destruct (m s) as [[a | e] s1]; exact H1.
Qed.

Lemma hoare_returns {A} (m : M A) (P : UserData -> Prop) Q E :
  (forall s, P (ud s) ->
     exists a, fst (m s) = Ok a /\ Q a (ud (snd (m s)))) ->
  hoare P m Q E.
Proof.
  intros H s Hs. destruct (H s Hs) as (a & H1 & H2).
  destruct (m s) as [[a' | e] s1]; simpl in *; [| discriminate H1].
  injection H1 as ->. exact H2.
Qed.

(** The part of C1 that holds also when [process] raises: the value of
    ['state'] stays the value of a [BotState]. *)
Lemma process_state_ok cfg ext replica s :
  state_ok (ud s) -> state_ok (ud (snd (process cfg ext replica s))).
Proof.
  intros Hs.
  assert (K : keeps state_ok (process cfg ext replica) any).
  { apply keeps_process with (V := any).
    - intros st u _ v Hv. simpl in Hv. injection Hv as <-. eauto.
    - intros v u Hu. exact Hu.
    - intros v u _ Hu. exact Hu.
    - exact Logic.I.
    - intros c _. exact Logic.I.
    - intros t. exact Logic.I.
    - intros v u Hu. exact Hu.
    - intros answer intent. apply keeps_modify_ud. intros u Hu.
      assert (G : forall w,
                Some (default (BotState_value NONE) (state u)) = Some w ->
                exists st, w = BotState_value st).
      { intros w Hw. injection Hw as <-.
        destruct (state u) as [v|] eqn:E; simpl; [exact (Hu v E) |].
        now exists NONE. }
      destruct (truthy intent); exact G. }
  exact (proj1 (K s Hs)).
Qed.

(** The part of C4 that holds: a turn that returns adds one to exactly one
    counter, and a turn that raises adds nothing. *)
Lemma process_counts_once cfg ext replica s :
  match process cfg ext replica s with
  | (Ok _, s') =>
      exists k, forall k',
        counter k' (ud s')
        = if bool_decide (k' = k) then S (counter k' (ud s))
          else counter k' (ud s)
  | (Raise _, s') => forall k', counter k' (ud s') = counter k' (ud s)
  end.
Proof.
  set (I0 := fun u => forall k', counter k' u = counter k' (ud s)).
  set (I1 := fun u => exists k, forall k',
               counter k' u
               = if bool_decide (k' = k) then S (counter k' (ud s))
                 else counter k' (ud s)).
  assert (K0 : forall (st : BotState) u,
            I0 u -> I0 (set_state (BotState_value st) u)) by auto.
  assert (K1 : forall (v : option string) u, I0 u -> I0 (set_last_intent v u))
    by auto.
  assert (K2 : forall (v : option string) u,
            any v -> I0 u -> I0 (set_current_car v u)) by auto.
  assert (Kn : @any (option string) None) by exact Logic.I.
  assert (Kk : forall c, In c (dict_keys (cars cfg)) -> any (Some c))
    by (intros; exact Logic.I).
  assert (Ke : forall t, any (extract_car_name ext t))
    by (intros; exact Logic.I).
  assert (Hnew : hoare I0 Stats_new (fun _ u => I0 u) I0).
  { apply hoare_returns. intros s1 Hs1. exists tt.
    split; [reflexivity |]. intros k'. rewrite counter_Stats_new.
    apply Hs1. }
  assert (Hupd : forall answer intent,
            hoare I0 (_update_context cfg replica answer intent)
              (fun _ u => I0 u) I0).
  { intros answer intent. apply hoare_returns. intros s1 Hs1. exists tt.
    split; [reflexivity |]. intros k'. rewrite counter_update_context.
    apply Hs1. }
  assert (Hadd : forall (k : ResponseType) (reply : option string),
            hoare I0
              (_ <- Stats_add (ResponseType_value k) ;; ret reply)
              (fun _ u => I1 u) I0).
  { intros k reply. apply hoare_returns. intros s1 Hs1. exists reply.
    split; [reflexivity |]. exists k. intros k'.
    change (counter k' (ud (snd (Stats_add (ResponseType_value k) s1)))
            = if bool_decide (k' = k) then S (counter k' (ud s))
              else counter k' (ud s)).
    rewrite counter_Stats_add, (Hs1 k'). reflexivity. }
  assert (H : hoare I0 (process cfg ext replica) (fun _ u => I1 u) I0).
  { unfold process. eapply hoare_bind; [exact Hnew |]. intros ?. cbv beta.
    destruct (negb (is_meaningful_text ext replica)).
    { eapply hoare_bind;
        [apply (hoare_keeps _ _ any), keeps_get_failure_phrase |].
      intros answer. eapply hoare_bind; [apply Hupd |]. intros ?. cbv beta.
      apply Hadd. }
    cbv zeta. destruct (int_truthy (extract_price ext replica)).
    { eapply hoare_bind;
        [apply (hoare_keeps _ _ any);
         now apply keeps_handle_filter_cars with (V := any) |].
      intros answer. eapply hoare_bind; [apply Hupd |]. intros ?. cbv beta.
      apply Hadd. }
    eapply hoare_bind; [apply (hoare_keeps _ _ I0), keeps_get_ud |].
    intros u. eapply hoare_bind.
    { apply (hoare_keeps _ _ any).
      destruct (String.eqb _ _);
        [eapply keeps_bind;
           [now apply keeps_process_waiting_for_car with (V := any) |
            intros ? _; now apply keeps_ret] |].
      destruct (String.eqb _ _);
        [eapply keeps_bind;
           [now apply keeps_process_waiting_for_intent with (V := any) |
            intros ? _; now apply keeps_ret] |].
      now apply keeps_process_none_state with (V := any). }
    intros answer. eapply hoare_bind; [apply Hupd |]. intros ?. cbv beta.
    eapply hoare_bind;
      [apply (hoare_keeps _ _ any), keeps_outcome_of |].
    intros kind. apply Hadd. }
  specialize (H s (fun k' => eq_refl)).
  destruct (process cfg ext replica s) as [[reply | e] s']; exact H.
Qed.

(** * Further properties of the code *)

Lemma extractOne_fold (ratio : string -> string -> Q) (query : string) (l : list string) best :
  let r :=
    fold_left
      (fun best c =>
         let sc := ratio query c in
         match best with
         | None => Some (c, sc)
         | Some (_, b) => if Q_lt b sc then Some (c, sc) else best
         end) l best in
  (forall c sc, r = Some (c, sc) ->
     best = Some (c, sc) \/ (In c l /\ sc = ratio query c))
  /\ (forall c', In c' l ->
        exists c sc, r = Some (c, sc) /\ (ratio query c' <= sc)%Q)
  /\ (forall c0 s0, best = Some (c0, s0) ->
        exists c sc, r = Some (c, sc) /\ (s0 <= sc)%Q).
Proof.
  revert best. induction l as [|x l IH]; intros best; simpl.
  - repeat split.
    + intros c sc H. now left.
    + intros c' [].
    + intros c0 s0 ->. exists c0, s0. split; [reflexivity | apply Qle_refl].
  - set (best' := match best with
                  | None => Some (x, ratio query x)
                  | Some (_, b) =>
                      if Q_lt b (ratio query x) then Some (x, ratio query x)
                      else best
                  end).
    destruct (IH best') as (H1 & H2 & H3).
    assert (Hx : exists c sc, best' = Some (c, sc) /\ (ratio query x <= sc)%Q).
    { unfold best'. destruct best as [[c0 s0]|].
      - destruct (Q_lt s0 (ratio query x)) eqn:E.
        + eexists _, _. split; [reflexivity | apply Qle_refl].
        + apply Q_lt_false in E. eauto.
      - eexists _, _. split; [reflexivity | apply Qle_refl]. }
    repeat split.
    + intros c sc Hr. apply H1 in Hr as [Hr | [Hin ->]]; [| right; auto].
      unfold best' in Hr. destruct best as [[c0 s0]|].
      * destruct (Q_lt s0 (ratio query x)).
        -- injection Hr as <- <-. right. auto.
        -- now left.
      * injection Hr as <- <-. right. auto.
    + intros c' [<- | Hin]; [| now apply H2].
      destruct Hx as (c & sc & Hb & Hle).
      destruct (H3 c sc Hb) as (c2 & sc2 & Hr & Hle2).
      exists c2, sc2. split; [exact Hr | lra].
    + intros c0 s0 ->. unfold best' in *.
      destruct (Q_lt s0 (ratio query x)) eqn:E.
      * apply Q_lt_true in E.
        destruct (H3 x (ratio query x) eq_refl) as (c2 & sc2 & Hr & Hle2).
        exists c2, sc2. split; [exact Hr | lra].
      * apply (H3 c0 s0 eq_refl).
Qed.

Lemma extractOne_sound (ratio : string -> string -> Q) (query : string) (l : list string) c sc :
  extractOne ratio query l = Some (c, sc) ->
  In c l /\ sc = ratio query c.
Proof.
  intros H. destruct (extractOne_fold ratio query l None) as (H1 & _).
  destruct (H1 c sc H) as [E | E]; [discriminate E | exact E].
Qed.

Lemma extractOne_greatest (ratio : string -> string -> Q) (query : string) (l : list string) c1 :
  In c1 l ->
  exists c sc, extractOne ratio query l = Some (c, sc)
               /\ (ratio query c1 <= sc)%Q.
Proof.
  intros H. destruct (extractOne_fold ratio query l None) as (_ & H2 & _).
  exact (H2 c1 H).
Qed.

(** The fold of [best_match]: where its result comes from, and that it
    is at least the score of every intent. *)
Lemma best_match_fold ext rl l best :
  let step := fun (best : option (string * Q)) (entry : string * IntentData) =>
    match extractOne (fuzz_ratio ext) rl
            (lemmatized_examples ext (snd entry)) with
    | None => best
    | Some (_, score) =>
        match best with
        | None => Some (fst entry, (score / 100)%Q)
        | Some (_, b) =>
            if Q_lt b (score / 100) then Some (fst entry, (score / 100)%Q)
            else best
        end
    end in
  let r := fold_left step l best in
  (forall k s, r = Some (k, s) ->
     best = Some (k, s)
     \/ exists d c score,
          In (k, d) l
          /\ extractOne (fuzz_ratio ext) rl (lemmatized_examples ext d)
             = Some (c, score)
          /\ s = (score / 100)%Q)
  /\ (forall k d c score,
        In (k, d) l ->
        extractOne (fuzz_ratio ext) rl (lemmatized_examples ext d)
        = Some (c, score) ->
        exists k1 s1, r = Some (k1, s1) /\ (score / 100 <= s1)%Q)
  /\ (forall k0 s0, best = Some (k0, s0) ->
        exists k1 s1, r = Some (k1, s1) /\ (s0 <= s1)%Q).
Proof.
  intros step. revert best.
  induction l as [|[key data] l IH]; intros best; simpl.
  - repeat split.
    + intros k s H. now left.
    + intros k d c score [].
    + intros k0 s0 ->. exists k0, s0. split; [reflexivity | apply Qle_refl].
  - destruct (IH (step best (key, data))) as (H1 & H2 & H3).
    assert (Hstep : forall k0 s0, best = Some (k0, s0) ->
              exists k1 s1, step best (key, data) = Some (k1, s1)
                            /\ (s0 <= s1)%Q).
    { intros k0 s0 ->. unfold step. simpl.
      destruct (extractOne (fuzz_ratio ext) rl (lemmatized_examples ext data))
        as [[c score]|].
      - destruct (Q_lt s0 (score / 100)) eqn:E.
        + apply Q_lt_true in E. eexists _, _. split; [reflexivity | lra].
        + eexists _, _. split; [reflexivity | apply Qle_refl].
      - eexists _, _. split; [reflexivity | apply Qle_refl]. }
    repeat split.
    + intros k s Hr. apply H1 in Hr as [Hr | (d & c & score & Hin & He & ->)].
      * unfold step in Hr. simpl in Hr.
        destruct (extractOne (fuzz_ratio ext) rl
                    (lemmatized_examples ext data)) as [[c score]|] eqn:He;
          [| now left].
        destruct best as [[k0 s0]|].
        -- destruct (Q_lt s0 (score / 100)).
           ++ injection Hr as <- <-. right. exists data, c, score. auto.
           ++ now left.
        -- injection Hr as <- <-. right. exists data, c, score. auto.
      * right. exists d, c, score. auto.
    + intros k d c score [E | Hin] He; [| exact (H2 k d c score Hin He)].
      injection E as <- <-.
      assert (Hs : exists k1 s1, step best (key, data) = Some (k1, s1)
                                 /\ (score / 100 <= s1)%Q).
      { unfold step. simpl. rewrite He. destruct best as [[k0 s0]|].
        - destruct (Q_lt s0 (score / 100)) eqn:E.
          + eexists _, _. split; [reflexivity | apply Qle_refl].
          + apply Q_lt_false in E. eauto.
        - eexists _, _. split; [reflexivity | apply Qle_refl]. }
      destruct Hs as (k1 & s1 & Hs & Hle).
      destruct (H3 k1 s1 Hs) as (k2 & s2 & Hr & Hle2).
      exists k2, s2. split; [exact Hr | lra].
    + intros k0 s0 Hb. destruct (Hstep k0 s0 Hb) as (k1 & s1 & Hs & Hle).
      destruct (H3 k1 s1 Hs) as (k2 & s2 & Hr & Hle2).
      exists k2, s2. split; [exact Hr | lra].
Qed.

(** What [classify_intent] computes, for a positive threshold and non-empty
    intent names: the result of [best_match] when its score reaches the
    threshold. *)
Lemma classify_intent_unfold cfg ext replica :
  (0 < intent_score cfg)%Q ->
  (forall k d, In (k, d) (intents cfg) -> k <> EmptyString) ->
  str_truthy (lemmatize_phrase ext replica) = true ->
  classify_intent cfg ext replica
  = match best_match cfg ext (lemmatize_phrase ext replica) with
    | Some (k, score) =>
        if Q_le (intent_score cfg) score then Some k else None
    | None => None
    end.
Proof.
  intros Hpos Hkeys Hl. unfold classify_intent. rewrite Hl.
  cbn [negb]. cbv iota.
  change (0%Q, @None string) with (loop_state cfg None).
  rewrite (classify_loop cfg ext Hpos).
  fold (best_match cfg ext (lemmatize_phrase ext replica)).
  assert (Hzero : Q_le (intent_score cfg) 0 = false)
    by (apply Q_le_false; exact Hpos).
  destruct (best_match cfg ext (lemmatize_phrase ext replica))
    as [[k score]|] eqn:Hbest; simpl; [| now rewrite Hzero].
  destruct (Q_le (intent_score cfg) score) eqn:E; [| now rewrite Hzero].
  rewrite E. destruct (best_match_key _ _ _ _ _ Hbest) as (d & Hd).
  unfold py_or, truthy.
  now rewrite (str_truthy_nonempty k (Hkeys k d Hd)).
Qed.

Lemma Qdiv_100_le (a b : Q) : (a / 100 <= b / 100)%Q -> (a <= b)%Q.
Proof.
  intros H.
  assert (E1 : (a / 100 * 100 == a)%Q) by (apply Qdiv_mult_l; discriminate).
  assert (E2 : (b / 100 * 100 == b)%Q) by (apply Qdiv_mult_l; discriminate).
  revert E1 E2 H. generalize (a / 100)%Q (b / 100)%Q. intros x y E1 E2 H.
  lra.
Qed.

Lemma Qdiv_100_mono (a b : Q) : (a <= b)%Q -> (a / 100 <= b / 100)%Q.
Proof.
  intros H.
  assert (E1 : (a / 100 * 100 == a)%Q) by (apply Qdiv_mult_l; discriminate).
  assert (E2 : (b / 100 * 100 == b)%Q) by (apply Qdiv_mult_l; discriminate).
  revert E1 E2 H. generalize (a / 100)%Q (b / 100)%Q. intros x y E1 E2 H.
  lra.
Qed.

(** Where a result of [classify_intent] comes from. *)
Lemma classify_intent_Some_inv cfg ext replica k :
  (0 < intent_score cfg)%Q ->
  (forall k d, In (k, d) (intents cfg) -> k <> EmptyString) ->
  classify_intent cfg ext replica = Some k ->
  str_truthy (lemmatize_phrase ext replica) = true
  /\ exists d e,
       best_match cfg ext (lemmatize_phrase ext replica)
       = Some (k, (fuzz_ratio ext (lemmatize_phrase ext replica) e / 100)%Q)
       /\ In (k, d) (intents cfg)
       /\ In e (lemmatized_examples ext d)
       /\ (intent_score cfg
           <= fuzz_ratio ext (lemmatize_phrase ext replica) e / 100)%Q.
Proof.
  intros Hpos Hkeys Hc.
  destruct (str_truthy (lemmatize_phrase ext replica)) eqn:Hl.
  2:{ unfold classify_intent in Hc. rewrite Hl in Hc. discriminate Hc. }
  split; [reflexivity |].
  rewrite (classify_intent_unfold cfg ext replica Hpos Hkeys Hl) in Hc.
  set (rl := lemmatize_phrase ext replica) in *.
  destruct (best_match cfg ext rl) as [[k0 s0]|] eqn:Hbest;
    [| discriminate Hc].
  destruct (Q_le (intent_score cfg) s0) eqn:Hth; [| discriminate Hc].
  injection Hc as ->. apply Q_le_true in Hth.
  destruct (best_match_fold ext rl (intents cfg) None) as (H1 & _).
  fold (best_match cfg ext rl) in H1.
  destruct (H1 k s0 Hbest) as [E | (d & c & score & Hin & Hex & ->)];
    [discriminate E |].
  destruct (extractOne_sound _ _ _ _ _ Hex) as [Hc ->].
  exists d, c. auto.
Qed.

Lemma demo_keys k d : In (k, d) (intents demo_cfg) -> k <> EmptyString.
Proof.
  intros [H | [H | [H | []]]]; injection H as <- _; discriminate.
Qed.

(** X1. When [classify_intent] returns an intent (the threshold is
    positive and no intent key is empty), the intent is a configured one,
    and one of its lemmatized examples matches the lemmatized utterance with
    a ratio that reaches the threshold and is the greatest over the examples
    of all intents. *)
Theorem classify_intent_greatest cfg ext replica k :
  (0 < intent_score cfg)%Q ->
  (forall k d, In (k, d) (intents cfg) -> k <> EmptyString) ->
  classify_intent cfg ext replica = Some k ->
  exists d e,
    In (k, d) (intents cfg)
    /\ In e (lemmatized_examples ext d)
    /\ (intent_score cfg
        <= fuzz_ratio ext (lemmatize_phrase ext replica) e / 100)%Q
    /\ forall k1 d1 e1,
         In (k1, d1) (intents cfg) ->
         In e1 (lemmatized_examples ext d1) ->
         (fuzz_ratio ext (lemmatize_phrase ext replica) e1
          <= fuzz_ratio ext (lemmatize_phrase ext replica) e)%Q.
Proof.
  intros Hpos Hkeys Hc.
  destruct (classify_intent_Some_inv cfg ext replica k Hpos Hkeys Hc)
    as (_ & d & e & Hbest & Hin & He & Hth).
  set (rl := lemmatize_phrase ext replica) in *.
  exists d, e. repeat split; auto.
  intros k1 d1 e1 Hin1 He1.
  destruct (extractOne_greatest (fuzz_ratio ext) rl _ e1 He1)
    as (c1 & sc1 & Hex1 & Hle1).
  destruct (best_match_fold ext rl (intents cfg) None) as (_ & H2 & _).
  fold (best_match cfg ext rl) in H2.
  destruct (H2 k1 d1 c1 sc1 Hin1 Hex1) as (k2 & s2 & Hr & Hle2).
  rewrite Hbest in Hr. injection Hr as <- <-.
  apply Qdiv_100_le in Hle2. lra.
Qed.

(** On the small catalog: "да" is classified as "yes". *)
Lemma classify_intent_greatest_witness :
  (0 < intent_score demo_cfg)%Q
  /\ (forall k d, In (k, d) (intents demo_cfg) -> k <> EmptyString)
  /\ classify_intent demo_cfg demo_ext "да" = Some "yes"
  /\ exists d e,
       In ("yes", d) (intents demo_cfg)
       /\ In e (lemmatized_examples demo_ext d)
       /\ (intent_score demo_cfg
           <= fuzz_ratio demo_ext (lemmatize_phrase demo_ext "да") e / 100)%Q
       /\ forall k1 d1 e1,
            In (k1, d1) (intents demo_cfg) ->
            In e1 (lemmatized_examples demo_ext d1) ->
            (fuzz_ratio demo_ext (lemmatize_phrase demo_ext "да") e1
             <= fuzz_ratio demo_ext (lemmatize_phrase demo_ext "да") e)%Q.
Proof.
  split; [reflexivity |]. split; [exact demo_keys |].
  split; [reflexivity |].
  exact (classify_intent_greatest demo_cfg demo_ext "да" "yes"
           eq_refl demo_keys eq_refl).
Defined.

(** X2. [classify_intent] returns an intent exactly when the lemmatized
    utterance is not empty and some example of some intent reaches the
    threshold (the threshold is positive and no intent key is empty); the
    prediction of the trained model plays no part. *)
Theorem classify_intent_some_iff cfg ext replica :
  (0 < intent_score cfg)%Q ->
  (forall k d, In (k, d) (intents cfg) -> k <> EmptyString) ->
  (exists k, classify_intent cfg ext replica = Some k)
  <-> (str_truthy (lemmatize_phrase ext replica) = true
       /\ exists k d e,
            In (k, d) (intents cfg)
            /\ In e (lemmatized_examples ext d)
            /\ (intent_score cfg
                <= fuzz_ratio ext (lemmatize_phrase ext replica) e / 100)%Q).
Proof.
  intros Hpos Hkeys. split.
  - intros (k & Hc).
    destruct (classify_intent_Some_inv cfg ext replica k Hpos Hkeys Hc)
      as (Hl & d & e & _ & H1 & H2 & H3).
    split; [exact Hl |]. exists k, d, e. auto.
  - intros (Hl & k & d & e & Hin & He & Hth).
    rewrite (classify_intent_unfold cfg ext replica Hpos Hkeys Hl).
    set (rl := lemmatize_phrase ext replica) in *.
    destruct (extractOne_greatest (fuzz_ratio ext) rl _ e He)
      as (c & sc & Hex & Hle).
    destruct (best_match_fold ext rl (intents cfg) None) as (_ & H2 & _).
    fold (best_match cfg ext rl) in H2.
    destruct (H2 k d c sc Hin Hex) as (k2 & s2 & Hr & Hle2).
    rewrite Hr. apply Qdiv_100_mono in Hle.
    assert (Q_le (intent_score cfg) s2 = true) as ->
      by (apply Q_le_true; lra).
    eauto.
Qed.

(** On the small catalog, for the utterance "добрый вечер". *)
Lemma classify_intent_some_iff_witness :
  (0 < intent_score demo_cfg)%Q
  /\ (forall k d, In (k, d) (intents demo_cfg) -> k <> EmptyString)
  /\ ((exists k, classify_intent demo_cfg demo_ext "добрый вечер" = Some k)
      <-> (str_truthy (lemmatize_phrase demo_ext "добрый вечер") = true
           /\ exists k d e,
                In (k, d) (intents demo_cfg)
                /\ In e (lemmatized_examples demo_ext d)
                /\ (intent_score demo_cfg
                    <= fuzz_ratio demo_ext
                         (lemmatize_phrase demo_ext "добрый вечер") e
                       / 100)%Q)).
Proof.
  split; [reflexivity |]. split; [exact demo_keys |].
  exact (classify_intent_some_iff demo_cfg demo_ext "добрый вечер"
           eq_refl demo_keys).
Defined.

(** ** A turn that goes through the dispatch *)

Section DispatchRuns.

Variable cfg : Config.
Variable ext : Externals.

(** The end of [process] after a dispatch that returned: the context is
    updated and one counter is chosen. With no reply ([None]) the choice
    needs the utterance to classify, otherwise ['dialogues.txt' in answer]
    raises. *)
Lemma process_after_dispatch replica s a s1 :
  is_meaningful_text ext replica = true ->
  int_truthy (extract_price ext replica) = false ->
  dispatch cfg ext replica (snd (Stats_new s)) = (Ok a, s1) ->
  truthy (classify_intent cfg ext replica) = true \/ a <> None ->
  process cfg ext replica s
  = (Ok a,
     snd (Stats_add
            (ResponseType_value
               (if truthy (classify_intent cfg ext replica) then INTENT
                else if str_in "dialogues.txt" (the_str a) then GENERATE
                else FAILURE))
            (snd (_update_context cfg replica a None s1)))).
Proof.
  intros Hm Hp Hd Ha.
  rewrite (process_dispatch cfg ext replica s Hm Hp).
  rewrite (bind_ok _ _ _ _ _ Hd).
  rewrite (bind_ok _ _ s1 tt (snd (_update_context cfg replica a None s1)))
    by reflexivity.
  unfold outcome_of.
  destruct (truthy (classify_intent cfg ext replica)); [reflexivity |].
  destruct a as [r|]; [reflexivity |].
  destruct Ha as [Ha | Ha]; [discriminate Ha | congruence].
Qed.

(** The fields of the session after the update of the context (without an
    intent) and the count. *)
Lemma fields_after_update replica a kind s1 :
  let s2 := snd (Stats_add kind (snd (_update_context cfg replica a None s1))) in
  state (ud s2) = Some (default (BotState_value NONE) (state (ud s1)))
  /\ current_car (ud s2) = Some (default None (current_car (ud s1)))
  /\ last_bot_response (ud s2) = Some a
  /\ last_intent (ud s2) = Some (default None (last_intent (ud s1)))
  /\ history (ud s2)
     = Some (slice_from (- history_limit cfg)
               (app (default [] (history (ud s1))) [replica]))
  /\ tape s2 = tape s1.
Proof. repeat split. Qed.

Lemma dispatch_none replica s0 :
  default (BotState_value NONE) (state (ud s0)) = BotState_value NONE ->
  dispatch cfg ext replica s0 = _process_none_state cfg ext replica s0.
Proof.
  intros Hst. unfold dispatch.
  rewrite (bind_ok _ _ s0 (ud s0) s0) by reflexivity.
  now rewrite Hst.
Qed.

Lemma dispatch_waiting_for_car replica s0 :
  state (ud s0) = Some (BotState_value WAITING_FOR_CAR) ->
  dispatch cfg ext replica s0
  = (r <- _process_waiting_for_car cfg ext replica ;; ret (Some r)) s0.
Proof.
  intros Hst. unfold dispatch.
  rewrite (bind_ok _ _ s0 (ud s0) s0) by reflexivity.
  now rewrite Hst.
Qed.

Lemma dispatch_waiting_for_intent replica s0 :
  state (ud s0) = Some (BotState_value WAITING_FOR_INTENT) ->
  dispatch cfg ext replica s0
  = (r <- _process_waiting_for_intent cfg ext replica ;; ret (Some r)) s0.
Proof.
  intros Hst. unfold dispatch.
  rewrite (bind_ok _ _ s0 (ud s0) s0) by reflexivity.
  now rewrite Hst.
Qed.

Lemma dict_get_in_keys {V} k (d : list (string * V)) v :
  dict_get k d = Some v -> list_in k (dict_keys d) = true.
Proof.
  induction d as [|[k1 v1] d IH]; simpl; [discriminate |].
  destruct (String.eqb k k1); [reflexivity | exact IH].
Qed.

(** The dispatch leaves the counters alone. *)
Lemma dispatch_stats replica s0 :
  stats (ud (snd (dispatch cfg ext replica s0))) = stats (ud s0).
Proof.
  assert (K : keeps (fun u => stats u = stats (ud s0))
                (dispatch cfg ext replica) any).
  { apply keeps_dispatch with (V := any); auto; intros; exact Logic.I. }
  exact (proj1 (K s0 eq_refl)).
Qed.

(** A turn whose dispatch returned: the reply, the fields of the session
    and the counters afterwards. *)
Lemma process_via_dispatch replica s a s1 :
  is_meaningful_text ext replica = true ->
  int_truthy (extract_price ext replica) = false ->
  dispatch cfg ext replica (snd (Stats_new s)) = (Ok a, s1) ->
  truthy (classify_intent cfg ext replica) = true \/ a <> None ->
  let r := process cfg ext replica s in
  let kind :=
    if truthy (classify_intent cfg ext replica) then INTENT
    else if str_in "dialogues.txt" (the_str a) then GENERATE
    else FAILURE in
  fst r = Ok a
  /\ state (ud (snd r))
     = Some (default (BotState_value NONE) (state (ud s1)))
  /\ current_car (ud (snd r)) = Some (default None (current_car (ud s1)))
  /\ last_bot_response (ud (snd r)) = Some a
  /\ last_intent (ud (snd r)) = Some (default None (last_intent (ud s1)))
  /\ tape (snd r) = tape s1
  /\ forall k,
       counter k (ud (snd r))
       = if bool_decide (k = kind) then S (counter k (ud s))
         else counter k (ud s).
Proof.
  intros Hm Hp Hd Ha r kind. subst r.
  rewrite (process_after_dispatch replica s a s1 Hm Hp Hd Ha).
  fold kind. cbn [fst snd].
  destruct (fields_after_update replica a (ResponseType_value kind) s1)
    as (F1 & F2 & F3 & F4 & _ & F6).
  split; [reflexivity |]. repeat (split; [assumption |]).
  intros k. rewrite counter_Stats_add, counter_update_context.
  assert (Hs : counter k (ud s1) = counter k (ud s)).
  { pose proof (dispatch_stats replica (snd (Stats_new s))) as H.
    rewrite Hd in H. cbn [snd] in H. unfold counter at 1. rewrite H.
    apply counter_Stats_new. }
  now rewrite Hs.
Qed.

End DispatchRuns.

(** ** Waiting for a vehicle *)

Lemma waiting_for_car_run cfg ext replica s0 :
  exists reply s1,
    _process_waiting_for_car cfg ext replica s0 = (Ok reply, s1)
    /\ (truthy (extract_car_name ext replica) = true ->
        state (ud s1) = Some (BotState_value WAITING_FOR_INTENT)
        /\ current_car (ud s1) = Some (extract_car_name ext replica))
    /\ (truthy (extract_car_name ext replica) = false ->
        truthy (extract_car_category ext replica) = true ->
        cars_of_category cfg (the_str (extract_car_category ext replica))
        <> [] ->
        state (ud s1) = Some (BotState_value WAITING_FOR_INTENT)
        /\ exists c,
             In c (cars_of_category cfg
                     (the_str (extract_car_category ext replica)))
             /\ current_car (ud s1) = Some (Some c))
    /\ (truthy (extract_car_name ext replica) = false ->
        truthy (extract_car_category ext replica) = false
        \/ cars_of_category cfg (the_str (extract_car_category ext replica))
           = [] ->
        s1 = s0
        /\ reply
           = "Пожалуйста, уточните название машины или категорию."
             ++ suffix ext replica " Отлично, давай продолжим! 😊"
                  " Не переживай, уточним! 😊").
Proof.
  unfold _process_waiting_for_car.
  destruct (truthy (extract_car_name ext replica)) eqn:Hn.
  { eexists _, _. split; [reflexivity |].
    split; [intros _; split; reflexivity |].
    split; intros H; discriminate H. }
  cbv zeta.
  destruct (truthy (extract_car_category ext replica)) eqn:Hc.
  2:{ eexists _, _. split; [reflexivity |].
      split; [intros H; discriminate H |].
      split; [intros _ H; discriminate H |]. intros _ _. split; reflexivity. }
  destruct (cars_of_category cfg (the_str (extract_car_category ext replica)))
    as [|c0 l] eqn:E.
  { eexists _, _. split; [reflexivity |].
    split; [intros H; discriminate H |].
    split; [intros _ _ H; congruence |]. intros _ _. split; reflexivity. }
  unfold offer_from_category.
  destruct (random_choice_cases (c0 :: l) s0)
    as [[Hnil _] | (x & s' & Hr & Hin & Hu)]; [discriminate Hnil |].
  rewrite (bind_ok _ _ _ _ _ Hr).
  eexists _, _. split; [reflexivity |].
  split; [intros H; discriminate H |].
  split.
  - intros _ _ _. split; [reflexivity |]. exists x. split; [exact Hin | reflexivity].
  - intros _ [H | H]; discriminate H.
Qed.

(** X3. A turn in state WAITING_FOR_CAR (meaningful, without a price) never
    raises. A vehicle name in the utterance becomes the current vehicle; else
    a category that has vehicles gives one of its vehicles; in both cases
    the session waits for an intent. Otherwise the reply asks again, the
    session still waits for a vehicle, the current vehicle is as before
    and no random number was drawn. *)
Theorem process_waiting_for_car cfg ext replica s :
  is_meaningful_text ext replica = true ->
  int_truthy (extract_price ext replica) = false ->
  state (ud s) = Some (BotState_value WAITING_FOR_CAR) ->
  let r := process cfg ext replica s in
  let name := extract_car_name ext replica in
  let category := extract_car_category ext replica in
  exists reply,
    fst r = Ok (Some reply)
    /\ last_bot_response (ud (snd r)) = Some (Some reply)
    /\ (truthy name = true ->
        state (ud (snd r)) = Some (BotState_value WAITING_FOR_INTENT)
        /\ current_car (ud (snd r)) = Some name)
    /\ (truthy name = false -> truthy category = true ->
        cars_of_category cfg (the_str category) <> [] ->
        state (ud (snd r)) = Some (BotState_value WAITING_FOR_INTENT)
        /\ exists c,
             In c (cars_of_category cfg (the_str category))
             /\ current_car (ud (snd r)) = Some (Some c))
    /\ (truthy name = false ->
        truthy category = false
        \/ cars_of_category cfg (the_str category) = [] ->
        reply = "Пожалуйста, уточните название машины или категорию."
                ++ suffix ext replica " Отлично, давай продолжим! 😊"
                     " Не переживай, уточним! 😊"
        /\ state (ud (snd r)) = Some (BotState_value WAITING_FOR_CAR)
        /\ current_car (ud (snd r))
           = Some (default None (current_car (ud s)))
        /\ tape (snd r) = tape s).
Proof.
  intros Hm Hp Hst r name category.
  destruct (Stats_new_fields s) as (F1 & F2 & _ & _ & _ & F6).
  set (s0 := snd (Stats_new s)) in *.
  destruct (waiting_for_car_run cfg ext replica s0)
    as (reply & s1 & Hrun & Hname & Hcat & Hno).
  assert (Hd : dispatch cfg ext replica s0 = (Ok (Some reply), s1)).
  { rewrite dispatch_waiting_for_car by (now rewrite F1).
    now rewrite (bind_ok _ _ _ _ _ Hrun). }
  destruct (process_via_dispatch cfg ext replica s (Some reply) s1 Hm Hp Hd)
    as (P1 & P2 & P3 & P4 & _ & P6 & _); [right; discriminate |].
  exists reply. fold r in P1, P2, P3, P4, P6.
  split; [exact P1 |]. split; [exact P4 |].
  split; [| split].
  - intros H. destruct (Hname H) as [A B]. rewrite P2, P3, A, B. auto.
  - intros H1 H2 H3. destruct (Hcat H1 H2 H3) as (A & c & Hin & B).
    rewrite P2, P3, A, B. eauto.
  - intros H1 H2. destruct (Hno H1 H2) as [-> ->].
    rewrite P2, P3, P6, F1, F2, F6, Hst. auto.
Qed.

(** On the small catalog: "B" in a session that waits for a vehicle. *)
Lemma process_waiting_for_car_witness :
  is_meaningful_text demo_ext "B" = true
  /\ int_truthy (extract_price demo_ext "B") = false
  /\ state (ud (session WAITING_FOR_CAR None None [] []))
     = Some (BotState_value WAITING_FOR_CAR)
  /\ state (ud (snd (process demo_cfg demo_ext "B"
                       (session WAITING_FOR_CAR None None [] []))))
     = Some (BotState_value WAITING_FOR_INTENT)
  /\ current_car (ud (snd (process demo_cfg demo_ext "B"
                             (session WAITING_FOR_CAR None None [] []))))
     = Some (Some "B").
Proof.
  do 3 (split; [reflexivity |]).
  destruct (process_waiting_for_car demo_cfg demo_ext "B"
              (session WAITING_FOR_CAR None None [] [])
              eq_refl eq_refl eq_refl) as (reply & _ & _ & H & _).
  exact (H eq_refl).
Defined.

(** ** Replies about one vehicle *)

Lemma list_in_dict_get {V} k (d : list (string * V)) :
  list_in k (dict_keys d) = true -> exists v, dict_get k d = Some v.
Proof.
  induction d as [|[k1 v1] d IH]; simpl; [discriminate |].
  destruct (String.eqb k k1); [eauto | exact IH].
Qed.

(** X4. [_get_car_response] never changes the session. For a vehicle that
    is not in the catalog (or [None]) it returns the apology without
    looking at the intent or drawing a number. For a vehicle of the
    catalog it raises [KeyError] when the intent is not configured and
    [IndexError] when the intent has no template; otherwise the reply is
    one of the templates of the intent with the name, the price and the
    description filled in (a default description when the vehicle has
    none), followed by the suffix of the sentiment and the closing
    question. *)
Theorem get_car_response_spec cfg ext intent car_name replica s :
  let r := _get_car_response cfg ext intent car_name replica s in
  ud (snd r) = ud s
  /\ (in_cars cfg car_name = false ->
      r = (Ok "Извините, такой машины нет в наличии.", s))
  /\ (in_cars cfg car_name = true ->
      match dict_get intent (intents cfg) with
      | None => r = (Raise (KeyError intent), s)
      | Some idata =>
          match id_responses idata with
          | [] => r = (Raise IndexError, s)
          | _ :: _ =>
              exists c data template,
                car_name = Some c
                /\ dict_get c (cars cfg) = Some data
                /\ In template (id_responses idata)
                /\ fst r
                   = Ok ((str_replace "[description]"
                            (default "отличный автомобиль"
                               (cd_description data))
                            (str_replace "[price]" (pretty (cd_price data))
                               (str_replace "[car_name]" c template))
                          ++ suffix ext replica " Рад, что вам нравится! 😊"
                               " Кажется, вы сомневаетесь. Может, тест-драйв поможет? 😊")
                         ++ " Что ещё интересует?")
          end
      end).
Proof.
  intros r. subst r. unfold _get_car_response.
  destruct (in_cars cfg car_name) eqn:Hin; cbn [negb].
  2:{ split; [reflexivity |]. split; [reflexivity | intros H; discriminate H]. }
  destruct car_name as [c|]; [| discriminate Hin]. simpl in Hin.
  destruct (list_in_dict_get c (cars cfg) Hin) as (data & Hdata).
  unfold intents_item.
  destruct (dict_get intent (intents cfg)) as [idata|].
  2:{ split; [reflexivity |]. split; [intros H; discriminate H | reflexivity]. }
  rewrite (bind_ok _ _ s idata s) by reflexivity.
  destruct (random_choice_cases (id_responses idata) s)
    as [[Hnil Hr] | (template & s1 & Hr & Htin & Hu)].
  { rewrite (bind_raise _ _ _ _ _ Hr).
    split; [reflexivity |]. split; [intros H; discriminate H |].
    intros _. now rewrite Hnil. }
  rewrite (bind_ok _ _ _ _ _ Hr). unfold cars_item. rewrite Hdata.
  rewrite (bind_ok _ _ s1 data s1) by reflexivity.
  split; [exact Hu |]. split; [intros H; discriminate H |].
  intros _. destruct (id_responses idata) as [|t0 tl] eqn:E; [destruct Htin |].
  exists c, data, template. repeat split; auto.
Qed.

(** On the small catalog: an intent that is not configured, asked about
    vehicle A and about a vehicle that is not in the catalog. *)
Lemma get_car_response_spec_witness :
  in_cars demo_cfg (Some "A") = true
  /\ _get_car_response demo_cfg demo_ext "car_specs" (Some "A")
       "какие характеристики" (fresh [])
     = (Raise (KeyError "car_specs"), fresh [])
  /\ _get_car_response demo_cfg demo_ext "car_specs" (Some "C")
       "какие характеристики" (fresh [])
     = (Ok "Извините, такой машины нет в наличии.", fresh []).
Proof.
  split; [reflexivity |].
  destruct (get_car_response_spec demo_cfg demo_ext "car_specs" (Some "A")
              "какие характеристики" (fresh [])) as (_ & _ & H).
  split; [exact (H eq_refl) |].
  destruct (get_car_response_spec demo_cfg demo_ext "car_specs" (Some "C")
              "какие характеристики" (fresh [])) as (_ & H' & _).
  exact (H' eq_refl).
Defined.

(** ** Waiting for an intent *)

Lemma get_car_response_ud cfg ext intent car_name replica s :
  ud (snd (_get_car_response cfg ext intent car_name replica s)) = ud s.
Proof.
  assert (K : keeps (fun u => u = ud s)
                (_get_car_response cfg ext intent car_name replica) any)
    by apply keeps_get_car_response.
  exact (proj1 (K s eq_refl)).
Qed.

(** A turn whose dispatch raised: [process] raises the same exception and
    leaves the session as the dispatch left it. *)
Lemma process_dispatch_raises cfg ext replica s e s1 :
  is_meaningful_text ext replica = true ->
  int_truthy (extract_price ext replica) = false ->
  dispatch cfg ext replica (snd (Stats_new s)) = (Raise e, s1) ->
  process cfg ext replica s = (Raise e, s1).
Proof.
  intros Hm Hp Hd. rewrite (process_dispatch cfg ext replica s Hm Hp).
  now rewrite (bind_raise _ _ _ _ _ Hd).
Qed.

(** X5. In state WAITING_FOR_INTENT, when the utterance (meaningful, without a
    price) is classified as one of the four intents about a vehicle, the
    turn is the call of [_get_car_response] for that intent and the
    resolved vehicle: the vehicle named in the utterance if it is in the
    catalog (it becomes the current vehicle), else the current vehicle of
    the session. The state is NONE afterwards, also when the call
    raises. *)
Theorem process_waiting_for_intent_car_intent cfg ext replica s :
  is_meaningful_text ext replica = true ->
  int_truthy (extract_price ext replica) = false ->
  state (ud s) = Some (BotState_value WAITING_FOR_INTENT) ->
  intent_among (classify_intent cfg ext replica) car_intents = true ->
  let name := extract_car_name ext replica in
  let named := truthy name && in_cars cfg name in
  let car := if named then name else get_or "машину" (current_car (ud s)) in
  let s0 := snd (Stats_new s) in
  let s1 :=
    {| ud := set_state (BotState_value NONE)
               (if named then set_current_car name (ud s0) else ud s0);
       tape := tape s0 |} in
  let r := process cfg ext replica s in
  fst r
  = match fst (_get_car_response cfg ext
                 (the_str (classify_intent cfg ext replica)) car replica s1)
    with
    | Ok reply => Ok (Some reply)
    | Raise e => Raise e
    end
  /\ state (ud (snd r)) = Some (BotState_value NONE)
  /\ (named = true -> current_car (ud (snd r)) = Some name).
Proof.
  intros Hm Hp Hst Hcls name named car s0 s1 r.
  destruct (Stats_new_fields s) as (F1 & F2 & _).
  fold s0 in F1, F2.
  assert (Hh : _process_waiting_for_intent cfg ext replica s0
               = _get_car_response cfg ext
                   (the_str (classify_intent cfg ext replica)) car replica s1).
  { unfold _process_waiting_for_intent. fold name. fold named.
    rewrite Hcls. subst car s1. rewrite <- F2.
    destruct named; reflexivity. }
  pose proof (get_car_response_ud cfg ext
                (the_str (classify_intent cfg ext replica)) car replica s1)
    as Hud.
  assert (Hd : dispatch cfg ext replica s0
               = (r0 <- _process_waiting_for_intent cfg ext replica ;;
                  ret (Some r0)) s0)
    by (apply dispatch_waiting_for_intent; now rewrite F1).
  destruct (_get_car_response cfg ext
              (the_str (classify_intent cfg ext replica)) car replica s1)
    as [[reply | e] s2] eqn:Hg; cbn [fst snd] in Hud |- *.
  - rewrite (bind_ok _ _ _ _ _ Hh) in Hd.
    destruct (process_via_dispatch cfg ext replica s (Some reply) s2 Hm Hp Hd)
      as (P1 & P2 & P3 & _); [right; discriminate |].
    fold r in P1, P2, P3. split; [exact P1 |].
    rewrite P2, P3, Hud. subst s1. cbn [ud state current_car set_state].
    split; [reflexivity |]. intros ->. reflexivity.
  - rewrite (bind_raise _ _ _ _ _ Hh) in Hd.
    subst r. rewrite (process_dispatch_raises cfg ext replica s e s2 Hm Hp Hd).
    cbn [fst snd]. split; [reflexivity |]. rewrite Hud. subst s1.
    cbn [ud state current_car set_state].
    split; [reflexivity |]. intros ->. reflexivity.
Qed.

(** On the small catalog: the price asked in a session that waits for an
    intent about vehicle A. *)
Lemma process_waiting_for_intent_car_intent_witness :
  is_meaningful_text demo_ext "сколько стоит" = true
  /\ int_truthy (extract_price demo_ext "сколько стоит") = false
  /\ state (ud (session WAITING_FOR_INTENT (Some "A") None [] [0%N]))
     = Some (BotState_value WAITING_FOR_INTENT)
  /\ intent_among (classify_intent demo_cfg demo_ext "сколько стоит")
       car_intents = true
  /\ fst (process demo_cfg demo_ext "сколько стоит"
            (session WAITING_FOR_INTENT (Some "A") None [] [0%N]))
     = Ok (Some "A стоит 1000000 рублей. Что ещё интересует?")
  /\ state (ud (snd (process demo_cfg demo_ext "сколько стоит"
                       (session WAITING_FOR_INTENT (Some "A") None [] [0%N]))))
     = Some (BotState_value NONE).
Proof.
  do 4 (split; [reflexivity |]).
  destruct (process_waiting_for_intent_car_intent demo_cfg demo_ext
              "сколько стоит"
              (session WAITING_FOR_INTENT (Some "A") None [] [0%N])
              eq_refl eq_refl eq_refl eq_refl) as (H1 & H2 & _).
  split; [exact H1 | exact H2].
Defined.

(** X6. In state WAITING_FOR_INTENT, when the utterance (meaningful, without a
    price) is classified neither as an intent about a vehicle nor as
    "yes", the turn returns without drawing a number. For "no" the current
    vehicle is forgotten and the state is NONE. For anything else,
    including no intent at all, the reply asks what to tell about the
    resolved vehicle, the session keeps waiting for an intent, and a
    vehicle of the catalog named in the utterance becomes the current
    one. *)
Theorem process_waiting_for_intent_other cfg ext replica s :
  is_meaningful_text ext replica = true ->
  int_truthy (extract_price ext replica) = false ->
  state (ud s) = Some (BotState_value WAITING_FOR_INTENT) ->
  intent_among (classify_intent cfg ext replica) car_intents = false ->
  is_intent (classify_intent cfg ext replica) YES = false ->
  let name := extract_car_name ext replica in
  let named := truthy name && in_cars cfg name in
  let car := if named then name else get_or "машину" (current_car (ud s)) in
  let r := process cfg ext replica s in
  tape (snd r) = tape s
  /\ (is_intent (classify_intent cfg ext replica) NO = true ->
      fst r = Ok (Some ("Хорошо, какую машину обсудим теперь?"
                        ++ suffix ext replica " Отлично, продолжаем! 😊"
                             " Не грусти, найдем другое! 😊"))
      /\ state (ud (snd r)) = Some (BotState_value NONE)
      /\ current_car (ud (snd r)) = Some None)
  /\ (is_intent (classify_intent cfg ext replica) NO = false ->
      fst r = Ok (Some ("Что хотите узнать про " ++ py_str car
                        ++ ": цену, характеристики или тест-драйв?"
                        ++ suffix ext replica " В хорошем настроении? 😊"
                             " Не переживай, найдем что-то подходящее! 😊"))
      /\ state (ud (snd r)) = Some (BotState_value WAITING_FOR_INTENT)
      /\ current_car (ud (snd r))
         = Some (if named then name else default None (current_car (ud s)))).
Proof.
  intros Hm Hp Hst Hcar Hyes name named car r.
  destruct (Stats_new_fields s) as (F1 & F2 & _ & _ & _ & F6).
  set (s0 := snd (Stats_new s)) in *.
  assert (Hd : dispatch cfg ext replica s0
               = (r0 <- _process_waiting_for_intent cfg ext replica ;;
                  ret (Some r0)) s0)
    by (apply dispatch_waiting_for_intent; now rewrite F1).
  set (s1 := {| ud := if named then set_current_car name (ud s0) else ud s0;
                tape := tape s0 |}).
  destruct (is_intent (classify_intent cfg ext replica) NO) eqn:Hno.
  - assert (Hh : _process_waiting_for_intent cfg ext replica s0
                 = (Ok ("Хорошо, какую машину обсудим теперь?"
                        ++ suffix ext replica " Отлично, продолжаем! 😊"
                             " Не грусти, найдем другое! 😊"),
                    {| ud := set_state (BotState_value NONE)
                               (set_current_car None (ud s1));
                       tape := tape s0 |})).
    { unfold _process_waiting_for_intent. fold name. fold named.
      rewrite Hcar, Hyes, Hno. subst s1. destruct named; reflexivity. }
    rewrite (bind_ok _ _ _ _ _ Hh) in Hd.
    destruct (process_via_dispatch cfg ext replica s _ _ Hm Hp Hd)
      as (P1 & P2 & P3 & _ & _ & P6 & _); [right; discriminate |].
    fold r in P1, P2, P3, P6.
    split; [rewrite P6; exact F6 |].
    split; [| intros H; discriminate H].
    intros _. rewrite P1, P2, P3. auto.
  - assert (Hh : _process_waiting_for_intent cfg ext replica s0
                 = (Ok ("Что хотите узнать про " ++ py_str car
                        ++ ": цену, характеристики или тест-драйв?"
                        ++ suffix ext replica " В хорошем настроении? 😊"
                             " Не переживай, найдем что-то подходящее! 😊"),
                    s1)).
    { unfold _process_waiting_for_intent. fold name. fold named.
      rewrite Hcar, Hyes, Hno. subst s1 car. rewrite <- F2.
      destruct named; [reflexivity |]. destruct s0; reflexivity. }
    rewrite (bind_ok _ _ _ _ _ Hh) in Hd.
    destruct (process_via_dispatch cfg ext replica s _ _ Hm Hp Hd)
      as (P1 & P2 & P3 & _ & _ & P6 & _); [right; discriminate |].
    fold r in P1, P2, P3, P6.
    split; [rewrite P6; exact F6 |].
    split; [intros H; discriminate H |].
    intros _. rewrite P1, P2, P3. subst s1. cbn [ud tape].
    split; [reflexivity |].
    destruct named; cbn [state current_car set_current_car];
      rewrite ?F1, ?F2, Hst; auto.
Qed.

(** On the small catalog: vehicle B named, without an intent, in a session
    that waits for an intent about vehicle A. *)
Lemma process_waiting_for_intent_other_witness :
  is_meaningful_text demo_ext "расскажите про B" = true
  /\ int_truthy (extract_price demo_ext "расскажите про B") = false
  /\ state (ud (session WAITING_FOR_INTENT (Some "A") None [] []))
     = Some (BotState_value WAITING_FOR_INTENT)
  /\ intent_among (classify_intent demo_cfg demo_ext "расскажите про B")
       car_intents = false
  /\ is_intent (classify_intent demo_cfg demo_ext "расскажите про B") YES
     = false
  /\ fst (process demo_cfg demo_ext "расскажите про B"
            (session WAITING_FOR_INTENT (Some "A") None [] []))
     = Ok (Some "Что хотите узнать про B: цену, характеристики или тест-драйв?")
  /\ current_car (ud (snd (process demo_cfg demo_ext "расскажите про B"
                             (session WAITING_FOR_INTENT (Some "A") None
                                [] []))))
     = Some (Some "B").
Proof.
  do 5 (split; [reflexivity |]).
  destruct (process_waiting_for_intent_other demo_cfg demo_ext
              "расскажите про B"
              (session WAITING_FOR_INTENT (Some "A") None [] [])
              eq_refl eq_refl eq_refl eq_refl eq_refl) as (_ & _ & H).
  destruct (H eq_refl) as (H1 & _ & H3).
  split; [exact H1 | exact H3].
Defined.

(** ** The end of every turn that returns *)

Lemma handle_filter_cars_stats cfg ext price car_category s0 :
  stats (ud (snd (_handle_filter_cars cfg ext price car_category s0)))
  = stats (ud s0).
Proof.
  assert (K : keeps (fun u => stats u = stats (ud s0))
                (_handle_filter_cars cfg ext price car_category) any).
  { apply keeps_handle_filter_cars with (V := any); auto;
      intros; exact Logic.I. }
  exact (proj1 (K s0 eq_refl)).
Qed.

(** A turn that returns ended with [_update_context] for the reply and one
    [stats.add]; before them the counters were those of the start. *)
Lemma process_Ok_inv cfg ext replica s reply s2 :
  process cfg ext replica s = (Ok reply, s2) ->
  exists s1 intent,
    s2 = snd (Stats_add
                (ResponseType_value
                   (if negb (is_meaningful_text ext replica) then FAILURE
                    else if int_truthy (extract_price ext replica) then INTENT
                    else if truthy (classify_intent cfg ext replica)
                         then INTENT
                    else if str_in "dialogues.txt" (the_str reply)
                         then GENERATE
                    else FAILURE))
                (snd (_update_context cfg replica reply intent s1)))
    /\ stats (ud s1) = stats (ud (snd (Stats_new s))).
Proof.
  intros Hrun.
  destruct (is_meaningful_text ext replica) eqn:Hm; cbn [negb].
  2:{ rewrite (process_not_meaningful cfg ext replica s Hm) in Hrun.
      pose proof (get_failure_phrase_ud cfg ext replica (snd (Stats_new s)))
        as Hud.
      unfold bind at 1 in Hrun.
      destruct (get_failure_phrase cfg ext replica (snd (Stats_new s)))
        as [[answer | e] s1]; [| discriminate Hrun].
      cbn [snd] in Hud. injection Hrun as <- <-.
      exists s1, None. split; [reflexivity | now rewrite Hud]. }
  destruct (int_truthy (extract_price ext replica)) eqn:Hp.
  { rewrite (process_price cfg ext replica s Hm Hp) in Hrun.
    pose proof (handle_filter_cars_stats cfg ext (extract_price ext replica)
                  (extract_car_category ext replica) (snd (Stats_new s)))
      as Hst.
    unfold bind at 1 in Hrun.
    destruct (_handle_filter_cars cfg ext (extract_price ext replica)
                (extract_car_category ext replica) (snd (Stats_new s)))
      as [[answer | e] s1]; [| discriminate Hrun].
    cbn [snd] in Hst. injection Hrun as <- <-.
    exists s1, (Some (Intent_value FILTER_CARS)). split; [reflexivity | exact Hst]. }
  pose proof (dispatch_stats cfg ext replica (snd (Stats_new s))) as Hst.
  destruct (dispatch cfg ext replica (snd (Stats_new s))) as [[a | e] s1]
    eqn:Hd; cbn [snd] in Hst.
  2:{ rewrite (process_dispatch_raises cfg ext replica s e s1 Hm Hp Hd) in Hrun.
      discriminate Hrun. }
  assert (Ha : truthy (classify_intent cfg ext replica) = true \/ a <> None).
  { destruct (truthy (classify_intent cfg ext replica)) eqn:Hc; [now left |].
    right. intros ->.
    rewrite (process_dispatch cfg ext replica s Hm Hp) in Hrun.
    rewrite (bind_ok _ _ _ _ _ Hd) in Hrun.
    unfold bind, outcome_of in Hrun. cbn in Hrun. rewrite Hc in Hrun.
    cbn in Hrun. discriminate Hrun. }
  rewrite (process_after_dispatch cfg ext replica s a s1 Hm Hp Hd Ha) in Hrun.
  injection Hrun as <- <-. exists s1, None. split; [reflexivity | exact Hst].
Qed.

(** X7. Which counter a returning turn increments, read off [process]: the
    failure counter for an utterance that is not meaningful; the intent
    counter when a price was extracted; otherwise the intent counter when
    [classify_intent] gives an intent for the utterance, whatever handler
    wrote the reply; otherwise the counter of retrieved answers when the
    reply contains the text "dialogues.txt", and the failure counter when
    it does not. The two other counters keep their values. *)
Theorem process_tally cfg ext replica s reply s2 :
  process cfg ext replica s = (Ok reply, s2) ->
  let kind :=
    if negb (is_meaningful_text ext replica) then FAILURE
    else if int_truthy (extract_price ext replica) then INTENT
    else if truthy (classify_intent cfg ext replica) then INTENT
    else if str_in "dialogues.txt" (the_str reply) then GENERATE
    else FAILURE in
  forall k,
    counter k (ud s2)
    = if bool_decide (k = kind) then S (counter k (ud s))
      else counter k (ud s).
Proof.
  intros Hrun kind k.
  destruct (process_Ok_inv cfg ext replica s reply s2 Hrun)
    as (s1 & intent & -> & Hst).
  fold kind. rewrite counter_Stats_add, counter_update_context.
  assert (Hs : counter k (ud s1) = counter k (ud s)).
  { unfold counter at 1. rewrite Hst. apply counter_Stats_new. }
  now rewrite Hs.
Qed.

(** On the small catalog: a greeting in a session that has not spoken yet. *)
Lemma process_tally_witness :
  process demo_cfg demo_ext "привет" (fresh [0%N; 0%N])
  = (Ok (Some "Здравствуйте! Кстати, у нас есть A — отличный выбор!"),
     snd (process demo_cfg demo_ext "привет" (fresh [0%N; 0%N])))
  /\ counter INTENT
       (ud (snd (process demo_cfg demo_ext "привет" (fresh [0%N; 0%N]))))
     = 1%nat
  /\ counter FAILURE
       (ud (snd (process demo_cfg demo_ext "привет" (fresh [0%N; 0%N]))))
     = 0%nat.
Proof.
  assert (H : process demo_cfg demo_ext "привет" (fresh [0%N; 0%N])
              = (Ok (Some "Здравствуйте! Кстати, у нас есть A — отличный выбор!"),
                 snd (process demo_cfg demo_ext "привет" (fresh [0%N; 0%N]))))
    by (apply injective_projections; [vm_compute; reflexivity | reflexivity]).
  split; [exact H |].
  pose proof (process_tally demo_cfg demo_ext "привет" (fresh [0%N; 0%N])
                _ _ H) as T.
  split; [exact (T INTENT) | exact (T FAILURE)].
Defined.

(** X8. After a turn that returns, the five keys of the session are
    present and ['last_bot_response'] holds the reply of the turn. *)
Theorem process_initializes cfg ext replica s reply s2 :
  process cfg ext replica s = (Ok reply, s2) ->
  last_bot_response (ud s2) = Some reply
  /\ is_Some (state (ud s2))
  /\ is_Some (current_car (ud s2))
  /\ is_Some (last_intent (ud s2))
  /\ is_Some (history (ud s2)).
Proof.
  intros Hrun.
  destruct (process_Ok_inv cfg ext replica s reply s2 Hrun)
    as (s1 & intent & -> & _).
  unfold Stats_add, _update_context, modify_ud. cbn [snd ud].
  destruct (truthy intent); cbn; repeat split; eauto.
Qed.

(** On the small catalog: an utterance that is not meaningful in a session
    that has not spoken yet. *)
Lemma process_initializes_witness :
  process demo_cfg demo_ext "..." (fresh [0%N; 0%N])
  = (Ok (Some "Не понял. Может, посмотрите A?"),
     snd (process demo_cfg demo_ext "..." (fresh [0%N; 0%N])))
  /\ last_bot_response
       (ud (snd (process demo_cfg demo_ext "..." (fresh [0%N; 0%N]))))
     = Some (Some "Не понял. Может, посмотрите A?")
  /\ is_Some (history
                (ud (snd (process demo_cfg demo_ext "..."
                            (fresh [0%N; 0%N]))))).
Proof.
  assert (H : process demo_cfg demo_ext "..." (fresh [0%N; 0%N])
              = (Ok (Some "Не понял. Может, посмотрите A?"),
                 snd (process demo_cfg demo_ext "..." (fresh [0%N; 0%N]))))
    by (apply injective_projections; [vm_compute; reflexivity | reflexivity]).
  split; [exact H |].
  destruct (process_initializes demo_cfg demo_ext "..." (fresh [0%N; 0%N])
              _ _ H) as (H1 & _ & _ & _ & H5).
  split; [exact H1 | exact H5].
Defined.

(** ** Counting over a conversation *)

(** X9. Over any conversation the three counters only grow, and their sum
    grows by exactly the number of turns that returned: a turn that raises
    is not counted at all. *)
Theorem counters_over_turns cfg ext texts s :
  total_count (ud (turns cfg ext texts s))
  = (total_count (ud s) + returned cfg ext texts s)%nat
  /\ forall k, (counter k (ud s) <= counter k (ud (turns cfg ext texts s)))%nat.
Proof.
  revert s. induction texts as [|replica texts IH]; intros s.
  - simpl. split; [lia | auto].
  - change (turns cfg ext (replica :: texts) s)
      with (turns cfg ext texts (snd (process cfg ext replica s))).
    destruct (IH (snd (process cfg ext replica s))) as [IH1 IH2].
    pose proof (process_counts_once cfg ext replica s) as H.
    cbn [returned].
    destruct (process cfg ext replica s) as [[reply | e] s1]; cbn [fst snd] in *.
    + destruct H as (k0 & H).
      assert (Ht : total_count (ud s1) = S (total_count (ud s))).
      { unfold total_count. rewrite (H INTENT), (H GENERATE), (H FAILURE).
        destruct k0; repeat case_bool_decide; try congruence; lia. }
      split; [lia |].
      intros k. specialize (IH2 k). specialize (H k).
      case_bool_decide; lia.
    + assert (Ht : total_count (ud s1) = total_count (ud s))
        by (unfold total_count; now rewrite !H).
      split; [lia |]. intros k. specialize (IH2 k). rewrite H in IH2. exact IH2.
Qed.

(** ** A vehicle that was just mentioned *)

Lemma last_in_slice {A} (n : Z) (l : list A) (x : A) :
  0 < n -> In x (slice_from (- n) (l ++ [x])%list).
Proof.
  intros Hn. rewrite slice_from_last by exact Hn.
  rewrite length_app. simpl.
  replace (length l + 1 - Z.to_nat n)%nat
    with (length l - (Z.to_nat n - 1))%nat by lia.
  rewrite drop_app_le by lia.
  apply in_or_app. right. now left.
Qed.

(** X10. With a positive ['history_limit'], the vehicle named in an utterance
    whose turn returned is left out by the filter on the next turn: if that
    turn carries a price, its reply is the listing of the vehicles of the
    filter, and the vehicle is not among them. *)
Theorem filter_skips_last_mentioned cfg ext replica1 replica2 s reply1 s1 c p :
  0 < history_limit cfg ->
  process cfg ext replica1 s = (Ok reply1, s1) ->
  extract_car_name ext replica1 = Some c ->
  is_meaningful_text ext replica2 = true ->
  extract_price ext replica2 = Some p ->
  0 < p ->
  let found :=
    suitable_cars_of cfg ext (Some p) (extract_car_category ext replica2)
      (ud s1) in
  ~ In c found
  /\ fst (process cfg ext replica2 s1)
     = Ok (Some (listing (Some p) (extract_car_category ext replica2) found)).
Proof.
  intros Hlimit Hrun1 Hc Hm Hp Hpos found.
  pose proof (process_history cfg ext replica1 s) as Hh. cbv zeta in Hh.
  rewrite Hrun1 in Hh. cbn [fst snd] in Hh.
  split.
  - intros Hin. apply suitable_cars_admissible in Hin.
    destruct Hin as (data & _ & _ & _ & Hrecent).
    apply (Hrecent replica1); [| exact Hc].
    rewrite Hh. cbn [default]. now apply last_in_slice.
  - assert (Hpt : int_truthy (extract_price ext replica2) = true).
    { rewrite Hp. simpl. destruct (Z.eqb_spec p 0); [lia | reflexivity]. }
    rewrite (process_price cfg ext replica2 s1 Hm Hpt), Hp.
    assert (Hex : int_truthy (Some p)
                  || truthy (extract_car_category ext replica2) = true)
      by (rewrite Hp in Hpt; now rewrite Hpt).
    rewrite (bind_ok _ _ _ _ _
               (handle_filter_cars_listing cfg ext (Some p)
                  (extract_car_category ext replica2)
                  (snd (Stats_new s1)) Hex)).
    cbn [fst bind ret _update_context Stats_add modify_ud].
    do 3 f_equal. apply suitable_cars_of_history.
    now destruct (Stats_new_fields s1) as (_ & _ & _ & _ & H & _).
Qed.

(** On the small catalog: vehicle A is named, then a ceiling of 1500000 is
    asked for; A costs less and is left out all the same. *)
Lemma filter_skips_last_mentioned_witness :
  0 < history_limit demo_cfg
  /\ process demo_cfg demo_ext "A" (fresh [])
     = (Ok (Some "Вы имеете в виду A? Хотите узнать цену, характеристики или тест-драйв?"),
        snd (process demo_cfg demo_ext "A" (fresh [])))
  /\ extract_car_name demo_ext "A" = Some "A"
  /\ is_meaningful_text demo_ext "машины до 1500000" = true
  /\ extract_price demo_ext "машины до 1500000" = Some 1500000
  /\ ~ In "A"
         (suitable_cars_of demo_cfg demo_ext (Some 1500000)
            (extract_car_category demo_ext "машины до 1500000")
            (ud (snd (process demo_cfg demo_ext "A" (fresh [])))))
  /\ fst (process demo_cfg demo_ext "машины до 1500000"
            (snd (process demo_cfg demo_ext "A" (fresh []))))
     = Ok (Some (listing (Some 1500000)
                   (extract_car_category demo_ext "машины до 1500000")
                   (suitable_cars_of demo_cfg demo_ext (Some 1500000)
                      (extract_car_category demo_ext "машины до 1500000")
                      (ud (snd (process demo_cfg demo_ext "A" (fresh []))))))).
Proof.
  assert (H : process demo_cfg demo_ext "A" (fresh [])
              = (Ok (Some "Вы имеете в виду A? Хотите узнать цену, характеристики или тест-драйв?"),
                 snd (process demo_cfg demo_ext "A" (fresh []))))
    by (apply injective_projections; [vm_compute; reflexivity | reflexivity]).
  split; [reflexivity |]. split; [exact H |].
  do 3 (split; [reflexivity |]).
  exact (filter_skips_last_mentioned demo_cfg demo_ext "A"
           "машины до 1500000" (fresh []) _ _ "A" 1500000
           eq_refl H eq_refl eq_refl eq_refl eq_refl).
Defined.

(** ** State NONE: a vehicle or a category in the utterance *)

(** X11. In state NONE (or without a state yet), for a meaningful utterance
    without a price: a vehicle name extracted from the utterance is taken
    as the current vehicle before any classification and without a look
    at the catalog, and the session waits for an intent; else a category
    with vehicles gives one of them; else a category without vehicles is
    reported and the session stays as it was. *)
Theorem process_none_slots cfg ext replica s :
  is_meaningful_text ext replica = true ->
  int_truthy (extract_price ext replica) = false ->
  default (BotState_value NONE) (state (ud s)) = BotState_value NONE ->
  let r := process cfg ext replica s in
  let name := extract_car_name ext replica in
  let category := extract_car_category ext replica in
  (truthy name = true ->
   fst r = Ok (Some ("Вы имеете в виду " ++ py_str name
                     ++ "? Хотите узнать цену, характеристики или тест-драйв?"
                     ++ suffix ext replica
                          " Рад, что ты в хорошем настроении! 😊"
                          " Кажется, ты не в духе. Давай найдем авто? 😊"))
   /\ state (ud (snd r)) = Some (BotState_value WAITING_FOR_INTENT)
   /\ current_car (ud (snd r)) = Some name
   /\ tape (snd r) = tape s)
  /\ (truthy name = false -> truthy category = true ->
      cars_of_category cfg (the_str category) = [] ->
      fst r = Ok (Some ("У нас нет машин в категории " ++ py_str category
                        ++ ". Попробуйте другую категорию!"
                        ++ suffix ext replica
                             " В хорошем настроении? Давай попробуем другую категорию! 😊"
                             " Не переживай, попробуем другую категорию! 😊"))
      /\ state (ud (snd r)) = Some (BotState_value NONE)
      /\ current_car (ud (snd r)) = Some (default None (current_car (ud s)))
      /\ tape (snd r) = tape s)
  /\ (truthy name = false -> truthy category = true ->
      cars_of_category cfg (the_str category) <> [] ->
      exists c,
        In c (cars_of_category cfg (the_str category))
        /\ fst r = Ok (Some ("Из " ++ py_str category ++ " есть " ++ c
                             ++ ". Хотите узнать цену, характеристики или тест-драйв?"
                             ++ suffix ext replica
                                  " Ты в отличном настроении, давай продолжим! 😊"
                                  " Не грусти, найдем машину! 😊"))
        /\ state (ud (snd r)) = Some (BotState_value WAITING_FOR_INTENT)
        /\ current_car (ud (snd r)) = Some (Some c)).
Proof.
  intros Hm Hp Hst r name category.
  destruct (Stats_new_fields s) as (F1 & F2 & _ & _ & _ & F6).
  set (s0 := snd (Stats_new s)) in *.
  assert (Hd : dispatch cfg ext replica s0
               = _process_none_state cfg ext replica s0)
    by (apply dispatch_none; now rewrite F1).
  split; [| split].
  - intros Hn.
    assert (Hh : _process_none_state cfg ext replica s0
                 = (Ok (Some ("Вы имеете в виду " ++ py_str name
                     ++ "? Хотите узнать цену, характеристики или тест-драйв?"
                     ++ suffix ext replica
                          " Рад, что ты в хорошем настроении! 😊"
                          " Кажется, ты не в духе. Давай найдем авто? 😊")),
                    {| ud := set_state (BotState_value WAITING_FOR_INTENT)
                               (set_current_car name (ud s0));
                       tape := tape s0 |})).
    { unfold _process_none_state. fold name. rewrite Hn. reflexivity. }
    rewrite Hh in Hd.
    destruct (process_via_dispatch cfg ext replica s _ _ Hm Hp Hd)
      as (P1 & P2 & P3 & _ & _ & P6 & _); [right; discriminate |].
    fold r in P1, P2, P3, P6. rewrite P1, P2, P3, P6. cbn. auto.
  - intros Hn Hc Hnil.
    assert (Hh : _process_none_state cfg ext replica s0
                 = (Ok (Some ("У нас нет машин в категории " ++ py_str category
                        ++ ". Попробуйте другую категорию!"
                        ++ suffix ext replica
                             " В хорошем настроении? Давай попробуем другую категорию! 😊"
                             " Не переживай, попробуем другую категорию! 😊")),
                    s0)).
    { unfold _process_none_state. fold name. rewrite Hn. cbv zeta.
      fold category. rewrite Hc, Hnil. reflexivity. }
    rewrite Hh in Hd.
    destruct (process_via_dispatch cfg ext replica s _ _ Hm Hp Hd)
      as (P1 & P2 & P3 & _ & _ & P6 & _); [right; discriminate |].
    fold r in P1, P2, P3, P6. rewrite P1, P2, P3, P6, F1, F2, F6, Hst. auto.
  - intros Hn Hc Hcars.
    destruct (cars_of_category cfg (the_str category)) as [|c0 l] eqn:E;
      [congruence |].
    destruct (random_choice_cases (c0 :: l) s0)
      as [[Hnil _] | (x & s' & Hr & Hin & Hu)]; [discriminate Hnil |].
    assert (Hh : _process_none_state cfg ext replica s0
                 = (Ok (Some ("Из " ++ py_str category ++ " есть " ++ x
                             ++ ". Хотите узнать цену, характеристики или тест-драйв?"
                             ++ suffix ext replica
                                  " Ты в отличном настроении, давай продолжим! 😊"
                                  " Не грусти, найдем машину! 😊")),
                    {| ud := set_state (BotState_value WAITING_FOR_INTENT)
                               (set_current_car (Some x) (ud s'));
                       tape := tape s' |})).
    { unfold _process_none_state. fold name. rewrite Hn. cbv zeta.
      fold category. rewrite Hc, E. unfold offer_from_category.
      unfold bind at 1. rewrite (bind_ok _ _ _ _ _ Hr). reflexivity. }
    rewrite Hh in Hd.
    destruct (process_via_dispatch cfg ext replica s _ _ Hm Hp Hd)
      as (P1 & P2 & P3 & _); [right; discriminate |].
    fold r in P1, P2, P3. exists x. rewrite P1, P2, P3. cbn. auto.
Qed.

(** On the small catalog: "A" in a session that has not spoken yet. *)
Lemma process_none_slots_witness :
  is_meaningful_text demo_ext "A" = true
  /\ int_truthy (extract_price demo_ext "A") = false
  /\ default (BotState_value NONE) (state (ud (fresh [])))
     = BotState_value NONE
  /\ state (ud (snd (process demo_cfg demo_ext "A" (fresh []))))
     = Some (BotState_value WAITING_FOR_INTENT)
  /\ current_car (ud (snd (process demo_cfg demo_ext "A" (fresh []))))
     = Some (Some "A").
Proof.
  do 3 (split; [reflexivity |]).
  destruct (process_none_slots demo_cfg demo_ext "A" (fresh [])
              eq_refl eq_refl eq_refl) as (H & _).
  destruct (H eq_refl) as (_ & H2 & H3 & _).
  split; [exact H2 | exact H3].
Defined.

(** ** State NONE: an intent *)

(** X12. In state NONE, when the utterance (meaningful, without price,
    vehicle name or category) classifies to an intent that is not
    configured or has no template, [process] returns [None] instead of a
    reply text: ['last_bot_response'] becomes [None], the turn is counted
    as INTENT, and nothing else of the session changes. *)
Theorem process_without_template cfg ext replica s k :
  is_meaningful_text ext replica = true ->
  int_truthy (extract_price ext replica) = false ->
  default (BotState_value NONE) (state (ud s)) = BotState_value NONE ->
  truthy (extract_car_name ext replica) = false ->
  truthy (extract_car_category ext replica) = false ->
  classify_intent cfg ext replica = Some k ->
  str_truthy k = true ->
  match dict_get k (intents cfg) with
  | Some idata => id_responses idata = []
  | None => True
  end ->
  let r := process cfg ext replica s in
  fst r = Ok None
  /\ last_bot_response (ud (snd r)) = Some None
  /\ state (ud (snd r)) = Some (BotState_value NONE)
  /\ current_car (ud (snd r)) = Some (default None (current_car (ud s)))
  /\ last_intent (ud (snd r)) = Some (default None (last_intent (ud s)))
  /\ tape (snd r) = tape s
  /\ counter INTENT (ud (snd r)) = S (counter INTENT (ud s)).
Proof.
  intros Hm Hp Hst Hn Hc Hcls Hk Hresp r.
  destruct (Stats_new_fields s) as (F1 & F2 & _ & F4 & _ & F6).
  set (s0 := snd (Stats_new s)) in *.
  assert (Hd : dispatch cfg ext replica s0 = (Ok None, s0)).
  { rewrite dispatch_none by (now rewrite F1).
    unfold _process_none_state. rewrite Hn. cbv zeta. rewrite Hc, Hcls.
    change (the_str (Some k)) with k. cbn [truthy]. rewrite Hk.
    unfold get_answer_by_intent.
    rewrite (bind_ok _ _ s0 (ud s0) s0) by reflexivity. cbv zeta.
    destruct (dict_get k (intents cfg)) as [idata|]; [| reflexivity].
    now rewrite Hresp. }
  destruct (process_via_dispatch cfg ext replica s None s0 Hm Hp Hd)
    as (P1 & P2 & P3 & P4 & P5 & P6 & P7).
  { left. rewrite Hcls. exact Hk. }
  fold r in P1, P2, P3, P4, P5, P6, P7.
  rewrite P1, P2, P3, P4, P5, P6, F1, F2, F4, F6, Hst.
  repeat (split; [reflexivity |]).
  rewrite (P7 INTENT), Hcls. cbn [truthy]. rewrite Hk.
  now rewrite bool_decide_eq_true_2.
Qed.

(** On the catalog of one vehicle: "пока" is classified as "bye", which has
    no template. *)
Lemma process_without_template_witness :
  is_meaningful_text demo_ext "пока" = true
  /\ int_truthy (extract_price demo_ext "пока") = false
  /\ default (BotState_value NONE) (state (ud (fresh [])))
     = BotState_value NONE
  /\ truthy (extract_car_name demo_ext "пока") = false
  /\ truthy (extract_car_category demo_ext "пока") = false
  /\ classify_intent demo_single_cfg demo_ext "пока" = Some "bye"
  /\ fst (process demo_single_cfg demo_ext "пока" (fresh [])) = Ok None
  /\ last_bot_response
       (ud (snd (process demo_single_cfg demo_ext "пока" (fresh []))))
     = Some None.
Proof.
  do 6 (split; [reflexivity |]).
  destruct (process_without_template demo_single_cfg demo_ext "пока"
              (fresh []) "bye"
              eq_refl eq_refl eq_refl eq_refl eq_refl eq_refl eq_refl
              eq_refl) as (H1 & H2 & _).
  split; [exact H1 | exact H2].
Defined.

Lemma intent_among_truthy i l :
  intent_among (Some i) l = true -> str_truthy i = true.
Proof.
  unfold intent_among, is_intent. intros H.
  apply existsb_exists in H as (x & _ & H).
  apply bool_decide_eq_true in H. injection H as ->. now destruct x.
Qed.

(** X13. In state NONE, when the utterance (meaningful, without price,
    vehicle name or category) classifies to one of the four intents about a
    vehicle and no vehicle can be resolved -- the session has no current
    vehicle, the last reply carries no mention "Кстати, у нас есть" and the
    last intent is not "car_types" -- the reply asks which vehicle is meant
    and the session waits for a vehicle. *)
Theorem process_asks_for_car cfg ext replica s i idata :
  is_meaningful_text ext replica = true ->
  int_truthy (extract_price ext replica) = false ->
  default (BotState_value NONE) (state (ud s)) = BotState_value NONE ->
  truthy (extract_car_name ext replica) = false ->
  truthy (extract_car_category ext replica) = false ->
  classify_intent cfg ext replica = Some i ->
  intent_among (Some i) car_intents = true ->
  dict_get i (intents cfg) = Some idata ->
  id_responses idata <> [] ->
  truthy (get_or_none (current_car (ud s))) = false ->
  truthy (get_or EmptyString (last_bot_response (ud s)))
  && str_in "Кстати, у нас есть"
       (the_str (get_or EmptyString (last_bot_response (ud s)))) = false ->
  is_intent (get_or EmptyString (last_intent (ud s))) CAR_TYPES = false ->
  let r := process cfg ext replica s in
  fst r = Ok (Some ("Какую машину или категорию вы имеете в виду?"
                    ++ suffix ext replica
                         " Рад, что вы в хорошем настроении! 😊"
                         " Кажется, вы не в духе. Давайте подберем авто! 😊"))
  /\ state (ud (snd r)) = Some (BotState_value WAITING_FOR_CAR)
  /\ current_car (ud (snd r)) = Some (default None (current_car (ud s)))
  /\ counter INTENT (ud (snd r)) = S (counter INTENT (ud s)).
Proof.
  intros Hm Hp Hst Hn Hc Hcls Hamong Hget Hresp Hcar Hmark Hli r.
  pose proof (intent_among_truthy i car_intents Hamong) as Hi.
  destruct (Stats_new_fields s) as (F1 & F2 & F3 & F4 & _).
  set (s0 := snd (Stats_new s)) in *.
  destruct (id_responses idata) as [|t0 tl] eqn:E; [congruence |].
  destruct (random_choice_cases (t0 :: tl) s0)
    as [[Hnil _] | (x & s' & Hr & Hin & Hu)]; [discriminate Hnil |].
  assert (Hfind : _find_car_by_context cfg ext replica s' = (Ok None, s')).
  { unfold _find_car_by_context.
    rewrite (bind_ok _ _ s' (ud s') s') by reflexivity. cbv zeta.
    rewrite Hu, F3, F4, Hmark, Hc, Hli. reflexivity. }
  assert (Hd : dispatch cfg ext replica s0
               = (Ok (Some ("Какую машину или категорию вы имеете в виду?"
                    ++ suffix ext replica
                         " Рад, что вы в хорошем настроении! 😊"
                         " Кажется, вы не в духе. Давайте подберем авто! 😊")),
                  {| ud := set_state (BotState_value WAITING_FOR_CAR) (ud s');
                     tape := tape s' |})).
  { rewrite dispatch_none by (now rewrite F1).
    unfold _process_none_state. rewrite Hn. cbv zeta. rewrite Hc, Hcls.
    change (the_str (Some i)) with i. cbn [truthy]. rewrite Hi.
    unfold get_answer_by_intent.
    rewrite (bind_ok _ _ s0 (ud s0) s0) by reflexivity. cbv zeta.
    rewrite Hget, E, (bind_ok _ _ _ _ _ Hr), Hamong, F2, Hcar.
    cbn [negb]. rewrite (bind_ok _ _ _ _ _ Hfind). reflexivity. }
  destruct (process_via_dispatch cfg ext replica s _ _ Hm Hp Hd)
    as (P1 & P2 & P3 & _ & _ & _ & P7); [right; discriminate |].
  fold r in P1, P2, P3, P7. rewrite P1, P2, P3. cbn [ud state current_car set_state default].
  rewrite Hu, F2.
  repeat (split; [reflexivity |]).
  rewrite (P7 INTENT), Hcls. cbn [truthy]. rewrite Hi.
  now rewrite bool_decide_eq_true_2.
Qed.

(** On the small catalog: the price asked in a session that has not spoken
    yet. *)
Lemma process_asks_for_car_witness :
  is_meaningful_text demo_ext "сколько стоит" = true
  /\ int_truthy (extract_price demo_ext "сколько стоит") = false
  /\ classify_intent demo_cfg demo_ext "сколько стоит" = Some "car_price"
  /\ intent_among (Some "car_price") car_intents = true
  /\ fst (process demo_cfg demo_ext "сколько стоит" (fresh [0%N]))
     = Ok (Some "Какую машину или категорию вы имеете в виду?")
  /\ state (ud (snd (process demo_cfg demo_ext "сколько стоит"
                       (fresh [0%N]))))
     = Some (BotState_value WAITING_FOR_CAR).
Proof.
  do 4 (split; [reflexivity |]).
  destruct (process_asks_for_car demo_cfg demo_ext "сколько стоит"
              (fresh [0%N]) "car_price"
              {| id_examples := Some ["сколько стоит"];
                 id_responses := ["[car_name] стоит [price] рублей."] |}
              eq_refl eq_refl eq_refl eq_refl eq_refl eq_refl eq_refl
              eq_refl) as (H1 & H2 & _);
    [discriminate | reflexivity | reflexivity | reflexivity |].
  split; [exact H1 | exact H2].
Defined.

(** ** Commands and the first answer *)

Lemma sample_go_cases {A} k (pool : list A) s :
  (k <= length pool)%nat ->
  exists xs s',
    sample_go k pool s = (Ok xs, s')
    /\ length xs = k
    /\ (forall x, In x xs -> In x pool)
    /\ ud s' = ud s.
Proof.
  revert pool s. induction k as [|k IH]; intros pool s Hk.
  - exists [], s. repeat split; auto. intros x [].
  - destruct pool as [|x0 pool]; [simpl in Hk; lia |].
    cbn [sample_go].
    destruct (draw_ud s) as (n & s1 & Hd & Hu1).
    rewrite (bind_ok _ _ _ _ _ Hd).
    set (j := N.to_nat (n mod N.of_nat (length (x0 :: pool)))).
    assert (Hj : (j < length (x0 :: pool))%nat).
    { subst j.
      assert (n mod N.of_nat (length (x0 :: pool))
              < N.of_nat (length (x0 :: pool)))%N
        by (apply N.mod_lt; simpl; lia).
      lia. }
    destruct (IH (delete j (x0 :: pool)) s1) as (xs & s2 & Hgo & Hlen & Hin & Hu2).
    { rewrite length_delete by (now apply lookup_lt_is_Some).
      simpl in *. lia. }
    rewrite (bind_ok _ _ _ _ _ Hgo).
    exists (nth j (x0 :: pool) x0 :: xs), s2.
    repeat split.
    + simpl. now rewrite Hlen.
    + intros x [<- | Hx].
      * now apply nth_In.
      * apply list_elem_of_In. eapply list_elem_of_delete_inv.
        apply list_elem_of_In. exact (Hin x Hx).
    + congruence.
Qed.

(** [random.sample] raises exactly when the sample is larger than the
    population; otherwise it yields that many items of the population and
    leaves the session as it was. *)
Lemma random_sample_cases {A} (l : list A) k s :
  ((length l < k)%nat /\ random_sample l k s = (Raise ValueError, s))
  \/ ((k <= length l)%nat
      /\ exists xs s',
           random_sample l k s = (Ok xs, s')
           /\ length xs = k
           /\ (forall x, In x xs -> In x l)
           /\ ud s' = ud s).
Proof.
  unfold random_sample.
  destruct (Nat.ltb_spec (length l) k) as [H | H]; [left; auto | right].
  split; [exact H |]. now apply sample_go_cases.
Qed.

(** X14. The first "yes" after /start. [start_command] leaves "hello" as the
    last intent; if the next utterance (meaningful, without price, vehicle
    name or category, in state NONE) classifies as "yes" and that intent
    has templates, the reply lists a sample of min(3, number of vehicles)
    category tags of the catalog and the last intent becomes "yes". When the
    catalog holds fewer category tags than that, the turn raises
    [ValueError]. *)
Theorem process_yes_after_start cfg ext start_message replica s idata :
  is_meaningful_text ext replica = true ->
  int_truthy (extract_price ext replica) = false ->
  default (BotState_value NONE) (state (ud s)) = BotState_value NONE ->
  truthy (extract_car_name ext replica) = false ->
  truthy (extract_car_category ext replica) = false ->
  classify_intent cfg ext replica = Some (Intent_value YES) ->
  dict_get (Intent_value YES) (intents cfg) = Some idata ->
  id_responses idata <> [] ->
  let r := process cfg ext replica (snd (start_command start_message s)) in
  let k := Nat.min 3 (length (cars cfg)) in
  ((length (all_categories cfg) < k)%nat -> fst r = Raise ValueError)
  /\ ((k <= length (all_categories cfg))%nat ->
      exists categories,
        length categories = k
        /\ (forall c, In c categories -> In c (all_categories cfg))
        /\ fst r = Ok (Some ("Отлично! У нас есть "
                             ++ join ", " (set_iter ext categories)
                             ++ ". Что хотите узнать?"
                             ++ suffix ext replica
                                  " Рад, что вы в хорошем настроении! 😊"
                                  " Кажется, вы не в духе. Давайте подберем авто! 😊"))
        /\ last_intent (ud (snd r)) = Some (Some (Intent_value YES))).
Proof.
  intros Hm Hp Hst Hn Hc Hcls Hget Hresp r k.
  set (s' := snd (start_command start_message s)) in *.
  destruct (Stats_new_fields s') as (F1 & _ & _ & F4 & _).
  set (s0 := snd (Stats_new s')) in *.
  assert (G1 : state (ud s0) = state (ud s)) by (rewrite F1; reflexivity).
  assert (G4 : last_intent (ud s0) = Some (Some (Intent_value HELLO)))
    by (rewrite F4; reflexivity).
  destruct (id_responses idata) as [|t0 tl] eqn:E; [congruence |].
  destruct (random_choice_cases (t0 :: tl) s0)
    as [[Hnil _] | (x & s1 & Hr & Hin & Hu)]; [discriminate Hnil |].
  set (sfx := suffix ext replica " Рад, что вы в хорошем настроении! 😊"
                " Кажется, вы не в духе. Давайте подберем авто! 😊").
  assert (Hd : dispatch cfg ext replica s0
               = (categories <- random_sample (all_categories cfg) k ;;
                  finish_answer cfg (Intent_value YES)
                    (get_or_none (current_car (ud s0))) sfx
                    ("Отлично! У нас есть "
                     ++ join ", " (set_iter ext categories)
                     ++ ". Что хотите узнать?" ++ sfx)) s1).
  { rewrite dispatch_none by (now rewrite G1).
    unfold _process_none_state. rewrite Hn. cbv zeta. rewrite Hc, Hcls.
    change (the_str (Some (Intent_value YES))) with (Intent_value YES).
    change (truthy (Some (Intent_value YES))) with true. cbv iota.
    unfold get_answer_by_intent.
    rewrite (bind_ok _ _ s0 (ud s0) s0) by reflexivity. cbv zeta.
    rewrite Hget, E, (bind_ok _ _ _ _ _ Hr), G4.
    reflexivity. }
  destruct (random_sample_cases (all_categories cfg) k s1)
    as [[Hlt Hs] | (Hle & xs & s2 & Hs & Hlen & Hsub & Hu2)].
  - split; [| intros H; lia]. intros _.
    rewrite (bind_raise _ _ _ _ _ Hs) in Hd.
    subst r. now rewrite (process_dispatch_raises cfg ext replica s' _ _ Hm Hp Hd).
  - split; [intros H; lia |]. intros _.
    rewrite (bind_ok _ _ _ _ _ Hs) in Hd.
    assert (Hf : forall answer,
              finish_answer cfg (Intent_value YES)
                (get_or_none (current_car (ud s0))) sfx answer s2
              = (Ok (Some answer),
                 {| ud := set_last_intent (Some (Intent_value YES)) (ud s2);
                    tape := tape s2 |})) by reflexivity.
    rewrite Hf in Hd.
    destruct (process_via_dispatch cfg ext replica s' _ _ Hm Hp Hd)
      as (P1 & _ & _ & _ & P5 & _); [right; discriminate |].
    fold r in P1, P5. exists xs. rewrite P1, P5. auto.
Qed.

(** On the small catalog: "да" after /start; two vehicles and two category
    tags. *)
Lemma process_yes_after_start_witness :
  is_meaningful_text demo_ext "да" = true
  /\ int_truthy (extract_price demo_ext "да") = false
  /\ classify_intent demo_cfg demo_ext "да" = Some (Intent_value YES)
  /\ (Nat.min 3 (length (cars demo_cfg))
      <= length (all_categories demo_cfg))%nat
  /\ exists categories,
       length categories = 2%nat
       /\ fst (process demo_cfg demo_ext "да"
                 (snd (start_command "Здравствуйте!" (fresh [0%N; 0%N; 0%N]))))
          = Ok (Some ("Отлично! У нас есть " ++ join ", " categories
                      ++ ". Что хотите узнать?"))
       /\ last_intent
            (ud (snd (process demo_cfg demo_ext "да"
                        (snd (start_command "Здравствуйте!"
                                (fresh [0%N; 0%N; 0%N]))))))
          = Some (Some "yes").
Proof.
  do 3 (split; [reflexivity |]).
  assert (Hk : (Nat.min 3 (length (cars demo_cfg))
                <= length (all_categories demo_cfg))%nat)
    by (vm_compute; lia).
  split; [exact Hk |].
  destruct (process_yes_after_start demo_cfg demo_ext "Здравствуйте!" "да"
              (fresh [0%N; 0%N; 0%N])
              {| id_examples := Some ["да"]; id_responses := ["Хорошо."] |}
              eq_refl eq_refl eq_refl eq_refl eq_refl eq_refl eq_refl)
    as (_ & H); [discriminate |].
  destruct (H Hk) as (categories & H1 & _ & H3 & H4).
  exists categories. split; [exact H1 |]. split; [exact H3 | exact H4].
Defined.

(** ** Voice messages *)




(** ** The failure phrase *)

(** X16. [get_failure_phrase] never changes the session. It raises
    [IndexError] exactly when the catalog or the list of failure phrases is
    empty; otherwise the phrase is one of the failure phrases with
    "[car_name]" replaced by a vehicle of the catalog, followed by the
    suffix of the sentiment. *)
Theorem get_failure_phrase_spec cfg ext replica s :
  let r := get_failure_phrase cfg ext replica s in
  ud (snd r) = ud s
  /\ (cars cfg = [] \/ failure_phrases cfg = [] -> fst r = Raise IndexError)
  /\ (cars cfg <> [] -> failure_phrases cfg <> [] ->
      exists c phrase,
        In c (dict_keys (cars cfg))
        /\ In phrase (failure_phrases cfg)
        /\ fst r
           = Ok (str_replace "[car_name]" c phrase
                 ++ suffix ext replica
                      " Ты в отличном настроении, давай найдем машину! 😊"
                      " Не переживай, подберем авто для тебя! 😊")).
Proof.
  intros r. subst r.
  split; [apply get_failure_phrase_ud |].
  unfold get_failure_phrase.
  destruct (random_choice_cases (dict_keys (cars cfg)) s)
    as [[Hnil Hr] | (c & s1 & Hr & Hin & Hu1)].
  { rewrite (bind_raise _ _ _ _ _ Hr). split; [reflexivity |].
    intros H. destruct (cars cfg); [congruence | discriminate Hnil]. }
  rewrite (bind_ok _ _ _ _ _ Hr).
  destruct (random_choice_cases (failure_phrases cfg) s1)
    as [[Hnil Hp] | (phrase & s2 & Hp & Hpin & Hu2)].
  { rewrite (bind_raise _ _ _ _ _ Hp). split; [reflexivity | congruence]. }
  rewrite (bind_ok _ _ _ _ _ Hp). split.
  - intros [H | H].
    + rewrite H in Hin. destruct Hin.
    + rewrite H in Hpin. destruct Hpin.
  - intros _ _. exists c, phrase. auto.
Qed.

(** On the small catalog. *)
Lemma get_failure_phrase_spec_witness :
  cars demo_cfg <> []
  /\ failure_phrases demo_cfg <> []
  /\ exists c phrase,
       In c (dict_keys (cars demo_cfg))
       /\ In phrase (failure_phrases demo_cfg)
       /\ fst (get_failure_phrase demo_cfg demo_ext "..." (fresh [0%N; 0%N]))
          = Ok (str_replace "[car_name]" c phrase
                ++ suffix demo_ext "..."
                     " Ты в отличном настроении, давай найдем машину! 😊"
                     " Не переживай, подберем авто для тебя! 😊").
Proof.
  assert (H1 : cars demo_cfg <> []) by discriminate.
  assert (H2 : failure_phrases demo_cfg <> []) by discriminate.
  split; [exact H1 |]. split; [exact H2 |].
  destruct (get_failure_phrase_spec demo_cfg demo_ext "..."
              (fresh [0%N; 0%N])) as (_ & _ & H).
  exact (H H1 H2).
Defined.

(** ** What the filter does to the session *)

(** X17. [_handle_filter_cars] changes the session only when it recommends:
    called with neither a price nor a category and with at least one
    suitable vehicle, it makes one of the suitable vehicles the current
    vehicle and the session waits for an intent. In every other case the
    session and the random source are as before. *)
Theorem handle_filter_cars_effect cfg ext price car_category s :
  let r := _handle_filter_cars cfg ext price car_category s in
  let found := suitable_cars_of cfg ext price car_category (ud s) in
  (int_truthy price = false -> truthy car_category = false -> found <> [] ->
   exists c,
     In c found
     /\ current_car (ud (snd r)) = Some (Some c)
     /\ state (ud (snd r)) = Some (BotState_value WAITING_FOR_INTENT)
     /\ last_intent (ud (snd r)) = last_intent (ud s)
     /\ history (ud (snd r)) = history (ud s))
  /\ (int_truthy price = true \/ truthy car_category = true \/ found = [] ->
      snd r = s).
Proof.
  intros r found. subst r. unfold _handle_filter_cars.
  rewrite (bind_ok _ _ s (ud s) s) by reflexivity. fold found.
  destruct found as [|c0 l] eqn:E.
  { split; [intros _ _ H; congruence | reflexivity]. }
  destruct (int_truthy price) eqn:Hp; cbn [negb andb].
  { split; [intros H; discriminate H | reflexivity]. }
  destruct (truthy car_category) eqn:Hc; cbn [negb].
  { split; [intros _ H; discriminate H | reflexivity]. }
  destruct (random_choice_cases (c0 :: l) s)
    as [[Hnil _] | (x & s1 & Hr & Hin & Hu)]; [discriminate Hnil |].
  rewrite (bind_ok _ _ _ _ _ Hr). split.
  - intros _ _ _. exists x. cbn. rewrite Hu. auto.
  - intros [H | [H | H]]; discriminate H.
Qed.

(** On the small catalog: a recommendation in a session that has not spoken
    yet. *)
Lemma handle_filter_cars_effect_witness :
  suitable_cars_of demo_cfg demo_ext None None (ud (fresh [0%N])) <> []
  /\ exists c,
       In c (suitable_cars_of demo_cfg demo_ext None None (ud (fresh [0%N])))
       /\ current_car
            (ud (snd (_handle_filter_cars demo_cfg demo_ext None None
                        (fresh [0%N]))))
          = Some (Some c)
       /\ state
            (ud (snd (_handle_filter_cars demo_cfg demo_ext None None
                        (fresh [0%N]))))
          = Some (BotState_value WAITING_FOR_INTENT).
Proof.
  assert (H0 : suitable_cars_of demo_cfg demo_ext None None
                 (ud (fresh [0%N])) <> []) by discriminate.
  split; [exact H0 |].
  destruct (handle_filter_cars_effect demo_cfg demo_ext None None
              (fresh [0%N])) as (H & _).
  destruct (H eq_refl eq_refl H0) as (c & Hc & H1 & H2 & _).
  exists c. split; [exact Hc |]. split; [exact H1 | exact H2].
Defined.

(** ** Comparing with fewer than two vehicles *)

(** X18. [get_answer_by_intent] for the intent "compare_cars", configured
    with at least one template, raises [IndexError] when the catalog has
    fewer than two vehicles: with one vehicle no second vehicle differs
    from the first. *)
Theorem compare_cars_needs_two cfg ext replica s idata :
  dict_get (Intent_value COMPARE_CARS) (intents cfg) = Some idata ->
  id_responses idata <> [] ->
  (length (cars cfg) <= 1)%nat ->
  fst (get_answer_by_intent cfg ext (Intent_value COMPARE_CARS) replica s)
  = Raise IndexError.
Proof.
  intros Hget Hresp Hlen. unfold get_answer_by_intent.
  rewrite (bind_ok _ _ s (ud s) s) by reflexivity. cbv zeta.
  rewrite Hget.
  destruct (id_responses idata) as [|t0 tl] eqn:E; [congruence |].
  destruct (random_choice_cases (t0 :: tl) s)
    as [[Hnil _] | (x & s1 & Hr & _ & _)]; [discriminate Hnil |].
  rewrite (bind_ok _ _ _ _ _ Hr).
  change (intent_among (Some (Intent_value COMPARE_CARS)) car_intents)
    with false.
  change (is_intent (Some (Intent_value COMPARE_CARS)) CAR_RECOMMENDATION)
    with false.
  change (is_intent (Some (Intent_value COMPARE_CARS)) FILTER_CARS) with false.
  change (is_intent (Some (Intent_value COMPARE_CARS)) CAR_TYPES) with false.
  change (is_intent (Some (Intent_value COMPARE_CARS)) COMPARE_CARS) with true.
  cbv iota.
  destruct (cars cfg) as [|[c d] [|cd2 rest]] eqn:Ec; [| | simpl in Hlen; lia].
  - reflexivity.
  - unfold dict_keys. cbn [map fst].
    unfold bind at 1.
    destruct (random_choice_cases [c] s1)
      as [[Hnil _] | (car1 & s2 & Hc1 & [<- | []] & _)]; [discriminate Hnil |].
    rewrite Hc1. cbn [List.filter]. rewrite String.eqb_refl. reflexivity.
Qed.

(** On the catalog of one vehicle. *)
Lemma compare_cars_needs_two_witness :
  dict_get (Intent_value COMPARE_CARS) (intents demo_single_cfg)
  = Some {| id_examples := Some ["сравни"];
            id_responses := ["[car1] или [car2]?"] |}
  /\ (length (cars demo_single_cfg) <= 1)%nat
  /\ fst (get_answer_by_intent demo_single_cfg demo_ext
            (Intent_value COMPARE_CARS) "сравни" (fresh [0%N; 0%N; 0%N]))
     = Raise IndexError.
Proof.
  split; [reflexivity |].
  assert (Hl : (length (cars demo_single_cfg) <= 1)%nat)
    by (vm_compute; lia).
  split; [exact Hl |].
  apply (compare_cars_needs_two demo_single_cfg demo_ext "сравни"
           (fresh [0%N; 0%N; 0%N]) _ eq_refl); [discriminate | exact Hl].
Defined.

(** ** The vehicle found from the context *)

Lemma truthy_Some v : truthy v = true -> exists c, v = Some c.
Proof. destruct v as [c |]; [eauto | discriminate]. Qed.

Lemma scan_history_spec cfg ext hs s :
  let r := scan_history cfg ext hs s in
  ud (snd r) = ud s
  /\ exists v,
       fst r = Ok v
       /\ forall c, v = Some c ->
            (exists t, In t hs /\ extract_car_name ext t = Some c)
            \/ (exists t k,
                  In t hs /\ extract_car_category ext t = Some k
                  /\ In c (cars_of_category cfg k)).
Proof.
  induction hs as [|hist hs IH]; cbn zeta.
  - split; [reflexivity |]. exists None. split; [reflexivity | discriminate].
  - assert (Hrec :
      ud (snd (scan_history cfg ext hs s)) = ud s
      /\ exists v,
           fst (scan_history cfg ext hs s) = Ok v
           /\ forall c, v = Some c ->
                (exists t, In t (hist :: hs) /\ extract_car_name ext t = Some c)
                \/ (exists t k,
                      In t (hist :: hs) /\ extract_car_category ext t = Some k
                      /\ In c (cars_of_category cfg k))).
    { destruct IH as (H1 & v & H2 & H3). split; [exact H1 |].
      exists v. split; [exact H2 |]. intros c Hc.
      destruct (H3 c Hc) as [(t & Ht & E) | (t & k & Ht & E & Hin)];
        [left; exists t | right; exists t, k]; simpl; auto. }
    cbn [scan_history].
    destruct (truthy (extract_car_name ext hist)) eqn:Hn.
    { split; [reflexivity |]. exists (extract_car_name ext hist).
      split; [reflexivity |]. intros c Hc. left. exists hist. simpl. auto. }
    destruct (truthy (extract_car_category ext hist)) eqn:Hk; [| exact Hrec].
    destruct (truthy_Some _ Hk) as (k & Ek). rewrite Ek.
    change (the_str (Some k)) with k.
    destruct (cars_of_category cfg k) as [|c0 l] eqn:El; [exact Hrec |].
    destruct (random_choice_cases (c0 :: l) s)
      as [[Hnil _] | (x & s1 & Hr & Hin & Hu)]; [discriminate Hnil |].
    rewrite (bind_ok _ _ _ _ _ Hr). split; [exact Hu |].
    exists (Some x). split; [reflexivity |]. intros c [= <-].
    right. exists hist, k. rewrite El. simpl. auto.
Qed.

(** X19. [_find_car_by_context] never raises and never writes the session.
    When the last reply carries the mention "Кстати, у нас есть", the result
    is the vehicle name extracted from that reply, whatever the utterance
    says, and no random number is drawn. In every case a vehicle it returns
    is the name extracted from the last reply or from an utterance of the
    history, or a vehicle of the catalog with the category extracted from
    the utterance or from an utterance of the history. *)
Theorem find_car_by_context_spec cfg ext replica s :
  let r := _find_car_by_context cfg ext replica s in
  let last := the_str (get_or EmptyString (last_bot_response (ud s))) in
  ud (snd r) = ud s
  /\ exists v,
       fst r = Ok v
       /\ (str_in "Кстати, у нас есть" last = true ->
           v = extract_car_name ext last /\ tape (snd r) = tape s)
       /\ forall c, v = Some c ->
            (exists t,
               (t = last \/ In t (default [] (history (ud s))))
               /\ extract_car_name ext t = Some c)
            \/ (exists t k,
                  (t = replica \/ In t (default [] (history (ud s))))
                  /\ extract_car_category ext t = Some k
                  /\ In c (cars_of_category cfg k)).
Proof.
  intros r last. subst r. unfold _find_car_by_context.
  rewrite (bind_ok _ _ s (ud s) s) by reflexivity. cbv zeta. fold last.
  assert (Hlast : str_in "Кстати, у нас есть" last = true ->
                  truthy (get_or EmptyString (last_bot_response (ud s)))
                  = true).
  { subst last.
    destruct (get_or EmptyString (last_bot_response (ud s))) as [[|a t] |];
      cbn; auto. }
  destruct (truthy (get_or EmptyString (last_bot_response (ud s)))
            && str_in "Кстати, у нас есть" last) eqn:Hup.
  { split; [reflexivity |]. exists (extract_car_name ext last).
    split; [reflexivity |]. split; [auto |].
    intros c Hc. left. exists last. auto. }
  assert (Hno : str_in "Кстати, у нас есть" last = true -> False).
  { intros H. rewrite (Hlast H), H in Hup. discriminate Hup. }
  destruct (truthy (extract_car_category ext replica)) eqn:Hk.
  { destruct (truthy_Some _ Hk) as (k & Ek). rewrite Ek.
    change (the_str (Some k)) with k.
    destruct (cars_of_category cfg k) as [|c0 l] eqn:El.
    { split; [reflexivity |]. exists None. split; [reflexivity |].
      split; [intros H; destruct (Hno H) | discriminate]. }
    destruct (random_choice_cases (c0 :: l) s)
      as [[Hnil _] | (x & s1 & Hr & Hin & Hu)]; [discriminate Hnil |].
    rewrite (bind_ok _ _ _ _ _ Hr). split; [exact Hu |].
    exists (Some x). split; [reflexivity |].
    split; [intros H; destruct (Hno H) |].
    intros c [= <-]. right. exists replica, k. rewrite El. auto. }
  destruct (is_intent (get_or EmptyString (last_intent (ud s))) CAR_TYPES).
  - destruct (scan_history_spec cfg ext (rev (default [] (history (ud s)))) s)
      as (H1 & v & H2 & H3).
    split; [exact H1 |]. exists v. split; [exact H2 |].
    split; [intros H; destruct (Hno H) |].
    intros c Hc.
    destruct (H3 c Hc) as [(t & Ht & E) | (t & k & Ht & E & Hin)];
      apply in_rev in Ht; [left; exists t | right; exists t, k]; auto.
  - split; [reflexivity |]. exists None. split; [reflexivity |].
    split; [intros H; destruct (Hno H) | discriminate].
Qed.

(** On the small catalog: after a greeting that mentioned vehicle A. *)
Lemma find_car_by_context_spec_witness :
  str_in "Кстати, у нас есть"
    (the_str (get_or EmptyString
                (last_bot_response
                   (ud (snd (process demo_cfg demo_ext "привет"
                               (fresh [0%N; 0%N])))))))
  = true
  /\ fst (_find_car_by_context demo_cfg demo_ext "сколько стоит кроссовер"
            (snd (process demo_cfg demo_ext "привет" (fresh [0%N; 0%N]))))
     = Ok (Some "A").
Proof.
  assert (H : str_in "Кстати, у нас есть"
                (the_str (get_or EmptyString
                            (last_bot_response
                               (ud (snd (process demo_cfg demo_ext "привет"
                                           (fresh [0%N; 0%N])))))))
              = true) by (vm_compute; reflexivity).
  split; [exact H |].
  destruct (find_car_by_context_spec demo_cfg demo_ext
              "сколько стоит кроссовер"
              (snd (process demo_cfg demo_ext "привет" (fresh [0%N; 0%N]))))
    as (_ & v & Hv & Hup & _).
  rewrite Hv. destruct (Hup H) as [-> _]. vm_compute. reflexivity.
Defined.
